(** * lib/printfmt.c: the printf-style formatting engine of JOS (MIT 6.828)

    A shallow embedding of [printnum], [getuint], [getint], [vprintfmt],
    [printfmt], [sprintputch] and [vsnprintf], and the properties of the
    formatting engine proved over it.

    Conventions of the embedding.
    - C integers are [Z] with the conversion to the C type written out
      ([to_int], [to_ullong], ...): two's complement, wrap-around.
    - [putch] returns nothing and [vprintfmt] never reads [putdat], so a call
      of the engine is modelled by the sequence of the arguments of its
      [putch] calls, in call order; a sink is then run over that sequence
      (see [vsnprintf]).
    - The format string is the array of its bytes, the terminating zero byte
      being its last element; [fmt] is an index into it.  A read outside the
      array is the fault [ReadPastEnd].
    - The variadic arguments are an explicit list of tagged values; [va_arg]
      at a type that the next argument does not have is the fault [BadArg].
    - Loops carry a fuel argument; the fuel given by the callers is shown to
      be sufficient where a theorem needs a result. *)

From Stdlib Require Import ZArith List Lia Bool String Ascii.
Import ListNotations.
Local Open Scope Z_scope.

(** ** C integer types *)

Module CInt.

(** Conversion to an unsigned type of [bits] bits. *)
Definition to_unsigned (bits z : Z) : Z := z mod 2 ^ bits.

(** Conversion to a signed type of [bits] bits (two's complement). *)
Definition to_signed (bits z : Z) : Z :=
  (z + 2 ^ (bits - 1)) mod 2 ^ bits - 2 ^ (bits - 1).

Definition to_int : Z -> Z := to_signed 32.
Definition to_uint : Z -> Z := to_unsigned 32.
Definition to_llong : Z -> Z := to_signed 64.
Definition to_ullong : Z -> Z := to_unsigned 64.
Definition to_schar : Z -> Z := to_signed 8.
Definition to_uchar : Z -> Z := to_unsigned 8.

Definition INT_MIN : Z := - 2 ^ 31.
Definition INT_MAX : Z := 2 ^ 31 - 1.
Definition ULLONG_MAX : Z := 2 ^ 64 - 1.

(** inc/types.h is not part of the sources at hand; JOS is built for the
    i386, where [long], [size_t] and [uintptr_t] have 32 bits.  No property
    below depends on the width of [long] or of [uintptr_t]. *)
Definition long_bits : Z := 32.
Definition uintptr_bits : Z := 32.

End CInt.
Export CInt.

(** ** Characters and strings *)

Definition chr (a : ascii) : Z := Z.of_N (N_of_ascii a).

Fixpoint bytes (s : string) : list Z :=
  match s with
  | EmptyString => []
  | String a s' => chr a :: bytes s'
  end.

(** The array of a string literal: its bytes and the terminating zero. *)
Definition cstring (s : string) : list Z := bytes s ++ [0].

(** ** Results of fallible code *)

Inductive fault : Type :=
| ReadPastEnd   (* a read of the format string outside its array *)
| BadArg        (* va_arg: no argument left, or one of another type *)
| BadIndex      (* error_string indexed outside 0 .. MAXERROR-1 *)
| DivByZero     (* printnum with base 0 *)
| OutOfFuel.    (* a loop or a recursion did not end within its fuel *)

Inductive result (A : Type) : Type :=
| Done (a : A)
| Fault (f : fault).
Arguments Done {A} a.
Arguments Fault {A} f.

Definition bind {A B : Type} (m : result A) (k : A -> result B) : result B :=
  match m with
  | Done a => k a
  | Fault f => Fault f
  end.

Notation "x <- m ;; k" := (bind m (fun x => k))
  (at level 61, m at next level, right associativity).
Notation "' pat <- m ;; k" := (bind m (fun x => match x with pat => k end))
  (at level 61, pat pattern, m at next level, right associativity).

(** ** printnum *)

(** ["0123456789abcdef"[i]] *)
Definition digit_char (i : Z) : Z :=
  nth (Z.to_nat i) (bytes "0123456789abcdef") 0.

(** [while (--width > 0) putch(padc, putdat);] *)
Fixpoint printnum_pad (fuel : nat) (width padc : Z) : result (list Z) :=
  let width := to_int (width - 1) in
  if 0 <? width then
    match fuel with
    | O => Fault OutOfFuel
    | S fuel' =>
        out <- printnum_pad fuel' width padc ;;
        Done (padc :: out)
    end
  else Done [].

(** [printnum(putch, putdat, num, base, width, padc)]: [num] is an
    [unsigned long long], [base] an [unsigned], [width] and [padc] are
    [int]s.  [fuel] bounds the depth of the recursion. *)
Fixpoint printnum (fuel : nat) (num base width padc : Z) : result (list Z) :=
  match fuel with
  | O => Fault OutOfFuel
  | S fuel' =>
      if base =? 0 then Fault DivByZero else
      out <-
        (if base <=? num then
           printnum fuel' (num / base) base (to_int (width - 1)) padc
         else
           printnum_pad (Z.to_nat (to_int (width - 1))) width padc) ;;
      Done (out ++ [Z.lor (digit_char (num mod base)) (Z.land padc 0xff00)])
  end.

(** An [unsigned long long] has at most 64 digits in any base >= 2. *)
Definition printnum_fuel : nat := 65.

(** ** The variadic arguments *)

Inductive arg : Type :=
| Aint (i : Z)                    (* int, unsigned int *)
| Along (i : Z)                   (* long, unsigned long *)
| Alonglong (i : Z)               (* long long, unsigned long long *)
| Aptr (a : Z)                    (* void * *)
| Astr (s : option (list Z)).     (* char *: NULL, or the bytes it points to
                                     (those before its terminating zero) *)

Definition va_list : Type := list arg.

(** [va_arg(ap, int)] *)
Definition va_arg_int (ap : va_list) : result (Z * va_list) :=
  match ap with
  | Aint i :: ap' => Done (to_int i, ap')
  | _ => Fault BadArg
  end.

(** [va_arg(ap, char * )] *)
Definition va_arg_str (ap : va_list) : result (option (list Z) * va_list) :=
  match ap with
  | Astr s :: ap' => Done (s, ap')
  | _ => Fault BadArg
  end.

(** [va_arg(ap, void * )] *)
Definition va_arg_ptr (ap : va_list) : result (Z * va_list) :=
  match ap with
  | Aptr a :: ap' => Done (a, ap')
  | _ => Fault BadArg
  end.

(** [getuint(&ap, lflag)]: the result is an [unsigned long long]. *)
Definition getuint (ap : va_list) (lflag : Z) : result (Z * va_list) :=
  if 2 <=? lflag then
    match ap with
    | Alonglong i :: ap' => Done (to_ullong i, ap')
    | _ => Fault BadArg
    end
  else if negb (lflag =? 0) then
    match ap with
    | Along i :: ap' => Done (to_ullong (to_unsigned long_bits i), ap')
    | _ => Fault BadArg
    end
  else
    match ap with
    | Aint i :: ap' => Done (to_ullong (to_uint i), ap')
    | _ => Fault BadArg
    end.

(** [getint(&ap, lflag)]: the result is a [long long]. *)
Definition getint (ap : va_list) (lflag : Z) : result (Z * va_list) :=
  if 2 <=? lflag then
    match ap with
    | Alonglong i :: ap' => Done (to_llong i, ap')
    | _ => Fault BadArg
    end
  else if negb (lflag =? 0) then
    match ap with
    | Along i :: ap' => Done (to_llong (to_signed long_bits i), ap')
    | _ => Fault BadArg
    end
  else
    match ap with
    | Aint i :: ap' => Done (to_llong (to_int i), ap')
    | _ => Fault BadArg
    end.

(** ** The error codes and their strings *)

(** The constants of inc/error.h, which is not part of the sources at hand:
    they are parameters of the engine. *)
Record error_h : Type := {
  E_UNSPECIFIED : Z;
  E_BAD_ENV : Z;
  E_INVAL : Z;
  E_NO_MEM : Z;
  E_NO_FREE_ENV : Z;
  E_FAULT : Z;
  MAXERROR : Z
}.

(** Modelled from the spec: inc/error.h is missing, and the spec leaves the
    table's size and contents to the embedding system while its examples take
    3 for a valid index and 999 for one out of range.  This configuration
    numbers the six codes from 1 in the order of the table and takes the next
    number for MAXERROR. *)
Definition jos_error_h : error_h := {|
  E_UNSPECIFIED := 1;
  E_BAD_ENV := 2;
  E_INVAL := 3;
  E_NO_MEM := 4;
  E_NO_FREE_ENV := 5;
  E_FAULT := 6;
  MAXERROR := 7
|}.

(** [error_string[i]]: the array has MAXERROR elements; an element without
    an initialiser is NULL, and of two initialisers for one index the later
    one counts. *)
Definition error_string (E : error_h) (i : Z) : result (option (list Z)) :=
  if (0 <=? i) && (i <? MAXERROR E) then
    Done (if i =? E_FAULT E then Some (bytes "segmentation fault")
          else if i =? E_NO_FREE_ENV E then Some (bytes "out of environments")
          else if i =? E_NO_MEM E then Some (bytes "out of memory")
          else if i =? E_INVAL E then Some (bytes "invalid parameter")
          else if i =? E_BAD_ENV E then Some (bytes "bad environment")
          else if i =? E_UNSPECIFIED E then Some (bytes "unspecified error")
          else None)
  else Fault BadIndex.

(** ** Reading the format string *)

(** [*(unsigned char * ) fmt] with [fmt] at index [pos] *)
Definition read_uchar (fmt : list Z) (pos : nat) : result Z :=
  match nth_error fmt pos with
  | Some b => Done (to_uchar b)
  | None => Fault ReadPastEnd
  end.

(** [*fmt] with [fmt] at index [pos]: a [char], which is signed on the i386 *)
Definition read_char (fmt : list Z) (pos : nat) : result Z :=
  match nth_error fmt pos with
  | Some b => Done (to_schar b)
  | None => Fault ReadPastEnd
  end.

(** ** The state of one directive *)

Record directive : Type := {
  padc : Z;
  width : Z;
  precision : Z;
  lflag : Z;
  altflag : Z
}.

Definition set_padc (d : directive) (c : Z) : directive :=
  {| padc := c; width := width d; precision := precision d;
     lflag := lflag d; altflag := altflag d |}.
Definition set_width (d : directive) (w : Z) : directive :=
  {| padc := padc d; width := w; precision := precision d;
     lflag := lflag d; altflag := altflag d |}.
Definition set_precision (d : directive) (p : Z) : directive :=
  {| padc := padc d; width := width d; precision := p;
     lflag := lflag d; altflag := altflag d |}.
Definition set_lflag (d : directive) (l : Z) : directive :=
  {| padc := padc d; width := width d; precision := precision d;
     lflag := l; altflag := altflag d |}.
Definition set_altflag (d : directive) (a : Z) : directive :=
  {| padc := padc d; width := width d; precision := precision d;
     lflag := lflag d; altflag := a |}.

(** The assignments made after the ['%'] of a directive. *)
Definition init_directive : directive :=
  {| padc := chr " "; width := -1; precision := -1; lflag := 0; altflag := 0 |}.

(** [process_precision: if (width < 0) width = precision, precision = -1;] *)
Definition process_precision (d : directive) : directive :=
  if width d <? 0 then set_precision (set_width d (precision d)) (-1) else d.

(** [case '.': if (width < 0) width = 0;] *)
Definition case_dot (d : directive) : directive :=
  if width d <? 0 then set_width d 0 else d.

(** The loop of [case '1' ... '9'], entered with [fmt] at [pos], the index
    after the first digit [ch], and [precision = 0]:
    [for (precision = 0; ; ++fmt) { precision = precision * 10 + ch - '0';
       ch = *fmt; if (ch < '0' || ch > '9') break; }] *)
Fixpoint digit_run (fuel : nat) (fmt : list Z) (pos : nat) (prec ch : Z)
  : result (Z * nat) :=
  let prec := to_int (prec * 10 + ch - chr "0") in
  ch <- read_char fmt pos ;;
  if (ch <? chr "0") || (chr "9" <? ch) then Done (prec, pos)
  else
    match fuel with
    | O => Fault OutOfFuel
    | S fuel' => digit_run fuel' fmt (S pos) prec ch
    end.

(** [reswitch: switch (ch = *(unsigned char * ) fmt++)], for as long as the
    cases end in [goto reswitch]: the result is the character of the first
    other case, with the index after it, the directive and the arguments
    left. *)
Fixpoint reswitch (fuel : nat) (fmt : list Z) (pos : nat) (d : directive)
  (ap : va_list) : result (Z * nat * directive * va_list) :=
  match fuel with
  | O => Fault OutOfFuel
  | S fuel' =>
      ch <- read_uchar fmt pos ;;
      let pos := S pos in
      if ch =? chr "-" then reswitch fuel' fmt pos (set_padc d (chr "-")) ap
      else if ch =? chr "0" then
        reswitch fuel' fmt pos (set_padc d (chr "0")) ap
      else if (chr "1" <=? ch) && (ch <=? chr "9") then
        '(prec, pos) <- digit_run fuel' fmt pos 0 ch ;;
        reswitch fuel' fmt pos (process_precision (set_precision d prec)) ap
      else if ch =? chr "*" then
        '(prec, ap) <- va_arg_int ap ;;
        reswitch fuel' fmt pos (process_precision (set_precision d prec)) ap
      else if ch =? chr "." then reswitch fuel' fmt pos (case_dot d) ap
      else if ch =? chr "#" then reswitch fuel' fmt pos (set_altflag d 1) ap
      else if ch =? chr "l" then
        reswitch fuel' fmt pos (set_lflag d (to_int (lflag d + 1))) ap
      else Done (ch, pos, d, ap)
  end.

(** The loop at the head of [while (1)]:
    [while ((ch = *(unsigned char * ) fmt++) != '%')
       { if (ch == '\0') return; putch(ch | attri, putdat); }]
    The result is the output and the index after the ['%'], or [None] when
    the function returns. *)
Fixpoint literal (fuel : nat) (fmt : list Z) (pos : nat) (attri : Z)
  : result (list Z * option nat) :=
  match fuel with
  | O => Fault OutOfFuel
  | S fuel' =>
      ch <- read_uchar fmt pos ;;
      if ch =? chr "%" then Done ([], Some (S pos))
      else if ch =? 0 then Done ([], None)
      else
        '(out, next) <- literal fuel' fmt (S pos) attri ;;
        Done (Z.lor ch attri :: out, next)
  end.

(** [for (fmt--; fmt[-1] != '%'; fmt--)], after the [fmt--] of its
    initialisation: [pos] is the index of [fmt]. *)
Fixpoint rewind (fmt : list Z) (pos : nat) : result nat :=
  match pos with
  | O => Fault ReadPastEnd
  | S p =>
      c <- read_char fmt p ;;
      if c =? chr "%" then Done pos else rewind fmt p
  end.

(** ** case 's' *)

Definition size_t_bits : Z := 32.

(** The bytes of a string before its terminating zero. *)
Fixpoint strlen (s : list Z) : Z :=
  match s with
  | [] => 0
  | c :: s' => if to_schar c =? 0 then 0 else 1 + strlen s'
  end.

(** Modelled from the spec: strnlen is declared in inc/string.h and defined
    in lib/string.c, which are not part of the sources at hand.  The spec has
    it as the smaller one of the string's length and the bound. *)
Definition strnlen (s : list Z) (size : Z) : Z := Z.min (strlen s) size.

(** [for (; width > 0; width--) putch(c, putdat);] with the width left *)
Fixpoint fill (fuel : nat) (width c : Z) : result (list Z * Z) :=
  if 0 <? width then
    match fuel with
    | O => Fault OutOfFuel
    | S fuel' =>
        '(out, w) <- fill fuel' (to_int (width - 1)) c ;;
        Done (c :: out, w)
    end
  else Done ([], width).

(** The character that [case 's'] writes for the character [ch]. *)
Definition s_char (ch altflag attri : Z) : Z :=
  if negb (altflag =? 0) && ((ch <? chr " ") || (chr "~" <? ch))
  then Z.lor (chr "?") attri
  else Z.lor ch attri.

(** [for (; (ch = *p++) != '\0' && (precision < 0 || --precision >= 0);
         width--) ...] with the width left *)
Fixpoint s_chars (p : list Z) (width prec altflag attri : Z) : list Z * Z :=
  match p with
  | [] => ([], width)
  | c :: p' =>
      let ch := to_schar c in
      if ch =? 0 then ([], width)
      else if prec <? 0 then
        let '(out, w) := s_chars p' (to_int (width - 1)) prec altflag attri in
        (s_char ch altflag attri :: out, w)
      else
        let prec := to_int (prec - 1) in
        if 0 <=? prec then
          let '(out, w) := s_chars p' (to_int (width - 1)) prec altflag attri in
          (s_char ch altflag attri :: out, w)
        else ([], width)
  end.

(** The body of [case 's'] after [va_arg]. *)
Definition case_s (p : option (list Z)) (d : directive) (attri : Z)
  : result (list Z) :=
  let p := match p with None => bytes "(null)" | Some s => s end in
  '(out1, width) <-
    (if (0 <? width d) && negb (padc d =? chr "-") then
       let width :=
         to_int (width d - strnlen p (to_unsigned size_t_bits (precision d))) in
       fill (Z.to_nat width) width (Z.lor (padc d) attri)
     else Done ([], width d)) ;;
  let '(out2, width) := s_chars p width (precision d) (altflag d) attri in
  '(out3, _) <- fill (Z.to_nat width) width (Z.lor (chr " ") attri) ;;
  Done (out1 ++ out2 ++ out3).

(** ** The attribute cases *)

(** The inner [switch (ch)] of [case 'B']. *)
Definition case_B_attri (ch attri : Z) : Z :=
  if ch =? chr "B" then Z.lor attri 0x1000
  else if ch =? chr "G" then Z.lor attri 0x2000
  else if ch =? chr "R" then Z.lor attri 0x4000
  else if ch =? chr "I" then Z.lor attri 0x8000
  else if ch =? chr "b" then Z.land attri (Z.lnot 0x1000)
  else if ch =? chr "g" then Z.land attri (Z.lnot 0x2000)
  else if ch =? chr "r" then Z.land attri (Z.lnot 0x4000)
  else if ch =? chr "i" then Z.land attri (Z.lnot 0x8000)
  else attri.

(** The inner [switch (ch)] of [case 'F']. *)
Definition case_F_attri (ch attri : Z) : Z :=
  if ch =? chr "B" then Z.lor attri 0x0100
  else if ch =? chr "G" then Z.lor attri 0x0200
  else if ch =? chr "R" then Z.lor attri 0x0400
  else if ch =? chr "I" then Z.lor attri 0x0800
  else if ch =? chr "b" then Z.land attri (Z.lnot 0x0100)
  else if ch =? chr "g" then Z.land attri (Z.lnot 0x0200)
  else if ch =? chr "r" then Z.land attri (Z.lnot 0x0400)
  else if ch =? chr "i" then Z.land attri (Z.lnot 0x0800)
  else attri.

(** ** vprintfmt *)

Section Engine.

Variable E : error_h.

(** The function [printfmt], which [case 'e'] calls: it calls [vprintfmt]
    in turn (see [vprintfmt_rec]). *)
Variable printfmt_call : list Z -> va_list -> result (list Z).

(** The body of [case 'e'] after [va_arg]. *)
Definition case_e (err : Z) : result (list Z) :=
  let err := if err <? 0 then to_int (- err) else err in
  if MAXERROR E <=? err then printfmt_call (cstring "error %d") [Aint err]
  else
    p <- error_string E err ;;
    match p with
    | None => printfmt_call (cstring "error %d") [Aint err]
    | Some s => printfmt_call (cstring "%s") [Astr (Some s)]
    end.

(** [number: printnum(putch, putdat, num, base, width, padc | attri);] *)
Definition number (num base : Z) (d : directive) (attri : Z)
  : result (list Z) :=
  printnum printnum_fuel num base (width d) (Z.lor (padc d) attri).

(** The body of [case 'd'] after [getint]: [n] is a [long long]. *)
Definition case_d (n : Z) (d : directive) (attri : Z) : result (list Z) :=
  let num := to_ullong n in
  if to_llong num <? 0 then
    out <- number (to_ullong (to_llong (- to_llong num))) 10 d attri ;;
    Done (Z.lor (chr "-") attri :: out)
  else number num 10 d attri.

(** The cases of the [switch] that end in [break]: [ch] is the character
    read and [pos] the index after it.  The result is the output, the index
    of [fmt], the arguments left and the attribute. *)
Definition convert (ch : Z) (fmt : list Z) (pos : nat) (d : directive)
  (ap : va_list) (attri : Z) : result (list Z * nat * va_list * Z) :=
  if ch =? chr "c" then
    '(c, ap) <- va_arg_int ap ;;
    Done ([Z.lor c attri], pos, ap, attri)
  else if ch =? chr "e" then
    '(err, ap) <- va_arg_int ap ;;
    out <- case_e err ;;
    Done (out, pos, ap, attri)
  else if ch =? chr "s" then
    '(p, ap) <- va_arg_str ap ;;
    out <- case_s p d attri ;;
    Done (out, pos, ap, attri)
  else if ch =? chr "d" then
    '(n, ap) <- getint ap (lflag d) ;;
    out <- case_d n d attri ;;
    Done (out, pos, ap, attri)
  else if ch =? chr "u" then
    '(num, ap) <- getuint ap (lflag d) ;;
    out <- number num 10 d attri ;;
    Done (out, pos, ap, attri)
  else if ch =? chr "o" then
    '(num, ap) <- getuint ap (lflag d) ;;
    out <- number num 8 d attri ;;
    Done (out, pos, ap, attri)
  else if ch =? chr "p" then
    '(a, ap) <- va_arg_ptr ap ;;
    out <- number (to_ullong (to_unsigned uintptr_bits a)) 16 d attri ;;
    Done (Z.lor (chr "0") attri :: Z.lor (chr "x") attri :: out,
          pos, ap, attri)
  else if ch =? chr "x" then
    '(num, ap) <- getuint ap (lflag d) ;;
    out <- number num 16 d attri ;;
    Done (out, pos, ap, attri)
  else if ch =? chr "%" then Done ([Z.lor ch attri], pos, ap, attri)
  else if ch =? chr "B" then
    c <- read_char fmt pos ;;
    let attri := case_B_attri c attri in
    _ <- read_char fmt (S pos) ;;
    Done ([], S pos, ap, attri)
  else if ch =? chr "F" then
    c <- read_char fmt pos ;;
    let attri := case_F_attri c attri in
    _ <- read_char fmt (S pos) ;;
    Done ([], S pos, ap, attri)
  else if ch =? chr "C" then
    _ <- read_char fmt pos ;;
    Done ([], pos, ap, 0)
  else
    pos <- rewind fmt (Nat.pred pos) ;;
    Done ([Z.lor (chr "%") attri], pos, ap, attri).

(** The loop [while (1)], entered with [fmt] at [pos]: each turn copies
    the text before the next ['%'] and processes one directive. *)
Fixpoint vprintfmt_loop (fuel : nat) (fmt : list Z) (pos : nat)
  (ap : va_list) (attri : Z) : result (list Z) :=
  match fuel with
  | O => Fault OutOfFuel
  | S fuel' =>
      '(out1, next) <- literal (S (List.length fmt)) fmt pos attri ;;
      match next with
      | None => Done out1
      | Some pos =>
          '(ch, pos, d, ap) <-
            reswitch (S (List.length fmt)) fmt pos init_directive ap ;;
          '(out2, pos, ap, attri) <- convert ch fmt pos d ap attri ;;
          out3 <- vprintfmt_loop fuel' fmt pos ap attri ;;
          Done (out1 ++ out2 ++ out3)
      end
  end.

End Engine.

(** [vprintfmt(putch, putdat, fmt, ap)], with [int attri = 0] at its entry.
    [depth] bounds the nesting of calls through [printfmt]; every turn of the
    loop moves [fmt] forward, so that the length of the array bounds the
    turns. *)
Fixpoint vprintfmt_rec (depth : nat) (E : error_h) (fmt : list Z)
  (ap : va_list) : result (list Z) :=
  match depth with
  | O => Fault OutOfFuel
  | S depth' =>
      vprintfmt_loop E (vprintfmt_rec depth' E) (S (List.length fmt)) fmt 0 ap 0
  end.

(** The formats that [case 'e'] passes to [printfmt] have no [%e]: the calls
    nest once at most. *)
Definition vprintfmt (E : error_h) (fmt : list Z) (ap : va_list)
  : result (list Z) :=
  vprintfmt_rec 2 E fmt ap.

(** [printfmt(putch, putdat, fmt, ...)] *)
Definition printfmt (E : error_h) (fmt : list Z) (ap : va_list)
  : result (list Z) :=
  vprintfmt E fmt ap.

(** ** The bounded buffer *)

(** [struct sprintbuf]: [buf] and [ebuf] point into the caller's array and
    are kept as indices into it. *)
Record sprintbuf : Type := {
  buf : Z;
  ebuf : Z;
  cnt : Z
}.

Inductive sink_fault : Type :=
| WriteOutside.   (* a store outside the caller's array *)

(** [*p = v] for [p] at index [i] of the array [mem] *)
Fixpoint store (mem : list Z) (i : nat) (v : Z) : option (list Z) :=
  match mem, i with
  | [], _ => None
  | _ :: mem', O => Some (v :: mem')
  | b :: mem', S i' =>
      match store mem' i' v with
      | Some m => Some (b :: m)
      | None => None
      end
  end.

Definition store_at (mem : list Z) (i v : Z) : option (list Z) :=
  if i <? 0 then None else store mem (Z.to_nat i) v.

(** [sprintputch(ch, b)]: the state is the structure and the array. *)
Definition sprintputch (ch : Z) (st : sprintbuf * list Z)
  : option (sprintbuf * list Z) :=
  let '(b, mem) := st in
  let b := {| buf := buf b; ebuf := ebuf b; cnt := to_int (cnt b + 1) |} in
  if buf b <? ebuf b then
    match store_at mem (buf b) (to_uchar ch) with
    | Some mem' =>
        Some ({| buf := buf b + 1; ebuf := ebuf b; cnt := cnt b |}, mem')
    | None => None
    end
  else Some (b, mem).

(** A sink run over the output of the engine. *)
Fixpoint run_sink {S : Type} (putch : Z -> S -> option S) (out : list Z)
  (s : S) : option S :=
  match out with
  | [] => Some s
  | ch :: out' =>
      match putch ch s with
      | Some s' => run_sink putch out' s'
      | None => None
      end
  end.

(** What a call of [vsnprintf] does. *)
Inductive outcome : Type :=
| Returns (rc : Z) (mem : option (list Z))   (* the value returned and the
                                                caller's array afterwards *)
| EngineFault (f : fault)
| SinkFault (f : sink_fault).

(** [vsnprintf(buf, n, fmt, ap)]: the buffer is [None] for a null pointer,
    and the caller's array otherwise. *)
Definition vsnprintf (E : error_h) (buffer : option (list Z)) (n : Z)
  (fmt : list Z) (ap : va_list) : outcome :=
  match buffer with
  | None => Returns (to_int (- E_INVAL E)) None
  | Some mem =>
      let b := {| buf := 0; ebuf := 0 + n - 1; cnt := 0 |} in
      if n <? 1 then Returns (to_int (- E_INVAL E)) (Some mem)
      else
        match vprintfmt E fmt ap with
        | Fault f => EngineFault f
        | Done out =>
            match run_sink sprintputch out (b, mem) with
            | None => SinkFault WriteOutside
            | Some (b, mem) =>
                match store_at mem (buf b) 0 with
                | Some mem' => Returns (cnt b) (Some mem')
                | None => SinkFault WriteOutside
                end
            end
        end
  end.

(** [snprintf(buf, n, fmt, ...)] *)
Definition snprintf (E : error_h) (buffer : option (list Z)) (n : Z)
  (fmt : list Z) (ap : va_list) : outcome :=
  vsnprintf E buffer n fmt ap.

(** ** Specification-side definitions *)

(** The value of a list of digits, the most significant one first. *)
Definition digits_value (b : Z) (ds : list Z) : Z :=
  fold_left (fun acc d => acc * b + d) ds 0.

(** The digits of [v] in base [b], the least significant one first. *)
Fixpoint digits_lsb (fuel : nat) (b v : Z) : list Z :=
  match fuel with
  | O => []
  | S fuel' =>
      v mod b :: (if v / b =? 0 then [] else digits_lsb fuel' b (v / b))
  end.

(** The digits of an [unsigned long long], the most significant one first. *)
Definition digits (b v : Z) : list Z := rev (digits_lsb 64 b v).

Definition digitCount (v b : Z) : Z := Z.of_nat (List.length (digits b v)).

(** What [printnum] writes for the digit [d]. *)
Definition put_digit (padc d : Z) : Z :=
  Z.lor (digit_char d) (Z.land padc 0xff00).

(** The bytes of a string before its terminating zero. *)
Fixpoint c_chars (s : list Z) : list Z :=
  match s with
  | [] => []
  | c :: s' => if to_schar c =? 0 then [] else c :: c_chars s'
  end.

(** [%s]: the string that is shown. *)
Definition s_string (p : option (list Z)) : list Z :=
  match p with
  | None => bytes "(null)"
  | Some s => c_chars s
  end.

(** [%s]: the bytes of the string that are shown, a negative precision
    setting no limit. *)
Definition s_kept (p : option (list Z)) (prec : Z) : list Z :=
  if prec <? 0 then s_string p else firstn (Z.to_nat prec) (s_string p).

(** [%s]: what is written for the byte [c] of the string. *)
Definition s_shown (c altflag attri : Z) : Z :=
  if negb (altflag =? 0)
     && negb ((0x20 <=? to_uchar c) && (to_uchar c <=? 0x7e))
  then Z.lor (chr "?") attri
  else Z.lor (to_schar c) attri.

(** [%s]: the pad characters before a string of which [n] bytes are shown. *)
Definition s_left (d : directive) (n : Z) : nat :=
  if (0 <? width d) && negb (padc d =? chr "-") then Z.to_nat (width d - n)
  else 0%nat.

(** [%s]: the spaces after a string of which [n] bytes are shown. *)
Definition s_right (d : directive) (n : Z) : nat :=
  if (0 <? width d) && negb (padc d =? chr "-") then 0%nat
  else Z.to_nat (width d - n).

(** [%s]: the whole output. *)
Definition s_output (p : option (list Z)) (d : directive) (attri : Z)
  : list Z :=
  let kept := s_kept p (precision d) in
  let n := Z.of_nat (List.length kept) in
  repeat (Z.lor (padc d) attri) (s_left d n)
  ++ map (fun c => s_shown c (altflag d) attri) kept
  ++ repeat (Z.lor (chr " ") attri) (s_right d n).

(** [%e]: the output for the error code [e]. *)
Definition e_output (E : error_h) (e : Z) : list Z :=
  let a := Z.abs e in
  if a <? MAXERROR E then
    match error_string E a with
    | Done (Some s) => s
    | _ => bytes "error " ++ map digit_char (digits 10 a)
    end
  else bytes "error " ++ map digit_char (digits 10 a).

(** The number that a run of decimal digit characters denotes. *)
Definition decimal_from (acc : Z) (cs : list Z) : Z :=
  fold_left (fun a c => a * 10 + (c - chr "0")) cs acc.

Definition decimal (cs : list Z) : Z := decimal_from 0 cs.

Definition is_digit (c : Z) : Prop := chr "0" <= c <= chr "9".

(** The characters of the cases that end in [goto reswitch]. *)
Definition modifier (c : Z) : bool :=
  (c =? chr "-") || (c =? chr "0") || ((chr "1" <=? c) && (c <=? chr "9"))
  || (c =? chr "*") || (c =? chr ".") || (c =? chr "#") || (c =? chr "l").

(** The characters of the cases that end in [break]. *)
Definition conversion (c : Z) : bool :=
  (c =? chr "c") || (c =? chr "e") || (c =? chr "s") || (c =? chr "d")
  || (c =? chr "u") || (c =? chr "o") || (c =? chr "p") || (c =? chr "x")
  || (c =? chr "%") || (c =? chr "B") || (c =? chr "F") || (c =? chr "C").

(** The bytes of [fmt] from index [i] up to index [j], [j] excluded, are
    modifiers. *)
Definition modifiers_between (fmt : list Z) (i j : nat) : Prop :=
  forall k : nat, (i <= k < j)%nat ->
    exists b : Z, nth_error fmt k = Some b /\ modifier (to_uchar b) = true.

(** [fmt] is the array of the string [s]: the bytes of [s], none of them
    zero, and the terminating zero. *)
Definition c_string_of (fmt s : list Z) : Prop :=
  fmt = s ++ [0] /\ Forall (fun b => to_uchar b <> 0) s.

(** The last byte of [s] is a ['B'] or an ['F']. *)
Definition ends_in_attribute_letter (s : list Z) : Prop :=
  exists (s' : list Z) (b : Z),
    s = s' ++ [b] /\ (to_uchar b = chr "B" \/ to_uchar b = chr "F").

(** The fuel of the model was enough, and no division by zero occurred. *)
Definition runs {A : Type} (r : result A) : Prop :=
  r <> Fault OutOfFuel /\ r <> Fault DivByZero.

(** A plain character of a format: neither the terminating zero nor
    ['%']. *)
Definition plain_byte (b : Z) : Prop :=
  to_uchar b <> 0 /\ to_uchar b <> chr "%".

(** An attribute: bits of the second byte only. *)
Definition attribute (a : Z) : Prop := Z.land a 0xff00 = a.

(** Every bit of the attribute is set in the character [c]. *)
Definition carries (attri c : Z) : Prop := Z.land c attri = attri.

(** What [%d] writes before the digits of [n]. *)
Definition sign_of (n attri : Z) : list Z :=
  if n <? 0 then [Z.lor (chr "-") attri] else [].

(** What [printnum] writes for [num], as C1 has it. *)
Definition number_output (num base width padc : Z) : list Z :=
  repeat padc (Z.to_nat (width - digitCount num base))
  ++ map (put_digit padc) (digits base num).

(** [process_precision] in the words of C4: the value goes to the width if
    the width is still unset, which is -1, and to the precision otherwise. *)
Definition process_precision_claimed (d : directive) : directive :=
  if width d =? -1 then set_precision (set_width d (precision d)) (-1) else d.

(** [case '.'] in the words of C4: the width becomes 0 only if it is still
    unset, which is -1. *)
Definition case_dot_claimed (d : directive) : directive :=
  if width d =? -1 then set_width d 0 else d.

(** The letter after [%B] or [%F], as the specification lists them: blue,
    green, red and intensity are the bits 0, 1, 2 and 3 of the half byte of
    the background (from bit 12) or of the foreground (from bit 8); the
    capital letter sets the bit ([true]) and the small one clears it. *)
Definition colour_letter (c : Z) : option (Z * bool) :=
  if c =? chr "B" then Some (0, true)
  else if c =? chr "G" then Some (1, true)
  else if c =? chr "R" then Some (2, true)
  else if c =? chr "I" then Some (3, true)
  else if c =? chr "b" then Some (0, false)
  else if c =? chr "g" then Some (1, false)
  else if c =? chr "r" then Some (2, false)
  else if c =? chr "i" then Some (3, false)
  else None.

(** * Properties *)

(** ** C integers *)

Lemma to_int_id (z : Z) : INT_MIN <= z <= INT_MAX -> to_int z = z.
Proof.
  unfold to_int, to_signed, INT_MIN, INT_MAX. intros H.
  change (2 ^ (32 - 1)) with 2147483648 in *.
  change (2 ^ 32) with 4294967296.
  change (2 ^ 31) with 2147483648 in H.
  rewrite Z.mod_small by lia. lia.
Qed.

Lemma to_ullong_id (z : Z) : 0 <= z <= ULLONG_MAX -> to_ullong z = z.
Proof.
  unfold to_ullong, to_unsigned, ULLONG_MAX. intros H.
  apply Z.mod_small. lia.
Qed.

(** ** printnum *)

Lemma printnum_pad_repeat (padc : Z) :
  forall (fuel : nat) (w : Z),
    INT_MIN < w <= INT_MAX ->
    (Z.to_nat (w - 1) <= fuel)%nat ->
    printnum_pad fuel w padc = Done (repeat padc (Z.to_nat (w - 1))).
Proof.
  induction fuel as [|fuel IH]; intros w Hw Hf.
  - simpl. rewrite to_int_id by (unfold INT_MIN, INT_MAX in *; lia).
    destruct (0 <? w - 1) eqn:Hp.
    + apply Z.ltb_lt in Hp. lia.
    + apply Z.ltb_ge in Hp. replace (Z.to_nat (w - 1)) with 0%nat by lia.
      reflexivity.
  - simpl. rewrite to_int_id by (unfold INT_MIN, INT_MAX in *; lia).
    destruct (0 <? w - 1) eqn:Hp.
    + apply Z.ltb_lt in Hp.
      rewrite IH by (unfold INT_MIN, INT_MAX in *; lia). simpl.
      replace (Z.to_nat (w - 1)) with (S (Z.to_nat (w - 1 - 1))) by lia.
      reflexivity.
    + apply Z.ltb_ge in Hp. replace (Z.to_nat (w - 1)) with 0%nat by lia.
      reflexivity.
Qed.

Lemma digits_lsb_length_pos (b v : Z) (g : nat) :
  (1 <= List.length (digits_lsb (S g) b v))%nat.
Proof. simpl. lia. Qed.

Lemma pow2_S (f : nat) : 2 ^ Z.of_nat (S f) = 2 * 2 ^ Z.of_nat f.
Proof. rewrite Nat2Z.inj_succ, Z.pow_succ_r by lia. reflexivity. Qed.

Lemma printnum_S (fuel : nat) (num base width padc : Z) :
  printnum (S fuel) num base width padc =
  if base =? 0 then Fault DivByZero else
  out <-
    (if base <=? num then
       printnum fuel (num / base) base (to_int (width - 1)) padc
     else
       printnum_pad (Z.to_nat (to_int (width - 1))) width padc) ;;
  Done (out ++ [put_digit padc (num mod base)]).
Proof. reflexivity. Qed.

Lemma printnum_digits_lsb (b padc : Z) (Hb : 2 <= b) :
  forall (f g : nat) (v w : Z),
    0 <= v < 2 ^ Z.of_nat f ->
    v < 2 ^ Z.of_nat g ->
    (1 <= g)%nat ->
    INT_MIN + Z.of_nat f + 1 <= w <= INT_MAX ->
    printnum (S f) v b w padc =
    Done (repeat padc
            (Z.to_nat (w - Z.of_nat (List.length (digits_lsb g b v))))
          ++ map (put_digit padc) (rev (digits_lsb g b v))).
Proof.
  induction f as [|f IH]; intros g v w Hv Hg Hg1 Hw.
  - (* v = 0 *)
    assert (v = 0) by (simpl in Hv; lia). subst v.
    destruct g as [|g]; [lia|].
    rewrite printnum_S. cbn [digits_lsb].
    replace (b =? 0) with false by (symmetry; apply Z.eqb_neq; lia).
    replace (b <=? 0) with false by (symmetry; apply Z.leb_gt; lia).
    assert (Hi : to_int (w - 1) = w - 1)
      by (apply to_int_id; unfold INT_MIN, INT_MAX in *; lia).
    rewrite Hi, printnum_pad_repeat by (unfold INT_MIN, INT_MAX in *; lia).
    rewrite Z.div_0_l, Z.mod_0_l by lia. reflexivity.
  - destruct g as [|g]; [lia|].
    rewrite pow2_S in Hv, Hg.
    rewrite printnum_S. cbn [digits_lsb].
    replace (b =? 0) with false by (symmetry; apply Z.eqb_neq; lia).
    destruct (b <=? v) eqn:Hbv.
    + apply Z.leb_le in Hbv.
      assert (Hq : 0 < v / b) by (apply Z.div_str_pos; lia).
      assert (Hq2 : v / b <= v / 2).
      { apply Z.div_le_compat_l; lia. }
      assert (Hq3 : v / 2 < 2 ^ Z.of_nat f).
      { apply Z.div_lt_upper_bound; lia. }
      assert (Hq4 : v / 2 < 2 ^ Z.of_nat g).
      { apply Z.div_lt_upper_bound; lia. }
      replace (v / b =? 0) with false by (symmetry; apply Z.eqb_neq; lia).
      rewrite to_int_id by (unfold INT_MIN, INT_MAX in *; lia).
      assert (Hg2 : (1 <= g)%nat).
      { destruct g; [simpl in Hg; lia | lia]. }
      rewrite (IH g (v / b) (w - 1)) by (unfold INT_MIN, INT_MAX in *; lia).
      cbn [bind rev List.length map].
      rewrite map_app. cbn [map]. rewrite <- app_assoc.
      do 3 f_equal. lia.
    + apply Z.leb_gt in Hbv.
      rewrite Z.div_small, Z.mod_small by lia.
      assert (Hi : to_int (w - 1) = w - 1)
        by (apply to_int_id; unfold INT_MIN, INT_MAX in *; lia).
      rewrite Hi, printnum_pad_repeat by (unfold INT_MIN, INT_MAX in *; lia).
      reflexivity.
Qed.

Lemma digits_value_snoc (b d : Z) (ds : list Z) :
  digits_value b (ds ++ [d]) = digits_value b ds * b + d.
Proof. unfold digits_value. rewrite fold_left_app. reflexivity. Qed.

Lemma hd_app_nonempty (d x : Z) (l : list Z) :
  l <> [] -> hd d (l ++ [x]) = hd d l.
Proof. destruct l; [congruence | reflexivity]. Qed.

Lemma digits_lsb_spec (b : Z) (Hb : 2 <= b) :
  forall (g : nat) (v : Z),
    0 <= v < 2 ^ Z.of_nat g ->
    (1 <= g)%nat ->
    digits_value b (rev (digits_lsb g b v)) = v /\
    Forall (fun d => 0 <= d < b) (rev (digits_lsb g b v)) /\
    digits_lsb g b v <> [] /\
    (v = 0 -> digits_lsb g b v = [0]) /\
    (v <> 0 -> hd 0 (rev (digits_lsb g b v)) <> 0).
Proof.
  induction g as [|g IH]; intros v Hv Hg; [lia|].
  cbn [digits_lsb].
  assert (Hm : 0 <= v mod b < b) by (apply Z.mod_pos_bound; lia).
  destruct (v / b =? 0) eqn:Hq.
  - apply Z.eqb_eq in Hq.
    assert (Hvb : v < b).
    { destruct (Z_lt_ge_dec v b) as [|Hge]; [assumption|].
      assert (0 < v / b) by (apply Z.div_str_pos; lia). lia. }
    rewrite (Z.mod_small v b) in * by lia. cbn.
    split; [unfold digits_value; simpl; lia|].
    split; [|split; [|split]].
    + constructor; [lia | constructor].
    + discriminate.
    + intros ->. reflexivity.
    + intros Hn. exact Hn.
  - apply Z.eqb_neq in Hq.
    assert (Hq0 : 0 <= v / b) by (apply Z.div_pos; lia).
    assert (Hq2 : v / b <= v / 2) by (apply Z.div_le_compat_l; lia).
    rewrite pow2_S in Hv.
    assert (Hq3 : v / 2 < 2 ^ Z.of_nat g)
      by (apply Z.div_lt_upper_bound; lia).
    assert (Hg1 : (1 <= g)%nat).
    { destruct g; [simpl in Hq3; lia | lia]. }
    destruct (IH (v / b)) as (Hval & Hall & Hne & _ & Hhd); [lia | lia |].
    cbn [rev]. split; [|split; [|split; [|split]]].
    + rewrite digits_value_snoc, Hval.
      rewrite (Z.div_mod v b) at 3 by lia. lia.
    + apply Forall_app. split; [assumption | constructor; [lia | constructor]].
    + discriminate.
    + intros ->. rewrite Z.div_0_l in Hq by lia. congruence.
    + intros _. rewrite hd_app_nonempty.
      * apply Hhd. lia.
      * intros Hr. apply Hne. apply (f_equal (@rev Z)) in Hr.
        rewrite rev_involutive in Hr. exact Hr.
Qed.

Lemma put_digit_low_byte (padc d : Z) :
  0 <= d < 16 -> Z.land (put_digit padc d) 0xff = digit_char d.
Proof.
  intros Hd. unfold put_digit.
  rewrite Z.land_lor_distr_l, <- Z.land_assoc.
  change (Z.land 0xff00 0xff) with 0. rewrite Z.land_0_r, Z.lor_0_r.
  assert (Hc : d = 0 \/ d = 1 \/ d = 2 \/ d = 3 \/ d = 4 \/ d = 5 \/ d = 6 \/
               d = 7 \/ d = 8 \/ d = 9 \/ d = 10 \/ d = 11 \/ d = 12 \/
               d = 13 \/ d = 14 \/ d = 15) by lia.
  repeat (destruct Hc as [-> | Hc]; [reflexivity|]). subst d. reflexivity.
Qed.

Lemma digitCount_pos (b v : Z) : 1 <= digitCount v b.
Proof.
  unfold digitCount, digits. rewrite length_rev.
  pose proof (digits_lsb_length_pos b v 63). lia.
Qed.

(** The closed form of what [printnum] writes, for every base from 2. *)
Lemma printnum_closed_form (b v w padc : Z) :
  2 <= b ->
  0 <= v <= ULLONG_MAX ->
  INT_MIN + 65 <= w <= INT_MAX ->
  printnum printnum_fuel v b w padc =
  Done (repeat padc (Z.to_nat (w - digitCount v b))
        ++ map (put_digit padc) (digits b v)).
Proof.
  intros Hb Hv Hw. unfold printnum_fuel, digitCount, digits.
  rewrite length_rev.
  change (Z.of_nat 64) with 64 in *.
  apply printnum_digits_lsb; unfold ULLONG_MAX in *;
    change (Z.of_nat 64) with 64; lia.
Qed.

(** C1: for the bases 8, 10 and 16, every [unsigned long long] value [v] and
    every width [w] whose decrements stay within [int], [printnum] writes
    [max (w - digitCount v b) 0] copies of the pad character and then the
    digits of [v] in base [b], the most significant one first, each taken
    from ["0123456789abcdef"]: [max w (digitCount v b)] characters in all.
    The digits are the ones of the positional notation of [v]: in range,
    of value [v], without a leading zero, and the single digit 0 for 0. *)
Theorem printnum_renders (b v w padc : Z) :
  b = 8 \/ b = 10 \/ b = 16 ->
  0 <= v <= ULLONG_MAX ->
  INT_MIN + 65 <= w <= INT_MAX ->
  exists out : list Z,
    printnum printnum_fuel v b w padc = Done out /\
    out = repeat padc (Z.to_nat (Z.max (w - digitCount v b) 0))
          ++ map (put_digit padc) (digits b v) /\
    Z.of_nat (List.length out) = Z.max w (digitCount v b) /\
    digits_value b (digits b v) = v /\
    Forall (fun d => 0 <= d < b /\ Z.land (put_digit padc d) 0xff = digit_char d)
           (digits b v) /\
    (v = 0 -> digits b v = [0]) /\
    (v <> 0 -> hd 0 (digits b v) <> 0).
Proof.
  intros Hb Hv Hw.
  assert (Hb2 : 2 <= b <= 16) by lia.
  destruct (digits_lsb_spec b (proj1 Hb2) 64 v) as (Hval & Hall & _ & Hz & Hhd).
  { unfold ULLONG_MAX in Hv. change (Z.of_nat 64) with 64. lia. }
  { lia. }
  pose proof (digitCount_pos b v) as Hc.
  eexists. split; [apply printnum_closed_form; lia|].
  split; [| split; [| split; [| split; [| split]]]].
  - rewrite Z2Nat.inj_max. rewrite Nat.max_0_r. reflexivity.
  - rewrite length_app, length_map, repeat_length. fold (digits b v).
    unfold digitCount in *. lia.
  - exact Hval.
  - fold (digits b v) in Hall. eapply Forall_impl; [|exact Hall].
    cbv beta. intros d Hd. split; [exact Hd|].
    apply put_digit_low_byte. lia.
  - intros H0. unfold digits. rewrite (Hz H0). reflexivity.
  - exact Hhd.
Qed.

Lemma printnum_renders_witness :
  exists out : list Z,
    printnum printnum_fuel 255 16 6 (chr "0") = Done out /\
    out = repeat (chr "0") (Z.to_nat (Z.max (6 - digitCount 255 16) 0))
          ++ map (put_digit (chr "0")) (digits 16 255) /\
    Z.of_nat (List.length out) = Z.max 6 (digitCount 255 16) /\
    digits_value 16 (digits 16 255) = 255 /\
    Forall (fun d => 0 <= d < 16 /\
                     Z.land (put_digit (chr "0") d) 0xff = digit_char d)
           (digits 16 255) /\
    (255 = 0 -> digits 16 255 = [0]) /\
    (255 <> 0 -> hd 0 (digits 16 255) <> 0).
Proof.
  apply (printnum_renders 16 255 6 (chr "0")).
  - right. right. reflexivity.
  - unfold ULLONG_MAX. lia.
  - unfold INT_MIN, INT_MAX. lia.
Defined.

Example printnum_255_hex :
  printnum printnum_fuel 255 16 6 (chr "0") = Done (bytes "0000ff").
Proof. reflexivity. Qed.

Example printnum_zero :
  printnum printnum_fuel 0 10 (-1) (chr " ") = Done (bytes "0").
Proof. reflexivity. Qed.

(** ** The cases of the switch *)

(** Decides the comparisons of character constants in a goal. *)
Ltac eval_chr_eqb :=
  repeat match goal with
    | |- context [chr ?a =? chr ?b] =>
        let v := eval vm_compute in (chr a =? chr b) in
        change (chr a =? chr b) with v; cbv iota
    end.

Lemma put_digit_attri (c attri d : Z) :
  Z.land c 0xff00 = 0 ->
  Z.land attri 0xff00 = attri ->
  put_digit (Z.lor c attri) d = Z.lor (digit_char d) attri.
Proof.
  intros Hc Ha. unfold put_digit.
  rewrite Z.land_lor_distr_l, Hc, Ha. reflexivity.
Qed.

(** C10: [%d] with two or more [l]s and the argument [-2^63] writes ['-'],
    and then the digits of [2^63], the value that the negation yields in
    [unsigned long long]; for the plain directive that is
    ["-9223372036854775808"]. *)
Theorem case_d_most_negative (E : error_h)
  (pc : list Z -> va_list -> result (list Z)) (fmt : list Z) (pos : nat)
  (d : directive) (ap : va_list) (attri : Z) :
  2 <= lflag d ->
  INT_MIN + 65 <= width d <= INT_MAX ->
  to_ullong (to_llong (- to_llong (to_ullong (- 2 ^ 63)))) = 2 ^ 63 /\
  convert E pc (chr "d") fmt pos d (Alonglong (- 2 ^ 63) :: ap) attri =
  Done (Z.lor (chr "-") attri
          :: repeat (Z.lor (padc d) attri) (Z.to_nat (width d - 19))
          ++ map (put_digit (Z.lor (padc d) attri))
               [9; 2; 2; 3; 3; 7; 2; 0; 3; 6; 8; 5; 4; 7; 7; 5; 8; 0; 8],
        pos, ap, attri) /\
  vprintfmt E (cstring "%lld") [Alonglong (- 2 ^ 63)] =
  Done (bytes "-9223372036854775808").
Proof.
  intros Hl Hw. split; [reflexivity|]. split; [|reflexivity].
  unfold convert. eval_chr_eqb.
  unfold getint. replace (2 <=? lflag d) with true
    by (symmetry; apply Z.leb_le; exact Hl).
  cbn [bind]. unfold case_d.
  change (to_llong (to_ullong (to_llong (- 2 ^ 63))) <? 0) with true.
  cbv iota.
  change (to_ullong (- to_llong (to_ullong (to_llong (- 2 ^ 63)))))
    with (2 ^ 63).
  change (to_ullong (to_llong (- to_llong (to_ullong (to_llong (- 2 ^ 63))))))
    with (2 ^ 63).
  unfold number.
  rewrite printnum_closed_form by (unfold ULLONG_MAX; lia).
  reflexivity.
Qed.

Lemma case_d_most_negative_witness :
  convert jos_error_h (vprintfmt_rec 1 jos_error_h) (chr "d")
    (cstring "%lld") 4 (set_lflag init_directive 2)
    [Alonglong (- 2 ^ 63)] 0 =
  Done (bytes "-9223372036854775808", 4%nat, [], 0).
Proof.
  exact (proj1 (proj2 (case_d_most_negative jos_error_h
    (vprintfmt_rec 1 jos_error_h) (cstring "%lld") 4
    (set_lflag init_directive 2) [] 0
    ltac:(simpl; lia) ltac:(unfold INT_MIN, INT_MAX; simpl; lia)))).
Defined.

(** ** case 's' *)

Lemma to_schar_uchar (c : Z) :
  to_schar c = if to_uchar c <? 128 then to_uchar c else to_uchar c - 256.
Proof.
  unfold to_schar, to_uchar, to_signed, to_unsigned.
  change (2 ^ (8 - 1)) with 128. change (2 ^ 8) with 256.
  pose proof (Z.mod_pos_bound c 256 ltac:(lia)) as Hu.
  rewrite <- (Z.add_mod_idemp_l c 128 256) by lia.
  destruct (c mod 256 <? 128) eqn:Hlt.
  - apply Z.ltb_lt in Hlt. rewrite Z.mod_small by lia. lia.
  - apply Z.ltb_ge in Hlt.
    replace (c mod 256 + 128) with ((c mod 256 - 128) + 1 * 256) by lia.
    rewrite Z.mod_add by lia. rewrite Z.mod_small by lia. lia.
Qed.

Lemma to_uchar_range (c : Z) : 0 <= to_uchar c < 256.
Proof. unfold to_uchar, to_unsigned. apply Z.mod_pos_bound. reflexivity. Qed.

Lemma s_char_shown (c altflag attri : Z) :
  s_char (to_schar c) altflag attri = s_shown c altflag attri.
Proof.
  unfold s_char, s_shown. rewrite to_schar_uchar.
  pose proof (to_uchar_range c) as Hu.
  change (chr " ") with 32. change (chr "~") with 126.
  destruct (altflag =? 0); [reflexivity|]. cbn [negb andb].
  destruct (to_uchar c <? 128) eqn:H128.
  - apply Z.ltb_lt in H128.
    destruct (to_uchar c <? 32) eqn:H1, (126 <? to_uchar c) eqn:H2,
      (32 <=? to_uchar c) eqn:H3, (to_uchar c <=? 126) eqn:H4;
      try reflexivity; exfalso;
      repeat match goal with
        | H : (_ <? _) = true |- _ => apply Z.ltb_lt in H
        | H : (_ <? _) = false |- _ => apply Z.ltb_ge in H
        | H : (_ <=? _) = true |- _ => apply Z.leb_le in H
        | H : (_ <=? _) = false |- _ => apply Z.leb_gt in H
        end; lia.
  - apply Z.ltb_ge in H128.
    replace (to_uchar c - 256 <? 32) with true
      by (symmetry; apply Z.ltb_lt; lia).
    replace (to_uchar c <=? 126) with false
      by (symmetry; apply Z.leb_gt; lia).
    rewrite andb_false_r. reflexivity.
Qed.

Lemma strlen_c_chars (s : list Z) :
  strlen s = Z.of_nat (List.length (c_chars s)).
Proof.
  induction s as [|c s IH]; [reflexivity|].
  cbn [strlen c_chars]. destruct (to_schar c =? 0); [reflexivity|].
  cbn [List.length]. lia.
Qed.

Lemma fill_repeat (c : Z) :
  forall (fuel : nat) (w : Z),
    w <= INT_MAX ->
    (Z.to_nat w <= fuel)%nat ->
    fill fuel w c = Done (repeat c (Z.to_nat w), Z.min w 0).
Proof.
  induction fuel as [|fuel IH]; intros w Hw Hf.
  - cbn [fill]. destruct (0 <? w) eqn:Hp.
    + apply Z.ltb_lt in Hp. lia.
    + apply Z.ltb_ge in Hp. replace (Z.to_nat w) with 0%nat by lia.
      rewrite Z.min_l by lia. reflexivity.
  - cbn [fill]. destruct (0 <? w) eqn:Hp.
    + apply Z.ltb_lt in Hp.
      rewrite to_int_id by (unfold INT_MIN, INT_MAX in *; lia).
      rewrite IH by lia. cbn [bind].
      replace (Z.to_nat w) with (S (Z.to_nat (w - 1))) by lia.
      rewrite !Z.min_r by lia. reflexivity.
    + apply Z.ltb_ge in Hp. replace (Z.to_nat w) with 0%nat by lia.
      rewrite Z.min_l by lia. reflexivity.
Qed.

Lemma s_chars_closed_form (altflag attri : Z) :
  forall (s : list Z) (w prec : Z),
    INT_MIN <= prec <= INT_MAX ->
    INT_MIN + Z.of_nat (List.length (c_chars s)) <= w <= INT_MAX ->
    s_chars s w prec altflag attri =
    (map (fun c => s_shown c altflag attri) (s_kept (Some s) prec),
     w - Z.of_nat (List.length (s_kept (Some s) prec))).
Proof.
  unfold s_kept, s_string.
  induction s as [|c s IH]; intros w prec Hp Hw.
  - cbn [s_chars c_chars]. rewrite firstn_nil.
    destruct (prec <? 0); cbn; f_equal; lia.
  - cbn [s_chars c_chars] in *. destruct (to_schar c =? 0) eqn:Hz.
    + rewrite firstn_nil. destruct (prec <? 0); cbn; f_equal; lia.
    + cbn [List.length] in Hw.
      destruct (prec <? 0) eqn:Hneg.
      * rewrite to_int_id by (unfold INT_MIN, INT_MAX in *; lia).
        rewrite IH by (unfold INT_MIN, INT_MAX in *; lia).
        rewrite Hneg. cbn [map List.length]. rewrite s_char_shown.
        f_equal. lia.
      * apply Z.ltb_ge in Hneg.
        rewrite (to_int_id (prec - 1))
          by (unfold INT_MIN, INT_MAX in *; lia).
        destruct (0 <=? prec - 1) eqn:Hle.
        -- apply Z.leb_le in Hle.
           rewrite to_int_id by (unfold INT_MIN, INT_MAX in *; lia).
           rewrite IH by (unfold INT_MIN, INT_MAX in *; lia).
           replace (prec - 1 <? 0) with false
             by (symmetry; apply Z.ltb_ge; lia).
           replace (Z.to_nat prec) with (S (Z.to_nat (prec - 1))) by lia.
           cbn [firstn map List.length]. rewrite s_char_shown.
           f_equal. lia.
        -- apply Z.leb_gt in Hle.
           replace (Z.to_nat prec) with 0%nat by lia.
           cbn. f_equal. lia.
Qed.

Lemma s_kept_length (p : option (list Z)) (prec : Z) :
  Z.of_nat (List.length (s_kept p prec)) =
  if prec <? 0 then Z.of_nat (List.length (s_string p))
  else Z.min (Z.of_nat (List.length (s_string p))) prec.
Proof.
  unfold s_kept. destruct (prec <? 0) eqn:Hneg; [reflexivity|].
  apply Z.ltb_ge in Hneg. rewrite length_firstn. lia.
Qed.

Lemma strnlen_kept (s : list Z) (prec : Z) :
  INT_MIN <= prec <= INT_MAX ->
  Z.of_nat (List.length (c_chars s)) <= INT_MAX ->
  strnlen s (to_unsigned size_t_bits prec) =
  Z.of_nat (List.length (s_kept (Some s) prec)).
Proof.
  intros Hp Hl. rewrite s_kept_length. unfold strnlen, s_string.
  rewrite strlen_c_chars. unfold to_unsigned, size_t_bits.
  unfold INT_MIN, INT_MAX in *.
  change (2 ^ 31) with 2147483648 in *. change (2 ^ 32) with 4294967296.
  destruct (prec <? 0) eqn:Hneg.
  - apply Z.ltb_lt in Hneg.
    replace prec with ((prec + 4294967296) + (-1) * 4294967296) by lia.
    rewrite Z.mod_add by lia. rewrite Z.mod_small by lia. lia.
  - apply Z.ltb_ge in Hneg. rewrite Z.mod_small by lia. reflexivity.
Qed.

Lemma case_s_some (s : list Z) (d : directive) (attri : Z) :
  INT_MIN <= precision d <= INT_MAX ->
  Z.of_nat (List.length (c_chars s)) <= INT_MAX ->
  INT_MIN + 2 * Z.of_nat (List.length (c_chars s)) <= width d <= INT_MAX ->
  case_s (Some s) d attri = Done (s_output (Some s) d attri).
Proof.
  intros Hp Hl Hw. unfold case_s, s_output, s_left, s_right.
  rewrite strnlen_kept by assumption.
  pose proof (s_kept_length (Some s) (precision d)) as Hn.
  cbn [s_string] in Hn.
  set (n := Z.of_nat (List.length (s_kept (Some s) (precision d)))) in *.
  assert (Hn0 : 0 <= n <= Z.of_nat (List.length (c_chars s))).
  { destruct (precision d <? 0); lia. }
  destruct ((0 <? width d) && negb (padc d =? chr "-")) eqn:Hc.
  - apply andb_prop in Hc. destruct Hc as [Hpos _]. apply Z.ltb_lt in Hpos.
    rewrite to_int_id by (unfold INT_MIN, INT_MAX in *; lia).
    rewrite fill_repeat by lia. cbn [bind].
    rewrite s_chars_closed_form by (unfold INT_MIN, INT_MAX in *; lia).
    fold n.
    rewrite fill_repeat by (unfold INT_MIN, INT_MAX in *; lia).
    cbn [bind].
    replace (Z.to_nat (Z.min (width d - n) 0 - n)) with 0%nat by lia.
    reflexivity.
  - cbn [bind]. rewrite s_chars_closed_form by assumption || lia.
    fold n.
    rewrite fill_repeat by (unfold INT_MIN, INT_MAX in *; lia).
    reflexivity.
Qed.



Example s_null : forall E : error_h,
  vprintfmt E (cstring "%s") [Astr None] = Done (bytes "(null)").
Proof. reflexivity. Qed.

Example s_left_justified : forall E : error_h,
  vprintfmt E (cstring "[%-5s]") [Astr (Some (bytes "ab"))] =
  Done (bytes "[ab   ]").
Proof. reflexivity. Qed.

Example s_zero_padded : forall E : error_h,
  vprintfmt E (cstring "[%05s]") [Astr (Some (bytes "ab"))] =
  Done (bytes "[000ab]").
Proof. reflexivity. Qed.

(** ** The bounded buffer *)

Lemma store_app (done rest : list Z) (r v : Z) :
  store (done ++ r :: rest) (List.length done) v = Some (done ++ v :: rest).
Proof.
  induction done as [|x done IH]; [reflexivity|].
  cbn [app List.length store]. rewrite IH. reflexivity.
Qed.

Lemma sprintputch_step (ch : Z) (b : sprintbuf) (m : list Z)
  (b' : sprintbuf) (m' : list Z) :
  sprintputch ch (b, m) = Some (b', m') ->
  cnt b' = to_int (cnt b + 1) /\
  ebuf b' = ebuf b /\
  (if buf b <? ebuf b
   then buf b' = buf b + 1 /\ store_at m (buf b) (to_uchar ch) = Some m'
   else buf b' = buf b /\ m' = m).
Proof.
  unfold sprintputch. cbn [buf ebuf cnt].
  destruct (buf b <? ebuf b).
  - destruct (store_at m (buf b) (to_uchar ch)) as [m1|]; [|discriminate].
    intros H. injection H as <- <-. cbn. auto.
  - intros H. injection H as <- <-. cbn. auto.
Qed.

Lemma run_sink_sprintputch :
  forall (out done rest : list Z) (e c : Z),
    Z.of_nat (List.length done) <= e
      < Z.of_nat (List.length done) + Z.of_nat (List.length rest) ->
    0 <= c ->
    c + Z.of_nat (List.length out) <= INT_MAX ->
    let k := Z.to_nat (Z.min (Z.of_nat (List.length out))
                             (e - Z.of_nat (List.length done))) in
    run_sink sprintputch out
      ({| buf := Z.of_nat (List.length done); ebuf := e; cnt := c |},
       done ++ rest) =
    Some ({| buf := Z.of_nat (List.length done) + Z.of_nat k; ebuf := e;
             cnt := c + Z.of_nat (List.length out) |},
          done ++ map to_uchar (firstn k out) ++ skipn k rest).
Proof.
  induction out as [|ch out IH]; intros done rest e c He Hc Hn k.
  - subst k. cbn [List.length run_sink]. rewrite Z.min_l by lia.
    cbn [Z.to_nat Z.of_nat firstn skipn map app].
    f_equal. f_equal. f_equal; lia.
  - cbn [run_sink sprintputch buf ebuf cnt]. cbn [List.length] in Hn, k.
    rewrite to_int_id by (unfold INT_MIN, INT_MAX in *; lia).
    destruct (Z.of_nat (List.length done) <? e) eqn:Hlt.
    + apply Z.ltb_lt in Hlt.
      destruct rest as [|r rest]; [cbn [List.length] in He; lia|].
      unfold store_at.
      replace (Z.of_nat (List.length done) <? 0) with false
        by (symmetry; apply Z.ltb_ge; lia).
      rewrite Nat2Z.id, store_app.
      replace (done ++ to_uchar ch :: rest)
        with ((done ++ [to_uchar ch]) ++ rest)
        by (rewrite <- app_assoc; reflexivity).
      replace (Z.of_nat (List.length done) + 1)
        with (Z.of_nat (List.length (done ++ [to_uchar ch])))
        by (rewrite length_app; cbn [List.length]; lia).
      rewrite IH.
      * assert (Hk : k = S (Z.to_nat
                  (Z.min (Z.of_nat (List.length out))
                     (e - Z.of_nat (List.length (done ++ [to_uchar ch])))))).
        { subst k. rewrite length_app. cbn [List.length]. lia. }
        rewrite Hk. cbn [firstn skipn map].
        rewrite <- app_assoc. cbn [app].
        f_equal. f_equal.
        f_equal; rewrite ?length_app; cbn [List.length]; lia.
      * rewrite length_app. cbn [List.length] in *. lia.
      * lia.
      * lia.
    + apply Z.ltb_ge in Hlt.
      rewrite IH by lia.
      assert (Hk : k = 0%nat) by (subst k; lia).
      rewrite Hk. replace (e - Z.of_nat (List.length done)) with 0 by lia.
      rewrite Z.min_r by lia. cbn [Z.to_nat firstn skipn map app].
      f_equal. f_equal. f_equal; cbn [List.length]; lia.
Qed.

Lemma vsnprintf_returns (E : error_h) (mem : list Z) (n : Z) (fmt : list Z)
  (ap : va_list) (out : list Z) :
  1 <= n <= Z.of_nat (List.length mem) ->
  vprintfmt E fmt ap = Done out ->
  Z.of_nat (List.length out) <= INT_MAX ->
  let k := Z.to_nat (Z.min (Z.of_nat (List.length out)) (n - 1)) in
  vsnprintf E (Some mem) n fmt ap =
  Returns (Z.of_nat (List.length out))
    (Some (map to_uchar (firstn k out) ++ 0 :: skipn (S k) mem)).
Proof.
  intros Hn Hout Hlen k. unfold vsnprintf.
  replace (n <? 1) with false by (symmetry; apply Z.ltb_ge; lia).
  rewrite Hout.
  pose proof (run_sink_sprintputch out [] mem (n - 1) 0) as Hrun.
  cbn [List.length app] in Hrun. change (Z.of_nat 0) with 0 in Hrun.
  rewrite Z.sub_0_r in Hrun. fold k in Hrun.
  replace (0 + n - 1) with (n - 1) by lia.
  rewrite Hrun by lia. cbn [buf cnt].
  assert (Hk : (k < List.length mem)%nat) by (subst k; lia).
  unfold store_at.
  replace (0 + Z.of_nat k <? 0) with false by (symmetry; apply Z.ltb_ge; lia).
  replace (Z.to_nat (0 + Z.of_nat k))
    with (List.length (map to_uchar (firstn k out)))
    by (rewrite length_map, length_firstn; subst k; lia).
  destruct (skipn k mem) as [|r rest] eqn:Hsk.
  - apply (f_equal (@List.length Z)) in Hsk. rewrite length_skipn in Hsk.
    cbn in Hsk. lia.
  - rewrite store_app.
    replace (skipn (S k) mem) with rest; [reflexivity|].
    change (S k) with (1 + k)%nat. rewrite <- skipn_skipn, Hsk.
    reflexivity.
Qed.

(** C5: for a buffer that is not null and a capacity [n] from 1 that the
    array has, [sprintputch] counts every character, stores its low byte and
    moves the cursor only while the cursor is before [buf + n - 1], and
    [vsnprintf] then writes one zero byte at the cursor and returns the
    count, which is the length of what the format produces: the array
    holds the first [min (length out) (n - 1)] characters, the zero byte, and
    what it held before after that.  ["%d"] with 12345 into three bytes
    returns 5 and leaves ['1'], ['2'] and the zero byte. *)
Theorem vsnprintf_bounded (E : error_h) (mem : list Z) (n : Z)
  (fmt : list Z) (ap : va_list) (out : list Z) :
  1 <= n <= Z.of_nat (List.length mem) ->
  vprintfmt E fmt ap = Done out ->
  Z.of_nat (List.length out) <= INT_MAX ->
  vsnprintf E (Some mem) n fmt ap =
  Returns (Z.of_nat (List.length out))
    (Some (map to_uchar
             (firstn (Z.to_nat (Z.min (Z.of_nat (List.length out)) (n - 1)))
                out)
           ++ 0 :: skipn
                     (S (Z.to_nat
                           (Z.min (Z.of_nat (List.length out)) (n - 1))))
                     mem)) /\
  (forall (ch : Z) (b : sprintbuf) (m : list Z) (b' : sprintbuf)
     (m' : list Z),
     sprintputch ch (b, m) = Some (b', m') ->
     cnt b' = to_int (cnt b + 1) /\
     ebuf b' = ebuf b /\
     (if buf b <? ebuf b
      then buf b' = buf b + 1 /\ store_at m (buf b) (to_uchar ch) = Some m'
      else buf b' = buf b /\ m' = m)) /\
  (forall x y z : Z,
     vsnprintf E (Some [x; y; z]) 3 (cstring "%d") [Aint 12345] =
     Returns 5 (Some [chr "1"; chr "2"; 0])).
Proof.
  intros Hn Hout Hlen. split; [|split].
  - apply vsnprintf_returns; assumption.
  - intros ch b m b' m'. apply sprintputch_step.
  - reflexivity.
Qed.

Lemma vsnprintf_bounded_witness :
  vsnprintf jos_error_h (Some [7; 7; 7; 7; 7; 7; 7]) 6 (cstring "%5d")
    [Aint 42] =
  Returns 5 (Some (bytes "   42" ++ [0; 7])).
Proof.
  exact (proj1 (vsnprintf_bounded jos_error_h [7; 7; 7; 7; 7; 7; 7] 6
    (cstring "%5d") [Aint 42] (bytes "   42")
    ltac:(simpl; lia) ltac:(reflexivity)
    ltac:(unfold INT_MAX; simpl; lia))).
Defined.

Lemma vsnprintf_invalid (E : error_h) (buffer : option (list Z)) (n : Z)
  (fmt : list Z) (ap : va_list) :
  0 < E_INVAL E <= INT_MAX ->
  buffer = None \/ n < 1 ->
  vsnprintf E buffer n fmt ap = Returns (- E_INVAL E) buffer.
Proof.
  intros HE Hbad. unfold vsnprintf.
  rewrite to_int_id by (unfold INT_MIN, INT_MAX in *; lia).
  destruct buffer as [mem|]; [|reflexivity].
  destruct Hbad as [Hnull | Hn]; [discriminate|].
  replace (n <? 1) with true by (symmetry; apply Z.ltb_lt; lia).
  reflexivity.
Qed.

(** C8: [vsnprintf] returns [-E_INVAL], a negative number, when the buffer
    is null or the capacity is less than 1, whatever the format and the
    arguments are, and the array is as it was; for every other call in which
    the array has the capacity and the format produces an output (of a
    length within [int]) it returns the length of that output, which is not
    negative: a negative number is returned exactly in the first case. *)
Theorem vsnprintf_invalid_argument (E : error_h) (buffer : option (list Z))
  (n : Z) (fmt : list Z) (ap : va_list) :
  0 < E_INVAL E <= INT_MAX ->
  (buffer = None \/ n < 1 ->
   vsnprintf E buffer n fmt ap = Returns (- E_INVAL E) buffer /\
   - E_INVAL E < 0) /\
  (forall mem out : list Z,
     buffer = Some mem ->
     1 <= n <= Z.of_nat (List.length mem) ->
     vprintfmt E fmt ap = Done out ->
     Z.of_nat (List.length out) <= INT_MAX ->
     exists mem' : list Z,
       vsnprintf E buffer n fmt ap =
       Returns (Z.of_nat (List.length out)) (Some mem') /\
       0 <= Z.of_nat (List.length out)) /\
  (forall out : list Z,
     (forall mem : list Z,
        buffer = Some mem -> n <= Z.of_nat (List.length mem)) ->
     vprintfmt E fmt ap = Done out ->
     Z.of_nat (List.length out) <= INT_MAX ->
     ((exists (rc : Z) (m : option (list Z)),
         vsnprintf E buffer n fmt ap = Returns rc m /\ rc < 0) <->
      (buffer = None \/ n < 1))).
Proof.
  intros HE.
  assert (H2 : forall mem out : list Z,
     buffer = Some mem ->
     1 <= n <= Z.of_nat (List.length mem) ->
     vprintfmt E fmt ap = Done out ->
     Z.of_nat (List.length out) <= INT_MAX ->
     exists mem' : list Z,
       vsnprintf E buffer n fmt ap =
       Returns (Z.of_nat (List.length out)) (Some mem') /\
       0 <= Z.of_nat (List.length out)).
  { intros mem out -> Hn Hout Hlen. eexists. split; [|lia].
    apply vsnprintf_returns; assumption. }
  split; [|split].
  - intros Hbad. split; [apply vsnprintf_invalid; assumption | lia].
  - exact H2.
  - intros out Hfit Hout Hlen. split.
    + intros (rc & m & Hret & Hneg).
      destruct buffer as [mem|]; [|left; reflexivity].
      destruct (Z_lt_ge_dec n 1) as [Hn | Hn]; [right; exact Hn|].
      exfalso.
      destruct (H2 mem out eq_refl) as (mem' & Hret' & Hpos);
        [specialize (Hfit mem eq_refl); lia | assumption | assumption |].
      rewrite Hret' in Hret. injection Hret as Hrc _. lia.
    + intros Hbad. exists (- E_INVAL E), buffer.
      split; [apply vsnprintf_invalid; assumption | lia].
Qed.

Lemma vsnprintf_invalid_argument_witness :
  vsnprintf jos_error_h (Some [7; 7; 7]) 0 (cstring "%d") [Aint 12345] =
  Returns (- 3) (Some [7; 7; 7]) /\ - 3 < 0.
Proof.
  exact (proj1 (vsnprintf_invalid_argument jos_error_h (Some [7; 7; 7]) 0
    (cstring "%d") [Aint 12345]
    ltac:(unfold INT_MAX; simpl; lia)) ltac:(right; lia)).
Defined.

Example vsnprintf_null :
  vsnprintf jos_error_h None 16 (cstring "%d") [Aint 12345] =
  Returns (- 3) None.
Proof. reflexivity. Qed.

(** ** The loop of vprintfmt *)

Lemma vprintfmt_loop_step (E : error_h)
  (pc : list Z -> va_list -> result (list Z)) (fuel : nat) (fmt : list Z)
  (pos : nat) (ap : va_list) (attri : Z)
  (out1 : list Z) (p1 : nat) (ch : Z) (p2 : nat) (d : directive)
  (ap2 : va_list) (out2 : list Z) (p3 : nat) (ap3 : va_list) (attri3 : Z) :
  literal (S (List.length fmt)) fmt pos attri = Done (out1, Some p1) ->
  reswitch (S (List.length fmt)) fmt p1 init_directive ap =
    Done (ch, p2, d, ap2) ->
  convert E pc ch fmt p2 d ap2 attri = Done (out2, p3, ap3, attri3) ->
  vprintfmt_loop E pc (S fuel) fmt pos ap attri =
  out3 <- vprintfmt_loop E pc fuel fmt p3 ap3 attri3 ;;
  Done (out1 ++ out2 ++ out3).
Proof.
  intros Hl Hr Hc. cbn [vprintfmt_loop]. rewrite Hl. cbn [bind].
  rewrite Hr. cbn [bind]. rewrite Hc. reflexivity.
Qed.

Lemma vprintfmt_loop_end (E : error_h)
  (pc : list Z -> va_list -> result (list Z)) (fuel : nat) (fmt : list Z)
  (pos : nat) (ap : va_list) (attri : Z) (out1 : list Z) :
  literal (S (List.length fmt)) fmt pos attri = Done (out1, None) ->
  vprintfmt_loop E pc (S fuel) fmt pos ap attri = Done out1.
Proof. intros Hl. cbn [vprintfmt_loop]. rewrite Hl. reflexivity. Qed.

(** ** case 'e' *)

Lemma to_llong_id (z : Z) : - 2 ^ 63 <= z < 2 ^ 63 -> to_llong z = z.
Proof.
  unfold to_llong, to_signed. intros H.
  change (2 ^ (64 - 1)) with (2 ^ 63).
  change (2 ^ 64) with (2 * 2 ^ 63).
  rewrite Z.mod_small by lia. lia.
Qed.

Lemma put_digit_plain (c d : Z) :
  Z.land c 0xff00 = 0 -> put_digit c d = digit_char d.
Proof. intros Hc. unfold put_digit. rewrite Hc. apply Z.lor_0_r. Qed.

(** [printfmt(putch, putdat, "error %d", err)] for an [err] that is not
    negative. *)
Lemma printfmt_error_d (E : error_h) (depth : nat) (a : Z) :
  0 <= a <= INT_MAX ->
  vprintfmt_rec (S depth) E (cstring "error %d") [Aint a] =
  Done (bytes "error " ++ map digit_char (digits 10 a)).
Proof.
  intros Ha. cbn [vprintfmt_rec].
  change (S (List.length (cstring "error %d")))
    with (S (S (List.length (bytes "error %d")))).
  assert (Hconv :
    convert E (vprintfmt_rec depth E) (chr "d") (cstring "error %d") 8
      init_directive [Aint a] 0 =
    Done (map digit_char (digits 10 a), 8%nat, [], 0)).
  { unfold convert. eval_chr_eqb. unfold getint.
    cbn [lflag init_directive].
    change (2 <=? 0) with false. change (negb (0 =? 0)) with false.
    cbv iota. cbn [bind].
    rewrite to_int_id by (unfold INT_MIN, INT_MAX in *; lia).
    rewrite to_llong_id by (unfold INT_MAX in *; lia).
    unfold case_d.
    rewrite to_ullong_id by (unfold INT_MAX, ULLONG_MAX in *; lia).
    rewrite to_llong_id by (unfold INT_MAX in *; lia).
    replace (a <? 0) with false by (symmetry; apply Z.ltb_ge; lia).
    unfold number. cbn [width padc init_directive].
    rewrite printnum_closed_form
      by (unfold INT_MIN, INT_MAX, ULLONG_MAX in *; lia).
    pose proof (digitCount_pos 10 a).
    replace (Z.to_nat (-1 - digitCount a 10)) with 0%nat by lia.
    cbn [repeat app bind].
    erewrite map_ext; [reflexivity|].
    intros d. apply put_digit_plain. reflexivity. }
  erewrite vprintfmt_loop_step; [| reflexivity | reflexivity | exact Hconv].
  erewrite vprintfmt_loop_end; [| reflexivity].
  cbn [bind]. rewrite app_nil_r. reflexivity.
Qed.

Lemma error_string_entry (E : error_h) (i : Z) (s : list Z) :
  error_string E i = Done (Some s) ->
  s = bytes "segmentation fault" \/ s = bytes "out of environments" \/
  s = bytes "out of memory" \/ s = bytes "invalid parameter" \/
  s = bytes "bad environment" \/ s = bytes "unspecified error".
Proof.
  unfold error_string.
  destruct ((0 <=? i) && (i <? MAXERROR E)); [|discriminate].
  repeat match goal with
    | |- context [if ?c then _ else _] => destruct c
    end; intros H; inversion H; subst; tauto.
Qed.

(** [printfmt(putch, putdat, "%s", p)] for an element [p] of the table *)
Lemma printfmt_entry (E : error_h) (depth : nat) (i : Z) (s : list Z) :
  error_string E i = Done (Some s) ->
  vprintfmt_rec (S depth) E (cstring "%s") [Astr (Some s)] = Done s.
Proof.
  intros Hs. apply error_string_entry in Hs.
  repeat (destruct Hs as [-> | Hs]; [reflexivity|]). subst s. reflexivity.
Qed.

Lemma case_e_output (E : error_h) (e : Z) :
  INT_MIN < e <= INT_MAX ->
  case_e E (vprintfmt_rec 1 E) e = Done (e_output E e).
Proof.
  intros He. unfold case_e, e_output.
  assert (Habs : (if e <? 0 then to_int (- e) else e) = Z.abs e).
  { destruct (e <? 0) eqn:Hneg.
    - apply Z.ltb_lt in Hneg.
      rewrite to_int_id by (unfold INT_MIN, INT_MAX in *; lia). lia.
    - apply Z.ltb_ge in Hneg. lia. }
  rewrite Habs.
  assert (Ha : 0 <= Z.abs e <= INT_MAX)
    by (unfold INT_MIN, INT_MAX in *; lia).
  destruct (MAXERROR E <=? Z.abs e) eqn:Hmax.
  - apply Z.leb_le in Hmax.
    replace (Z.abs e <? MAXERROR E) with false
      by (symmetry; apply Z.ltb_ge; lia).
    apply printfmt_error_d. exact Ha.
  - apply Z.leb_gt in Hmax.
    replace (Z.abs e <? MAXERROR E) with true
      by (symmetry; apply Z.ltb_lt; lia).
    destruct (error_string E (Z.abs e)) as [[s|]|f] eqn:Hs; cbn [bind].
    + eapply printfmt_entry. exact Hs.
    + apply printfmt_error_d. exact Ha.
    + exfalso. unfold error_string in Hs.
      replace (0 <=? Z.abs e) with true in Hs
        by (symmetry; apply Z.leb_le; lia).
      replace (Z.abs e <? MAXERROR E) with true in Hs
        by (symmetry; apply Z.ltb_lt; lia).
      discriminate.
Qed.

(** C7: [%e] with an error code [e] whose negation is in [int] takes the
    absolute value of [e]; if that is less than MAXERROR and the table has a
    string there, it writes that string, and ["error N"] with the absolute
    value for N otherwise; [e] and [-e] are written alike.  The width, the
    flags and the attribute of the directive do not count. *)
Theorem case_e_renders (E : error_h) (fmt : list Z) (pos : nat)
  (d : directive) (ap : va_list) (attri e : Z) :
  INT_MIN < e <= INT_MAX ->
  convert E (vprintfmt_rec 1 E) (chr "e") fmt pos d (Aint e :: ap) attri =
    Done (e_output E e, pos, ap, attri) /\
  vprintfmt E (cstring "%e") [Aint e] = Done (e_output E e) /\
  e_output E (- e) = e_output E e /\
  (forall s : list Z,
     Z.abs e < MAXERROR E ->
     error_string E (Z.abs e) = Done (Some s) ->
     e_output E e = s) /\
  (MAXERROR E <= Z.abs e \/ error_string E (Z.abs e) = Done None ->
   e_output E e = bytes "error " ++ map digit_char (digits 10 (Z.abs e))).
Proof.
  intros He.
  assert (Hconv : forall (fmt : list Z) (pos : nat) (d : directive)
            (ap : va_list) (attri : Z),
    convert E (vprintfmt_rec 1 E) (chr "e") fmt pos d (Aint e :: ap) attri =
    Done (e_output E e, pos, ap, attri)).
  { intros fmt0 pos0 d0 ap0 attri0. unfold convert. eval_chr_eqb.
    cbn [va_arg_int bind].
    rewrite to_int_id by (unfold INT_MIN, INT_MAX in *; lia).
    rewrite case_e_output by exact He. reflexivity. }
  split; [apply Hconv|]. split; [|split; [|split]].
  - unfold vprintfmt. cbn [vprintfmt_rec].
    change (S (List.length (cstring "%e"))) with 4%nat.
    erewrite vprintfmt_loop_step;
      [| reflexivity | reflexivity | apply Hconv].
    erewrite vprintfmt_loop_end; [| reflexivity].
    cbn [bind app]. rewrite app_nil_r. reflexivity.
  - unfold e_output. rewrite Z.abs_opp. reflexivity.
  - intros s Hlt Hs. unfold e_output.
    replace (Z.abs e <? MAXERROR E) with true
      by (symmetry; apply Z.ltb_lt; lia).
    rewrite Hs. reflexivity.
  - intros [Hmax | Hs]; unfold e_output.
    + replace (Z.abs e <? MAXERROR E) with false
        by (symmetry; apply Z.ltb_ge; lia).
      reflexivity.
    + rewrite Hs. destruct (Z.abs e <? MAXERROR E); reflexivity.
Qed.

Lemma case_e_renders_witness :
  vprintfmt jos_error_h (cstring "%e") [Aint (- 3)] =
    Done (bytes "invalid parameter") /\
  e_output jos_error_h (- - 3) = bytes "invalid parameter".
Proof.
  pose proof (case_e_renders jos_error_h (cstring "%e") 2 init_directive []
    0 (- 3) ltac:(unfold INT_MIN, INT_MAX; simpl; lia)) as H.
  split; [exact (proj1 (proj2 H)) | exact (proj1 (proj2 (proj2 H)))].
Defined.

Example e_code_3 :
  vprintfmt jos_error_h (cstring "%e") [Aint 3] =
  Done (bytes "invalid parameter").
Proof. reflexivity. Qed.

Example e_code_999 :
  vprintfmt jos_error_h (cstring "%e") [Aint 999] = Done (bytes "error 999").
Proof. reflexivity. Qed.

Example e_code_0 :
  vprintfmt jos_error_h (cstring "%e") [Aint 0] = Done (bytes "error 0").
Proof. reflexivity. Qed.

(** ** The modifiers of a directive *)

Lemma nth_error_middle (pre rest : list Z) (b : Z) :
  nth_error (pre ++ b :: rest) (List.length pre) = Some b.
Proof. induction pre as [|x pre IH]; [reflexivity | exact IH]. Qed.

Lemma to_uchar_id (b : Z) : 0 <= b < 256 -> to_uchar b = b.
Proof. intros H. apply Z.mod_small. exact H. Qed.

Lemma to_schar_id (b : Z) : 0 <= b < 128 -> to_schar b = b.
Proof.
  intros H. rewrite to_schar_uchar, to_uchar_id by lia.
  replace (b <? 128) with true by (symmetry; apply Z.ltb_lt; lia).
  reflexivity.
Qed.

Lemma read_uchar_middle (pre rest : list Z) (b : Z) :
  0 <= b < 256 -> read_uchar (pre ++ b :: rest) (List.length pre) = Done b.
Proof.
  intros H. unfold read_uchar. rewrite nth_error_middle, to_uchar_id by lia.
  reflexivity.
Qed.

Lemma read_char_middle (pre rest : list Z) (b : Z) :
  0 <= b < 128 -> read_char (pre ++ b :: rest) (List.length pre) = Done b.
Proof.
  intros H. unfold read_char. rewrite nth_error_middle, to_schar_id by lia.
  reflexivity.
Qed.

Lemma decimal_from_mono (cs : list Z) :
  forall acc : Z, Forall is_digit cs -> 0 <= acc -> acc <= decimal_from acc cs.
Proof.
  unfold decimal_from, is_digit. change (chr "0") with 48.
  change (chr "9") with 57.
  induction cs as [|c cs IH]; intros acc Hd Ha; [simpl; lia|].
  inversion Hd as [|? ? Hc Hcs]; subst. cbn [fold_left].
  specialize (IH (acc * 10 + (c - 48)) Hcs). lia.
Qed.

Lemma digit_run_decimal :
  forall (ds : list Z) (fuel : nat) (fmt pre rest : list Z) (prec ch c : Z),
    fmt = pre ++ ds ++ c :: rest ->
    is_digit ch ->
    Forall is_digit ds ->
    ~ is_digit (to_schar c) ->
    (List.length ds <= fuel)%nat ->
    0 <= prec ->
    decimal_from prec (ch :: ds) <= INT_MAX ->
    digit_run fuel fmt (List.length pre) prec ch =
    Done (decimal_from prec (ch :: ds),
          (List.length pre + List.length ds)%nat).
Proof.
  unfold is_digit. change (chr "0") with 48. change (chr "9") with 57.
  induction ds as [|x ds IH];
    intros fuel fmt pre rest prec ch c Hfmt Hch Hds Hc Hfuel Hprec Hmax.
  - cbn [app] in Hfmt. subst fmt.
    assert (Hval : decimal_from prec [ch] = prec * 10 + ch - 48).
    { unfold decimal_from. cbn [fold_left]. change (chr "0") with 48. lia. }
    rewrite Hval in *. cbn [List.length]. rewrite Nat.add_0_r.
    assert (Hrun : forall f : nat,
      digit_run (S f) (pre ++ c :: rest) (List.length pre) prec ch =
      digit_run 0 (pre ++ c :: rest) (List.length pre) prec ch).
    { intros f. cbn [digit_run]. unfold read_char.
      rewrite nth_error_middle. cbn [bind].
      change (chr "0") with 48. change (chr "9") with 57.
      replace ((to_schar c <? 48) || (57 <? to_schar c)) with true
        by (symmetry; apply orb_true_iff; rewrite Z.ltb_lt, Z.ltb_lt; lia).
      reflexivity. }
    destruct fuel as [|f]; [|rewrite Hrun].
    all: cbn [digit_run]; unfold read_char; rewrite nth_error_middle;
      cbn [bind]; change (chr "0") with 48; change (chr "9") with 57;
      (replace ((to_schar c <? 48) || (57 <? to_schar c)) with true
        by (symmetry; apply orb_true_iff; rewrite Z.ltb_lt, Z.ltb_lt; lia));
      rewrite to_int_id by (unfold INT_MIN, INT_MAX in *; lia);
      reflexivity.
  - inversion Hds as [|? ? Hx Hxs]; subst x0 l.
    destruct fuel as [|fuel]; [cbn [List.length] in Hfuel; lia|].
    cbn [digit_run]. change (chr "0") with 48. change (chr "9") with 57.
    assert (Hstep : decimal_from prec (ch :: x :: ds) =
                    decimal_from (prec * 10 + ch - 48) (x :: ds)).
    { unfold decimal_from. cbn [fold_left]. change (chr "0") with 48.
      f_equal. lia. }
    pose proof (decimal_from_mono (x :: ds) (prec * 10 + ch - 48)) as Hmono.
    unfold is_digit in Hmono. change (chr "0") with 48 in Hmono.
    change (chr "9") with 57 in Hmono.
    specialize (Hmono Hds ltac:(lia)).
    rewrite to_int_id by (unfold INT_MIN, INT_MAX in *; lia).
    subst fmt. cbn [app]. rewrite read_char_middle by lia. cbn [bind].
    replace ((x <? 48) || (57 <? x)) with false
      by (symmetry; apply orb_false_iff; rewrite Z.ltb_ge, Z.ltb_ge; lia).
    replace (S (List.length pre)) with (List.length (pre ++ [x]))
      by (rewrite length_app; cbn [List.length]; lia).
    rewrite (IH fuel (pre ++ x :: ds ++ c :: rest) (pre ++ [x]) rest
               (prec * 10 + ch - 48) x c).
    + rewrite Hstep, length_app. cbn [List.length].
      f_equal. f_equal. lia.
    + rewrite <- app_assoc. reflexivity.
    + lia.
    + exact Hxs.
    + exact Hc.
    + cbn [List.length] in Hfuel. lia.
    + lia.
    + rewrite <- Hstep. exact Hmax.
Qed.

Lemma reswitch_S (fuel : nat) (fmt : list Z) (pos : nat) (d : directive)
  (ap : va_list) :
  reswitch (S fuel) fmt pos d ap =
  ch <- read_uchar fmt pos ;;
  if ch =? chr "-" then reswitch fuel fmt (S pos) (set_padc d (chr "-")) ap
  else if ch =? chr "0" then
    reswitch fuel fmt (S pos) (set_padc d (chr "0")) ap
  else if (chr "1" <=? ch) && (ch <=? chr "9") then
    '(prec, pos') <- digit_run fuel fmt (S pos) 0 ch ;;
    reswitch fuel fmt pos' (process_precision (set_precision d prec)) ap
  else if ch =? chr "*" then
    '(prec, ap') <- va_arg_int ap ;;
    reswitch fuel fmt (S pos) (process_precision (set_precision d prec)) ap'
  else if ch =? chr "." then reswitch fuel fmt (S pos) (case_dot d) ap
  else if ch =? chr "#" then reswitch fuel fmt (S pos) (set_altflag d 1) ap
  else if ch =? chr "l" then
    reswitch fuel fmt (S pos) (set_lflag d (to_int (lflag d + 1))) ap
  else Done (ch, S pos, d, ap).
Proof. reflexivity. Qed.

(** A run of digits that starts with a digit from 1 to 9. *)
Lemma reswitch_digits (fuel : nat) (pre ds rest : list Z) (c1 c : Z)
  (d : directive) (ap : va_list) :
  chr "1" <= c1 <= chr "9" ->
  Forall is_digit ds ->
  ~ is_digit (to_schar c) ->
  (List.length ds <= fuel)%nat ->
  decimal (c1 :: ds) <= INT_MAX ->
  reswitch (S fuel) (pre ++ c1 :: ds ++ c :: rest) (List.length pre) d ap =
  reswitch fuel (pre ++ c1 :: ds ++ c :: rest)
    (List.length pre + 1 + List.length ds)
    (process_precision (set_precision d (decimal (c1 :: ds)))) ap.
Proof.
  change (chr "1") with 49. change (chr "9") with 57.
  intros Hc1 Hds Hc Hfuel Hmax.
  rewrite reswitch_S, read_uchar_middle by lia. cbn [bind].
  change (chr "-") with 45. change (chr "0") with 48.
  change (chr "1") with 49. change (chr "9") with 57.
  replace (c1 =? 45) with false by (symmetry; apply Z.eqb_neq; lia).
  replace (c1 =? 48) with false by (symmetry; apply Z.eqb_neq; lia).
  replace ((49 <=? c1) && (c1 <=? 57)) with true
    by (symmetry; apply andb_true_iff; rewrite Z.leb_le, Z.leb_le; lia).
  replace (S (List.length pre)) with (List.length (pre ++ [c1]))
    by (rewrite length_app; cbn [List.length]; lia).
  rewrite (digit_run_decimal ds fuel (pre ++ c1 :: ds ++ c :: rest)
             (pre ++ [c1]) rest 0 c1 c).
  - cbn [bind]. rewrite length_app. cbn [List.length]. reflexivity.
  - rewrite <- app_assoc. reflexivity.
  - unfold is_digit. change (chr "0") with 48. change (chr "9") with 57. lia.
  - exact Hds.
  - exact Hc.
  - exact Hfuel.
  - lia.
  - exact Hmax.
Qed.

Lemma nth_error_app_offset (pre l : list Z) (k : nat) :
  nth_error (pre ++ l) (List.length pre + k) = nth_error l k.
Proof. induction pre as [|x pre IH]; [reflexivity | exact IH]. Qed.

(** Decides the closed conditions of the conditionals of a goal. *)
Ltac eval_if :=
  repeat match goal with
    | |- context [if ?c then _ else _] =>
        let v := eval vm_compute in c in
        match v with
        | true => change c with true
        | false => change c with false
        end; cbv iota
    end.

(** Reads the format [pre ++ bytes s ++ rest] at [length pre + k]. *)
Ltac read_fmt :=
  unfold read_uchar, read_char;
  rewrite <- ?Nat.add_succ_r;
  rewrite ?nth_error_app_offset;
  cbn [bytes app nth_error bind];
  repeat match goal with
    | |- context [to_uchar (chr ?a)] =>
        let v := eval vm_compute in (to_uchar (chr a)) in
        change (to_uchar (chr a)) with v
    | |- context [to_schar (chr ?a)] =>
        let v := eval vm_compute in (to_schar (chr a)) in
        change (to_schar (chr a)) with v
    end.

Ltac reswitch_step := rewrite reswitch_S; read_fmt; eval_if.
Ltac digit_run_step := cbn [digit_run]; read_fmt; eval_if; cbn [bind].

Lemma reswitch_star (fuel : nat) (pre rest : list Z) (d : directive)
  (v : Z) (ap : va_list) :
  reswitch (S fuel) (pre ++ chr "*" :: rest) (List.length pre) d
    (Aint v :: ap) =
  reswitch fuel (pre ++ chr "*" :: rest) (S (List.length pre))
    (process_precision (set_precision d (to_int v))) ap.
Proof.
  rewrite reswitch_S, read_uchar_middle by (vm_compute; split; congruence).
  cbn [bind]. eval_if. reflexivity.
Qed.

Lemma reswitch_dot (fuel : nat) (pre rest : list Z) (d : directive)
  (ap : va_list) :
  reswitch (S fuel) (pre ++ chr "." :: rest) (List.length pre) d ap =
  reswitch fuel (pre ++ chr "." :: rest) (S (List.length pre))
    (case_dot d) ap.
Proof.
  rewrite reswitch_S, read_uchar_middle by (vm_compute; split; congruence).
  cbn [bind]. eval_if. reflexivity.
Qed.

Lemma reswitch_5_2_s (fuel : nat) (pre rest : list Z) (ap : va_list) :
  reswitch (S (S (S (S fuel)))) (pre ++ bytes "%5.2s" ++ rest)
    (List.length pre + 1) init_directive ap =
  Done (chr "s", (List.length pre + 5)%nat,
        {| padc := chr " "; width := 5; precision := 2; lflag := 0;
           altflag := 0 |}, ap).
Proof.
  reswitch_step. digit_run_step.
  reswitch_step.
  reswitch_step. digit_run_step.
  reswitch_step. reflexivity.
Qed.

Lemma reswitch_dot_5_d (fuel : nat) (pre rest : list Z) (ap : va_list) :
  reswitch (S (S (S fuel))) (pre ++ bytes "%.5d" ++ rest)
    (List.length pre + 1) init_directive ap =
  Done (chr "d", (List.length pre + 4)%nat,
        {| padc := chr " "; width := 0; precision := 5; lflag := 0;
           altflag := 0 |}, ap).
Proof.
  reswitch_step.
  reswitch_step. digit_run_step.
  reswitch_step. reflexivity.
Qed.

(** C4, as amended: in the scan of the modifiers, the number of a run of
    digits, and likewise the [int] argument that ['*'] takes, goes to the
    width if the width is negative (the code tests [width < 0]: -1, the
    value at the start of a directive, or a negative argument of an earlier
    ['*']) and the precision becomes -1 then, and it goes to the precision
    otherwise; ['.'] makes the width 0 if the width is negative and changes
    nothing otherwise.  In every format string, [%5.2s] reaches its
    conversion with width 5 and precision 2, and [%.5d] with width 0 and
    precision 5. *)
Theorem directive_width_precision :
  (forall (d : directive) (v : Z),
     process_precision (set_precision d v) =
     if width d <? 0
     then {| padc := padc d; width := v; precision := -1;
             lflag := lflag d; altflag := altflag d |}
     else {| padc := padc d; width := width d; precision := v;
             lflag := lflag d; altflag := altflag d |}) /\
  (forall d : directive,
     case_dot d =
     if width d <? 0
     then {| padc := padc d; width := 0; precision := precision d;
             lflag := lflag d; altflag := altflag d |}
     else d) /\
  (forall (fuel : nat) (pre ds rest : list Z) (c1 c : Z) (d : directive)
     (ap : va_list),
     chr "1" <= c1 <= chr "9" ->
     Forall is_digit ds ->
     ~ is_digit (to_schar c) ->
     (List.length ds <= fuel)%nat ->
     decimal (c1 :: ds) <= INT_MAX ->
     reswitch (S fuel) (pre ++ c1 :: ds ++ c :: rest) (List.length pre) d ap =
     reswitch fuel (pre ++ c1 :: ds ++ c :: rest)
       (List.length pre + 1 + List.length ds)
       (process_precision (set_precision d (decimal (c1 :: ds)))) ap) /\
  (forall (fuel : nat) (pre rest : list Z) (d : directive) (v : Z)
     (ap : va_list),
     reswitch (S fuel) (pre ++ chr "*" :: rest) (List.length pre) d
       (Aint v :: ap) =
     reswitch fuel (pre ++ chr "*" :: rest) (S (List.length pre))
       (process_precision (set_precision d (to_int v))) ap) /\
  (forall (fuel : nat) (pre rest : list Z) (d : directive) (ap : va_list),
     reswitch (S fuel) (pre ++ chr "." :: rest) (List.length pre) d ap =
     reswitch fuel (pre ++ chr "." :: rest) (S (List.length pre))
       (case_dot d) ap) /\
  (forall (pre rest : list Z) (ap : va_list),
     reswitch (S (List.length (pre ++ bytes "%5.2s" ++ rest)))
       (pre ++ bytes "%5.2s" ++ rest) (List.length pre + 1)
       init_directive ap =
     Done (chr "s", (List.length pre + 5)%nat,
           {| padc := chr " "; width := 5; precision := 2; lflag := 0;
              altflag := 0 |}, ap)) /\
  (forall (pre rest : list Z) (ap : va_list),
     reswitch (S (List.length (pre ++ bytes "%.5d" ++ rest)))
       (pre ++ bytes "%.5d" ++ rest) (List.length pre + 1)
       init_directive ap =
     Done (chr "d", (List.length pre + 4)%nat,
           {| padc := chr " "; width := 0; precision := 5; lflag := 0;
              altflag := 0 |}, ap)).
Proof.
  split; [|split; [|split; [|split; [|split; [|split]]]]].
  - intros d v. unfold process_precision. cbn [width set_precision].
    destruct (width d <? 0); reflexivity.
  - intros d. unfold case_dot. destruct (width d <? 0); reflexivity.
  - intros. apply reswitch_digits; assumption.
  - intros. apply reswitch_star.
  - intros. apply reswitch_dot.
  - intros pre rest ap.
    replace (S (List.length (pre ++ bytes "%5.2s" ++ rest)))
      with (S (S (S (S (2 + List.length pre + List.length rest)))))
      by (rewrite !length_app; cbn [bytes List.length]; lia).
    apply reswitch_5_2_s.
  - intros pre rest ap.
    replace (S (List.length (pre ++ bytes "%.5d" ++ rest)))
      with (S (S (S (2 + List.length pre + List.length rest))))
      by (rewrite !length_app; cbn [bytes List.length]; lia).
    apply reswitch_dot_5_d.
Qed.

Lemma directive_width_precision_witness :
  reswitch 4 (bytes "%120s" ++ [0]) 1 init_directive [] =
  reswitch 3 (bytes "%120s" ++ [0]) 4
    (process_precision (set_precision init_directive 120)) [].
Proof.
  exact (proj1 (proj2 (proj2 directive_width_precision)) 3%nat
    (bytes "%") (bytes "20") [0] (chr "1") (chr "s") init_directive []
    ltac:(vm_compute; split; congruence)
    ltac:(repeat constructor; vm_compute; congruence)
    ltac:(vm_compute; intros [_ H]; apply H; reflexivity)
    ltac:(simpl; lia)
    ltac:(vm_compute; congruence)).
Defined.

(** C4, counterexample: ["%*5d"] with the arguments -2 and 42.  The ['*']
    takes -2 as the width, so that the width is set and is not -1 when the
    digit 5 is read.  The claim sends the 5 to the precision and keeps the
    width -2; the code tests [width < 0], sends the 5 to the width and
    writes the number in a field of five.  Likewise a ['.'] after that
    ['*'] makes the width 0, where the claim changes nothing. *)
Lemma directive_width_precision_counterexample :
  reswitch 2 (cstring "%*5d") 1 init_directive [Aint (- 2); Aint 42] =
    reswitch 1 (cstring "%*5d") 2
      {| padc := chr " "; width := - 2; precision := - 1; lflag := 0;
         altflag := 0 |} [Aint 42] /\
  process_precision_claimed
    (set_precision
       {| padc := chr " "; width := - 2; precision := - 1; lflag := 0;
          altflag := 0 |} 5) =
    {| padc := chr " "; width := - 2; precision := 5; lflag := 0;
       altflag := 0 |} /\
  process_precision
    (set_precision
       {| padc := chr " "; width := - 2; precision := - 1; lflag := 0;
          altflag := 0 |} 5) =
    {| padc := chr " "; width := 5; precision := - 1; lflag := 0;
       altflag := 0 |} /\
  reswitch 5 (cstring "%*5d") 1 init_directive [Aint (- 2); Aint 42] =
    Done (chr "d", 4%nat,
          {| padc := chr " "; width := 5; precision := - 1; lflag := 0;
             altflag := 0 |}, [Aint 42]) /\
  vprintfmt jos_error_h (cstring "[%*5d]") [Aint (- 2); Aint 42] =
    Done (bytes "[   42]") /\
  case_dot_claimed
    {| padc := chr " "; width := - 2; precision := - 1; lflag := 0;
       altflag := 0 |} =
    {| padc := chr " "; width := - 2; precision := - 1; lflag := 0;
       altflag := 0 |} /\
  case_dot
    {| padc := chr " "; width := - 2; precision := - 1; lflag := 0;
       altflag := 0 |} =
    {| padc := chr " "; width := 0; precision := - 1; lflag := 0;
       altflag := 0 |} /\
  reswitch 5 (cstring "%*.3s") 1 init_directive
    [Aint (- 2); Astr (Some (bytes "abcdef"))] =
    Done (chr "s", 5%nat,
          {| padc := chr " "; width := 0; precision := 3; lflag := 0;
             altflag := 0 |}, [Astr (Some (bytes "abcdef"))]) /\
  ~ (forall (d : directive) (v : Z),
       process_precision (set_precision d v) =
       process_precision_claimed (set_precision d v)) /\
  ~ (forall d : directive, case_dot d = case_dot_claimed d).
Proof.
  repeat (split; [reflexivity|]). split.
  - intros H.
    specialize (H {| padc := chr " "; width := - 2; precision := - 1;
                     lflag := 0; altflag := 0 |} 5).
    discriminate H.
  - intros H.
    specialize (H {| padc := chr " "; width := - 2; precision := - 1;
                     lflag := 0; altflag := 0 |}).
    discriminate H.
Qed.

Example width_precision_s : forall E : error_h,
  vprintfmt E (cstring "[%5.2s]") [Astr (Some (bytes "abcdef"))] =
  Done (bytes "[   ab]").
Proof. reflexivity. Qed.

Example dot_precision_d : forall E : error_h,
  vprintfmt E (cstring "[%.5d]") [Aint 42] = Done (bytes "[42]").
Proof. reflexivity. Qed.

Example star_width_then_precision : forall E : error_h,
  vprintfmt E (cstring "[%*.*s]") [Aint 4; Aint 1; Astr (Some (bytes "abc"))]
  = Done (bytes "[   a]").
Proof. reflexivity. Qed.

(** ** The default case *)

Lemma modifiers_between_cons (fmt : list Z) (i j : nat) (b : Z) :
  nth_error fmt i = Some b ->
  modifier (to_uchar b) = true ->
  modifiers_between fmt (S i) j ->
  modifiers_between fmt i j.
Proof.
  intros Hb Hm Hrest k Hk.
  destruct (Nat.eq_dec k i) as [-> | Hne].
  - exists b. split; assumption.
  - apply Hrest. lia.
Qed.

Lemma modifiers_between_trans (fmt : list Z) (i j k : nat) :
  modifiers_between fmt i j ->
  modifiers_between fmt j k ->
  modifiers_between fmt i k.
Proof.
  intros H1 H2 n Hn. destruct (Nat.lt_ge_cases n j).
  - apply H1. lia.
  - apply H2. lia.
Qed.

Lemma read_uchar_inv (fmt : list Z) (pos : nat) (c : Z) :
  read_uchar fmt pos = Done c ->
  exists b : Z, nth_error fmt pos = Some b /\ to_uchar b = c.
Proof.
  unfold read_uchar. destruct (nth_error fmt pos) as [b|]; [|discriminate].
  intros H. injection H as <-. exists b. split; reflexivity.
Qed.

Lemma read_char_inv (fmt : list Z) (pos : nat) (c : Z) :
  read_char fmt pos = Done c ->
  exists b : Z, nth_error fmt pos = Some b /\ to_schar b = c.
Proof.
  unfold read_char. destruct (nth_error fmt pos) as [b|]; [|discriminate].
  intros H. injection H as <-. exists b. split; reflexivity.
Qed.

Lemma digit_modifier (b : Z) :
  chr "0" <= to_schar b <= chr "9" -> modifier (to_uchar b) = true.
Proof.
  change (chr "0") with 48. change (chr "9") with 57.
  rewrite to_schar_uchar. pose proof (to_uchar_range b) as Hr.
  destruct (to_uchar b <? 128) eqn:Hlt; [|lia].
  intros H. unfold modifier.
  change (chr "0") with 48. change (chr "1") with 49.
  change (chr "9") with 57.
  destruct (to_uchar b =? 48) eqn:H0.
  - rewrite orb_true_r. reflexivity.
  - apply Z.eqb_neq in H0.
    replace ((49 <=? to_uchar b) && (to_uchar b <=? 57)) with true
      by (symmetry; apply andb_true_iff; rewrite !Z.leb_le; lia).
    rewrite !orb_true_r. reflexivity.
Qed.

Lemma digit_run_scan :
  forall (fuel : nat) (fmt : list Z) (pos : nat) (prec ch v : Z) (pos' : nat),
    digit_run fuel fmt pos prec ch = Done (v, pos') ->
    (pos <= pos')%nat /\ modifiers_between fmt pos pos'.
Proof.
  induction fuel as [|fuel IH]; intros fmt pos prec ch v pos' H;
    cbn [digit_run] in H;
    destruct (read_char fmt pos) as [c|] eqn:Hr; cbn [bind] in H;
    try discriminate;
    destruct ((c <? chr "0") || (chr "9" <? c)) eqn:Hnd;
    try discriminate.
  - injection H as _ <-. split; [lia|]. intros k Hk. lia.
  - injection H as _ <-. split; [lia|]. intros k Hk. lia.
  - apply IH in H. destruct H as [Hle Hm]. split; [lia|].
    apply read_char_inv in Hr. destruct Hr as (b & Hb & Hc).
    apply orb_false_iff in Hnd. destruct Hnd as [H1 H2].
    apply Z.ltb_ge in H1, H2.
    apply (modifiers_between_cons fmt pos pos' b Hb); [|exact Hm].
    apply digit_modifier. lia.
Qed.

Lemma reswitch_scan :
  forall (fuel : nat) (fmt : list Z) (pos : nat) (d : directive)
    (ap : va_list) (ch : Z) (pos2 : nat) (d2 : directive) (ap2 : va_list),
    reswitch fuel fmt pos d ap = Done (ch, pos2, d2, ap2) ->
    (pos < pos2)%nat /\
    read_uchar fmt (Nat.pred pos2) = Done ch /\
    modifier ch = false /\
    modifiers_between fmt pos (Nat.pred pos2).
Proof.
  induction fuel as [|fuel IH]; intros fmt pos d ap ch pos2 d2 ap2 H;
    [discriminate|].
  rewrite reswitch_S in H.
  destruct (read_uchar fmt pos) as [c|] eqn:Hr; cbn [bind] in H;
    [|discriminate].
  pose proof (read_uchar_inv _ _ _ Hr) as (b & Hb & Hc).
  assert (Hstep : forall (d' : directive) (ap' : va_list),
    modifier c = true ->
    reswitch fuel fmt (S pos) d' ap' = Done (ch, pos2, d2, ap2) ->
    (pos < pos2)%nat /\
    read_uchar fmt (Nat.pred pos2) = Done ch /\
    modifier ch = false /\
    modifiers_between fmt pos (Nat.pred pos2)).
  { intros d' ap' Hm Hrec. apply IH in Hrec.
    destruct Hrec as (Hlt & Hrd & Hnm & Hbetween).
    split; [lia|]. split; [exact Hrd|]. split; [exact Hnm|].
    apply (modifiers_between_cons fmt pos _ b Hb); [|exact Hbetween].
    rewrite Hc. exact Hm. }
  unfold modifier in Hstep.
  destruct (c =? chr "-") eqn:E1; [eapply Hstep; [reflexivity | exact H]|].
  destruct (c =? chr "0") eqn:E2; [eapply Hstep; [reflexivity | exact H]|].
  destruct ((chr "1" <=? c) && (c <=? chr "9")) eqn:E3.
  { destruct (digit_run fuel fmt (S pos) 0 c) as [[v pos']|] eqn:Hrun;
      cbn [bind] in H; [|discriminate].
    apply digit_run_scan in Hrun. destruct Hrun as [Hle Hm].
    apply IH in H. destruct H as (Hlt & Hrd & Hnm & Hbetween).
    split; [lia|]. split; [exact Hrd|]. split; [exact Hnm|].
    apply (modifiers_between_cons fmt pos _ b Hb).
    - rewrite Hc. unfold modifier. rewrite E1, E2, E3. reflexivity.
    - apply (modifiers_between_trans fmt (S pos) pos' _); [|exact Hbetween].
      exact Hm. }
  destruct (c =? chr "*") eqn:E4.
  { destruct (va_arg_int ap) as [[v ap']|] eqn:Harg; cbn [bind] in H;
      [|discriminate].
    eapply Hstep; [reflexivity | exact H]. }
  destruct (c =? chr ".") eqn:E5; [eapply Hstep; [reflexivity | exact H]|].
  destruct (c =? chr "#") eqn:E6; [eapply Hstep; [reflexivity | exact H]|].
  destruct (c =? chr "l") eqn:E7; [eapply Hstep; [reflexivity | exact H]|].
  injection H as <- <- <- <-. cbn [Nat.pred].
  split; [lia|]. split; [exact Hr|]. split.
  - unfold modifier. rewrite E1, E2, E3, E4, E5, E6, E7. reflexivity.
  - intros k Hk. lia.
Qed.

Lemma modifier_plain (b : Z) :
  modifier (to_uchar b) = true ->
  to_schar b = to_uchar b /\ to_uchar b <> chr "%" /\ to_uchar b <> 0.
Proof.
  unfold modifier. rewrite to_schar_uchar.
  change (chr "-") with 45. change (chr "0") with 48.
  change (chr "1") with 49. change (chr "9") with 57.
  change (chr "*") with 42. change (chr ".") with 46.
  change (chr "#") with 35. change (chr "l") with 108.
  change (chr "%") with 37.
  intros H.
  assert (Hv : to_uchar b = 45 \/ to_uchar b = 48 \/
               49 <= to_uchar b <= 57 \/ to_uchar b = 42 \/
               to_uchar b = 46 \/ to_uchar b = 35 \/ to_uchar b = 108).
  { repeat (apply orb_true_iff in H; destruct H as [H | H]);
      try (apply Z.eqb_eq in H; lia).
    apply andb_true_iff in H. rewrite !Z.leb_le in H. lia. }
  replace (to_uchar b <? 128) with true by (symmetry; apply Z.ltb_lt; lia).
  lia.
Qed.

Lemma rewind_to_percent (fmt : list Z) (p : nat) :
  forall q : nat,
    (1 <= p <= q)%nat ->
    read_char fmt (p - 1) = Done (chr "%") ->
    modifiers_between fmt p q ->
    rewind fmt q = Done p.
Proof.
  induction q as [|q IH]; intros Hpq Hpc Hm; [lia|].
  cbn [rewind].
  destruct (Nat.eq_dec p (S q)) as [-> | Hne].
  - replace (S q - 1)%nat with q in Hpc by lia. rewrite Hpc. cbn [bind].
    rewrite Z.eqb_refl. reflexivity.
  - destruct (Hm q ltac:(lia)) as (b & Hb & Hmod).
    apply modifier_plain in Hmod. destruct Hmod as (Hs & Hnp & _).
    unfold read_char. rewrite Hb. cbn [bind]. rewrite Hs.
    replace (to_uchar b =? chr "%") with false
      by (symmetry; apply Z.eqb_neq; exact Hnp).
    apply IH; [lia | exact Hpc |].
    intros k Hk. apply Hm. lia.
Qed.

Lemma convert_default (E : error_h)
  (pc : list Z -> va_list -> result (list Z)) (ch : Z) (fmt : list Z)
  (pos : nat) (d : directive) (ap : va_list) (attri : Z) :
  conversion ch = false ->
  convert E pc ch fmt pos d ap attri =
  pos' <- rewind fmt (Nat.pred pos) ;;
  Done ([Z.lor (chr "%") attri], pos', ap, attri).
Proof.
  unfold conversion. intros H.
  repeat (apply orb_false_iff in H; destruct H as [H ?]).
  unfold convert.
  repeat match goal with
    | Heq : (ch =? ?c) = false |- _ => rewrite Heq; clear Heq
    end.
  reflexivity.
Qed.

Lemma literal_S (fuel : nat) (fmt : list Z) (pos : nat) (attri : Z) :
  literal (S fuel) fmt pos attri =
  ch <- read_uchar fmt pos ;;
  if ch =? chr "%" then Done ([], Some (S pos))
  else if ch =? 0 then Done ([], None)
  else
    '(out, next) <- literal fuel fmt (S pos) attri ;;
    Done (Z.lor ch attri :: out, next).
Proof. reflexivity. Qed.

Lemma skipn_nth_error (fmt : list Z) :
  forall (pos : nat) (b : Z),
    nth_error fmt pos = Some b -> skipn pos fmt = b :: skipn (S pos) fmt.
Proof.
  induction fmt as [|x fmt IH]; intros [|pos] b H; try discriminate.
  - injection H as ->. reflexivity.
  - cbn [nth_error] in H. rewrite skipn_cons. rewrite (IH pos b H).
    reflexivity.
Qed.

Lemma firstn_snoc (l : list Z) :
  forall (n : nat) (b : Z),
    nth_error l n = Some b -> firstn (S n) l = firstn n l ++ [b].
Proof.
  induction l as [|x l IH]; intros [|n] b H; try discriminate.
  - injection H as ->. reflexivity.
  - cbn [nth_error] in H. cbn [firstn app]. rewrite <- (IH n b H).
    reflexivity.
Qed.

(** The text loop copies a run of modifier characters. *)
Lemma literal_modifiers (fmt : list Z) (attri : Z) (fuel : nat) :
  forall (n pos : nat),
    modifiers_between fmt pos (pos + n) ->
    literal (n + fuel) fmt pos attri =
    '(out, next) <- literal fuel fmt (pos + n) attri ;;
    Done (map (fun b => Z.lor (to_uchar b) attri) (firstn n (skipn pos fmt))
          ++ out, next).
Proof.
  induction n as [|n IH]; intros pos Hm.
  - rewrite Nat.add_0_r. cbn [Nat.add firstn map app].
    destruct (literal fuel fmt pos attri) as [[out next]|]; reflexivity.
  - cbn [Nat.add]. rewrite literal_S.
    destruct (Hm pos ltac:(lia)) as (b & Hb & Hmod).
    apply modifier_plain in Hmod. destruct Hmod as (_ & Hnp & Hnz).
    unfold read_uchar. rewrite Hb. cbn [bind].
    replace (to_uchar b =? chr "%") with false
      by (symmetry; apply Z.eqb_neq; exact Hnp).
    replace (to_uchar b =? 0) with false
      by (symmetry; apply Z.eqb_neq; exact Hnz).
    rewrite IH by (intros k Hk; apply Hm; lia).
    replace (S pos + n)%nat with (pos + S n)%nat by lia.
    rewrite (skipn_nth_error fmt pos b Hb). cbn [firstn map app].
    destruct (literal fuel fmt (pos + S n) attri) as [[out next]|];
      reflexivity.
Qed.

(** C9: when the character that ends the scan of a directive is none of the
    conversion characters, the engine writes ['%'] and moves [fmt] back to
    the index after the ['%'] of the directive, whatever modifiers were
    scanned; the text loop then copies the scanned characters: all of them
    when the last one is not the terminating zero, and the modifiers alone,
    ending the call, when it is.  The format ["%z"] gives ["%z"]. *)
Theorem unrecognized_directive (E : error_h)
  (pc : list Z -> va_list -> result (list Z)) (fuel : nat) (fmt : list Z)
  (pos : nat) (d0 : directive) (ap : va_list) (attri ch : Z) (pos2 : nat)
  (d : directive) (ap2 : va_list) :
  (1 <= pos)%nat ->
  read_char fmt (pos - 1) = Done (chr "%") ->
  reswitch fuel fmt pos d0 ap = Done (ch, pos2, d, ap2) ->
  conversion ch = false ->
  convert E pc ch fmt pos2 d ap2 attri =
    Done ([Z.lor (chr "%") attri], pos, ap2, attri) /\
  (pos < pos2)%nat /\
  modifiers_between fmt pos (pos2 - 1) /\
  (forall fuel' : nat,
     literal ((pos2 - 1 - pos) + S fuel') fmt pos attri =
     if ch =? 0 then
       Done (map (fun b => Z.lor (to_uchar b) attri)
               (firstn (pos2 - 1 - pos) (skipn pos fmt)), None)
     else
       '(out, next) <- literal fuel' fmt pos2 attri ;;
       Done (map (fun b => Z.lor (to_uchar b) attri)
               (firstn (pos2 - pos) (skipn pos fmt)) ++ out, next)) /\
  vprintfmt E (cstring "%z") [] = Done (bytes "%z").
Proof.
  intros Hpos Hpc Hres Hconv.
  apply reswitch_scan in Hres. destruct Hres as (Hlt & Hrd & _ & Hm).
  replace (Nat.pred pos2) with (pos2 - 1)%nat in * by lia.
  split; [|split; [exact Hlt | split; [exact Hm | split; [|reflexivity]]]].
  - rewrite convert_default by exact Hconv.
    replace (Nat.pred pos2) with (pos2 - 1)%nat by lia.
    rewrite (rewind_to_percent fmt pos (pos2 - 1)); [reflexivity | lia | |].
    + exact Hpc.
    + exact Hm.
  - intros fuel'.
    rewrite literal_modifiers
      by (replace (pos + (pos2 - 1 - pos))%nat with (pos2 - 1)%nat by lia;
          exact Hm).
    replace (pos + (pos2 - 1 - pos))%nat with (pos2 - 1)%nat by lia.
    rewrite literal_S, Hrd. cbn [bind].
    assert (Hnp : (ch =? chr "%") = false).
    { unfold conversion in Hconv.
      repeat (apply orb_false_iff in Hconv; destruct Hconv as [Hconv ?]).
      assumption. }
    rewrite Hnp. destruct (ch =? 0) eqn:Hz.
    + cbn [bind]. rewrite app_nil_r. reflexivity.
    + replace (S (pos2 - 1)) with pos2 by lia.
      apply read_uchar_inv in Hrd. destruct Hrd as (b & Hb & Hc).
      replace (pos2 - pos)%nat with (S (pos2 - 1 - pos)) by lia.
      rewrite (firstn_snoc (skipn pos fmt) (pos2 - 1 - pos) b).
      * rewrite map_app. cbn [map]. rewrite Hc.
        destruct (literal fuel' fmt pos2 attri) as [[out next]|];
          [|reflexivity].
        cbn [bind]. rewrite <- app_assoc. reflexivity.
      * rewrite nth_error_skipn.
        replace (pos + (pos2 - 1 - pos))%nat with (pos2 - 1)%nat by lia.
        exact Hb.
Qed.

Lemma unrecognized_directive_witness :
  convert jos_error_h (vprintfmt_rec 1 jos_error_h) (chr "q")
    (cstring "a%-07q!") 6
    {| padc := chr "0"; width := 7; precision := -1; lflag := 0;
       altflag := 0 |} [] 0x0200 =
  Done ([Z.lor (chr "%") 0x0200], 2%nat, [], 0x0200).
Proof.
  exact (proj1 (unrecognized_directive jos_error_h
    (vprintfmt_rec 1 jos_error_h) 9 (cstring "a%-07q!") 2 init_directive []
    0x0200 (chr "q") 6
    {| padc := chr "0"; width := 7; precision := -1; lflag := 0;
       altflag := 0 |} []
    ltac:(lia) ltac:(reflexivity) ltac:(reflexivity) ltac:(reflexivity))).
Defined.

Example unrecognized_with_modifiers : forall E : error_h,
  vprintfmt E (cstring "a%-07q!") [] = Done (bytes "a%-07q!").
Proof. reflexivity. Qed.

Example directive_cut_short : forall E : error_h,
  vprintfmt E (cstring "%5") [] = Done (bytes "%5").
Proof. reflexivity. Qed.

(** ** The attribute directives *)

(** C2: a format string that ends right after [%B] or [%F].  [case 'B']
    reads the byte after the ['B'], which is the terminating zero here, moves
    [fmt] past it and reads again: the second read is outside the string.
    With one more character the call is within the string. *)
Theorem format_ends_after_attribute_directive (E : error_h) (ap : va_list) :
  vprintfmt E (cstring "%B") ap = Fault ReadPastEnd /\
  vprintfmt E (cstring "%F") ap = Fault ReadPastEnd /\
  vprintfmt E (cstring "ab%5B") ap = Fault ReadPastEnd /\
  vprintfmt E (cstring "%BR") ap = Done [] /\
  vprintfmt E (cstring "%Fx") ap = Done [].
Proof. repeat split; reflexivity. Qed.

Lemma digit_char_plain (d : Z) :
  0 <= d < 16 -> Z.land (digit_char d) 0xff00 = 0.
Proof.
  intros Hd.
  assert (Hc : d = 0 \/ d = 1 \/ d = 2 \/ d = 3 \/ d = 4 \/ d = 5 \/ d = 6 \/
               d = 7 \/ d = 8 \/ d = 9 \/ d = 10 \/ d = 11 \/ d = 12 \/
               d = 13 \/ d = 14 \/ d = 15) by lia.
  repeat (destruct Hc as [-> | Hc]; [reflexivity|]). subst d. reflexivity.
Qed.

Lemma e_output_plain (E : error_h) (e : Z) :
  INT_MIN < e <= INT_MAX ->
  Forall (fun c => Z.land c 0xff00 = 0) (e_output E e).
Proof.
  intros He.
  assert (Herr : Forall (fun c => Z.land c 0xff00 = 0)
                   (bytes "error " ++ map digit_char (digits 10 (Z.abs e)))).
  { apply Forall_app. split; [repeat constructor|].
    apply Forall_map.
    destruct (digits_lsb_spec 10 ltac:(lia) 64 (Z.abs e))
      as (_ & Hall & _); [| lia |].
    - unfold INT_MIN, INT_MAX in He. change (Z.of_nat 64) with 64. lia.
    - eapply Forall_impl; [|exact Hall]. cbv beta.
      intros d Hd. apply digit_char_plain. lia. }
  unfold e_output. destruct (Z.abs e <? MAXERROR E); [|exact Herr].
  destruct (error_string E (Z.abs e)) as [[s|]|f] eqn:Hs; try exact Herr.
  apply error_string_entry in Hs.
  repeat (destruct Hs as [-> | Hs]; [repeat constructor|]).
  subst s. repeat constructor.
Qed.

(** C3: the output of [%e] under an attribute.  After [%BR] the attribute
    is 0x4000, and the text and the other conversions carry it, but [%e]
    writes through a call of [printfmt], whose attribute starts at 0: for
    every attribute and every error code, whatever [%e] writes has no
    attribute bit. *)
Theorem attribute_not_applied_by_e :
  vprintfmt jos_error_h (cstring "%BRa%ez") [Aint 3] =
    Done ([Z.lor (chr "a") 0x4000] ++ bytes "invalid parameter"
          ++ [Z.lor (chr "z") 0x4000]) /\
  vprintfmt jos_error_h (cstring "%BR%e") [Aint 999] =
    Done (bytes "error 999") /\
  vprintfmt jos_error_h (cstring "%BR%d") [Aint 999] =
    Done (map (fun c => Z.lor c 0x4000) (bytes "999")) /\
  vprintfmt jos_error_h (cstring "%BR%3s%C%s")
    [Astr (Some (bytes "a")); Astr (Some (bytes "b"))] =
    Done (map (fun c => Z.lor c 0x4000) (bytes "  a") ++ bytes "b") /\
  (forall (E : error_h) (fmt : list Z) (pos : nat) (d : directive)
     (ap : va_list) (attri e : Z),
     INT_MIN < e <= INT_MAX ->
     exists out : list Z,
       convert E (vprintfmt_rec 1 E) (chr "e") fmt pos d (Aint e :: ap) attri
         = Done (out, pos, ap, attri) /\
       Forall (fun c => Z.land c 0xff00 = 0) out).
Proof.
  split; [reflexivity|]. split; [reflexivity|]. split; [reflexivity|].
  split; [reflexivity|].
  intros E fmt pos d ap attri e He. exists (e_output E e). split.
  - unfold convert. eval_chr_eqb. cbn [va_arg_int bind].
    rewrite to_int_id by (unfold INT_MIN, INT_MAX in *; lia).
    rewrite case_e_output by exact He. reflexivity.
  - apply e_output_plain. exact He.
Qed.

Lemma attribute_not_applied_by_e_witness :
  exists out : list Z,
    convert jos_error_h (vprintfmt_rec 1 jos_error_h) (chr "e")
      (cstring "%BR%e") 5 init_directive [Aint 4] 0x4000 =
    Done (out, 5%nat, [], 0x4000) /\
    Forall (fun c => Z.land c 0xff00 = 0) out.
Proof.
  exact (proj2 (proj2 (proj2 (proj2 attribute_not_applied_by_e)))
    jos_error_h (cstring "%BR%e") 5%nat init_directive [] 0x4000 4
    ltac:(unfold INT_MIN, INT_MAX; lia)).
Defined.

(** ** The fuel of the model is sufficient *)

Lemma runs_done {A : Type} (a : A) : runs (Done a).
Proof. split; discriminate. Qed.

Lemma runs_fault {A : Type} (f : fault) :
  f <> OutOfFuel -> f <> DivByZero -> runs (@Fault A f).
Proof. intros H1 H2. split; congruence. Qed.

Lemma runs_bind {A B : Type} (m : result A) (k : A -> result B) :
  runs m -> (forall a : A, m = Done a -> runs (k a)) -> runs (bind m k).
Proof.
  intros [H1 H2] Hk. destruct m as [a|f]; cbn [bind].
  - apply Hk. reflexivity.
  - split; congruence.
Qed.

Lemma to_int_range (z : Z) : INT_MIN <= to_int z <= INT_MAX.
Proof.
  unfold to_int, to_signed, INT_MIN, INT_MAX.
  change (2 ^ (32 - 1)) with 2147483648. change (2 ^ 32) with 4294967296.
  change (2 ^ 31) with 2147483648.
  pose proof (Z.mod_pos_bound (z + 2147483648) 4294967296 ltac:(lia)). lia.
Qed.

Lemma to_ullong_range (z : Z) : 0 <= to_ullong z <= ULLONG_MAX.
Proof.
  unfold to_ullong, to_unsigned, ULLONG_MAX.
  pose proof (Z.mod_pos_bound z (2 ^ 64) ltac:(lia)). lia.
Qed.

Lemma printnum_pad_done (padc : Z) :
  forall (fuel : nat) (w : Z),
    (Z.to_nat (to_int (w - 1)) <= fuel)%nat ->
    exists out : list Z, printnum_pad fuel w padc = Done out.
Proof.
  induction fuel as [|fuel IH]; intros w Hf; cbn [printnum_pad];
    pose proof (to_int_range (w - 1)) as Hr;
    destruct (0 <? to_int (w - 1)) eqn:Hp;
    try (eexists; reflexivity).
  - apply Z.ltb_lt in Hp. lia.
  - apply Z.ltb_lt in Hp.
    destruct (IH (to_int (w - 1))) as [out Hout].
    + rewrite to_int_id by (unfold INT_MIN, INT_MAX in *; lia). lia.
    + rewrite Hout. eexists. reflexivity.
Qed.

Lemma printnum_done (b padc : Z) (Hb : 2 <= b) :
  forall (f : nat) (v w : Z),
    0 <= v < 2 ^ Z.of_nat f ->
    exists out : list Z, printnum (S f) v b w padc = Done out.
Proof.
  induction f as [|f IH]; intros v w Hv; rewrite printnum_S;
    replace (b =? 0) with false by (symmetry; apply Z.eqb_neq; lia).
  - replace (b <=? v) with false
      by (symmetry; apply Z.leb_gt; simpl in Hv; lia).
    destruct (printnum_pad_done padc (Z.to_nat (to_int (w - 1))) w)
      as [out Hout]; [lia|].
    rewrite Hout. eexists. reflexivity.
  - destruct (b <=? v) eqn:Hbv.
    + apply Z.leb_le in Hbv. rewrite pow2_S in Hv.
      destruct (IH (v / b) (to_int (w - 1))) as [out Hout].
      * split; [apply Z.div_pos; lia|].
        apply Z.le_lt_trans with (v / 2).
        -- apply Z.div_le_compat_l; lia.
        -- apply Z.div_lt_upper_bound; lia.
      * rewrite Hout. eexists. reflexivity.
    + destruct (printnum_pad_done padc (Z.to_nat (to_int (w - 1))) w)
        as [out Hout]; [lia|].
      rewrite Hout. eexists. reflexivity.
Qed.

Lemma number_done (num base : Z) (d : directive) (attri : Z) :
  2 <= base ->
  exists out : list Z, number (to_ullong num) base d attri = Done out.
Proof.
  intros Hb. unfold number, printnum_fuel.
  apply printnum_done; [exact Hb|].
  pose proof (to_ullong_range num) as Hr. unfold ULLONG_MAX in Hr.
  change (Z.of_nat 64) with 64. lia.
Qed.

Lemma to_ullong_idem (z : Z) : to_ullong (to_ullong z) = to_ullong z.
Proof. apply to_ullong_id. apply to_ullong_range. Qed.

Lemma case_d_done (n : Z) (d : directive) (attri : Z) :
  exists out : list Z, case_d n d attri = Done out.
Proof.
  unfold case_d. destruct (to_llong (to_ullong n) <? 0).
  - destruct (number_done (to_llong (- to_llong (to_ullong n))) 10 d attri)
      as [out Hout]; [lia|].
    rewrite Hout. eexists. reflexivity.
  - apply number_done. lia.
Qed.

Lemma to_int_le (w : Z) : 0 <= w -> to_int w <= w.
Proof.
  intros Hw. pose proof (to_int_range w) as Hr.
  destruct (Z_le_gt_dec w INT_MAX) as [Hle | Hgt].
  - rewrite to_int_id by (unfold INT_MIN in *; lia). lia.
  - lia.
Qed.

Lemma fill_done (c : Z) :
  forall (fuel : nat) (w : Z),
    (Z.to_nat w <= fuel)%nat ->
    exists (out : list Z) (w' : Z), fill fuel w c = Done (out, w').
Proof.
  induction fuel as [|fuel IH]; intros w Hf; cbn [fill];
    destruct (0 <? w) eqn:Hp; try (do 2 eexists; reflexivity).
  - apply Z.ltb_lt in Hp. lia.
  - apply Z.ltb_lt in Hp.
    destruct (IH (to_int (w - 1))) as (out & w' & Hout).
    + pose proof (to_int_le (w - 1) ltac:(lia)). lia.
    + rewrite Hout. do 2 eexists. reflexivity.
Qed.

Lemma case_s_done (p : option (list Z)) (d : directive) (attri : Z) :
  exists out : list Z, case_s p d attri = Done out.
Proof.
  unfold case_s.
  set (s := match p with None => bytes "(null)" | Some s => s end).
  assert (Htail : forall w1 : Z, exists out : list Z,
    (let '(out2, width) := s_chars s w1 (precision d) (altflag d) attri in
     '(out3, _) <- fill (Z.to_nat width) width (Z.lor (chr " ") attri) ;;
     Done (out2 ++ out3)) = Done out).
  { intros w1.
    destruct (s_chars s w1 (precision d) (altflag d) attri) as [out2 w2].
    destruct (fill_done (Z.lor (chr " ") attri) (Z.to_nat w2) w2)
      as (out3 & w3 & ->); [lia|].
    eexists. reflexivity. }
  destruct ((0 <? width d) && negb (padc d =? chr "-")).
  - cbv zeta.
    destruct (fill_done (Z.lor (padc d) attri)
      (Z.to_nat (to_int (width d -
         strnlen s (to_unsigned size_t_bits (precision d)))))
      (to_int (width d - strnlen s (to_unsigned size_t_bits (precision d)))))
      as (out1 & w1 & ->); [lia|].
    cbn [bind]. destruct (Htail w1) as [out Hout].
    destruct (s_chars s w1 (precision d) (altflag d) attri) as [out2 w2].
    destruct (fill (Z.to_nat w2) w2 (Z.lor (chr " ") attri))
      as [[out3 w3]|]; [|discriminate].
    eexists. reflexivity.
  - cbn [bind]. destruct (Htail (width d)) as [out Hout].
    destruct (s_chars s (width d) (precision d) (altflag d) attri)
      as [out2 w2].
    destruct (fill (Z.to_nat w2) w2 (Z.lor (chr " ") attri))
      as [[out3 w3]|]; [|discriminate].
    eexists. reflexivity.
Qed.

Lemma bind_avoids {A B : Type} (m : result A) (k : A -> result B)
  (f0 : fault) :
  m <> Fault f0 ->
  (forall a : A, m = Done a -> k a <> Fault f0) ->
  bind m k <> Fault f0.
Proof.
  intros Hm Hk. destruct m as [a|f]; cbn [bind].
  - apply Hk. reflexivity.
  - intros H. apply Hm. injection H as ->. reflexivity.
Qed.

Lemma done_avoids {A : Type} (m : result A) (f0 : fault) :
  (exists a : A, m = Done a) -> m <> Fault f0.
Proof. intros [a ->]. discriminate. Qed.

Lemma va_arg_int_avoids (ap : va_list) (f0 : fault) :
  f0 <> BadArg -> va_arg_int ap <> Fault f0.
Proof. intros H. destruct ap as [|[] ap]; cbn; congruence. Qed.

Lemma va_arg_str_avoids (ap : va_list) (f0 : fault) :
  f0 <> BadArg -> va_arg_str ap <> Fault f0.
Proof. intros H. destruct ap as [|[] ap]; cbn; congruence. Qed.

Lemma va_arg_ptr_avoids (ap : va_list) (f0 : fault) :
  f0 <> BadArg -> va_arg_ptr ap <> Fault f0.
Proof. intros H. destruct ap as [|[] ap]; cbn; congruence. Qed.

Lemma getint_avoids (ap : va_list) (l : Z) (f0 : fault) :
  f0 <> BadArg -> getint ap l <> Fault f0.
Proof.
  intros H. unfold getint.
  destruct (2 <=? l); [|destruct (negb (l =? 0))];
    destruct ap as [|[] ap]; congruence.
Qed.

Lemma getuint_avoids (ap : va_list) (l : Z) (f0 : fault) :
  f0 <> BadArg -> getuint ap l <> Fault f0.
Proof.
  intros H. unfold getuint.
  destruct (2 <=? l); [|destruct (negb (l =? 0))];
    destruct ap as [|[] ap]; congruence.
Qed.

Lemma getuint_ullong (ap : va_list) (l num : Z) (ap' : va_list) :
  getuint ap l = Done (num, ap') -> num = to_ullong num.
Proof.
  unfold getuint.
  destruct (2 <=? l); [|destruct (negb (l =? 0))];
    destruct ap as [|[] ap]; try discriminate;
    intros H; injection H as <- _; symmetry; apply to_ullong_idem.
Qed.

(** [printfmt(putch, putdat, "error %d", err)] returns, whatever [err] is. *)
Lemma printfmt_error_d_done (E : error_h) (depth : nat) (a : Z) :
  exists out : list Z,
    vprintfmt_rec (S depth) E (cstring "error %d") [Aint a] = Done out.
Proof.
  destruct (case_d_done (to_llong (to_int a)) init_directive 0)
    as [out Hout].
  exists (bytes "error " ++ out).
  cbn [vprintfmt_rec].
  change (S (List.length (cstring "error %d")))
    with (S (S (List.length (bytes "error %d")))).
  assert (Hconv :
    convert E (vprintfmt_rec depth E) (chr "d") (cstring "error %d") 8
      init_directive [Aint a] 0 = Done (out, 8%nat, [], 0)).
  { unfold convert. eval_chr_eqb. unfold getint.
    cbn [lflag init_directive].
    change (2 <=? 0) with false. change (negb (0 =? 0)) with false.
    cbv iota. cbn [bind]. rewrite Hout. reflexivity. }
  erewrite vprintfmt_loop_step; [| reflexivity | reflexivity | exact Hconv].
  erewrite vprintfmt_loop_end; [| reflexivity].
  cbn [bind]. rewrite app_nil_r. reflexivity.
Qed.

Lemma case_e_avoids (E : error_h) (depth : nat) (err : Z) (f0 : fault) :
  f0 <> BadIndex ->
  case_e E (vprintfmt_rec (S depth) E) err <> Fault f0.
Proof.
  intros Hf. unfold case_e.
  set (a := if err <? 0 then to_int (- err) else err).
  destruct (MAXERROR E <=? a).
  - apply done_avoids. apply printfmt_error_d_done.
  - destruct (error_string E a) as [[s|]|f] eqn:Hs; cbn [bind].
    + apply done_avoids. exists s. eapply printfmt_entry. exact Hs.
    + apply done_avoids. apply printfmt_error_d_done.
    + unfold error_string in Hs.
      destruct ((0 <=? a) && (a <? MAXERROR E)); [discriminate|].
      injection Hs as <-. congruence.
Qed.


Lemma convert_avoids (E : error_h) (depth : nat) (ch : Z) (fmt : list Z)
  (pos : nat) (d : directive) (ap : va_list) (attri : Z) (f0 : fault) :
  f0 <> BadArg ->
  f0 <> BadIndex ->
  (ch = chr "B" \/ ch = chr "F" ->
   read_char fmt pos <> Fault f0 /\ read_char fmt (S pos) <> Fault f0) ->
  (ch = chr "C" -> read_char fmt pos <> Fault f0) ->
  (conversion ch = false -> rewind fmt (Nat.pred pos) <> Fault f0) ->
  convert E (vprintfmt_rec (S depth) E) ch fmt pos d ap attri <> Fault f0.
Proof.
  intros Harg Hidx HBF HC Hdef. unfold convert.
  destruct (ch =? chr "c") eqn:Ec.
  { apply bind_avoids; [apply va_arg_int_avoids; exact Harg|].
    intros [c ap'] _. discriminate. }
  destruct (ch =? chr "e") eqn:Ee.
  { apply bind_avoids; [apply va_arg_int_avoids; exact Harg|].
    intros [err ap'] _.
    apply bind_avoids; [apply case_e_avoids; exact Hidx|].
    intros out _. discriminate. }
  destruct (ch =? chr "s") eqn:Es.
  { apply bind_avoids; [apply va_arg_str_avoids; exact Harg|].
    intros [p ap'] _.
    apply bind_avoids; [apply done_avoids, case_s_done|].
    intros out _. discriminate. }
  destruct (ch =? chr "d") eqn:Ed.
  { apply bind_avoids; [apply getint_avoids; exact Harg|].
    intros [n ap'] _.
    apply bind_avoids; [apply done_avoids, case_d_done|].
    intros out _. discriminate. }
  destruct (ch =? chr "u") eqn:Eu.
  { apply bind_avoids; [apply getuint_avoids; exact Harg|].
    intros [num ap'] Hg. apply getuint_ullong in Hg. rewrite Hg.
    apply bind_avoids; [apply done_avoids, number_done; lia|].
    intros out _. discriminate. }
  destruct (ch =? chr "o") eqn:Eo.
  { apply bind_avoids; [apply getuint_avoids; exact Harg|].
    intros [num ap'] Hg. apply getuint_ullong in Hg. rewrite Hg.
    apply bind_avoids; [apply done_avoids, number_done; lia|].
    intros out _. discriminate. }
  destruct (ch =? chr "p") eqn:Ep.
  { apply bind_avoids; [apply va_arg_ptr_avoids; exact Harg|].
    intros [a ap'] _.
    apply bind_avoids; [apply done_avoids, number_done; lia|].
    intros out _. discriminate. }
  destruct (ch =? chr "x") eqn:Ex.
  { apply bind_avoids; [apply getuint_avoids; exact Harg|].
    intros [num ap'] Hg. apply getuint_ullong in Hg. rewrite Hg.
    apply bind_avoids; [apply done_avoids, number_done; lia|].
    intros out _. discriminate. }
  destruct (ch =? chr "%") eqn:Epc; [discriminate|].
  destruct (ch =? chr "B") eqn:EB.
  { apply Z.eqb_eq in EB. destruct (HBF (or_introl EB)) as [H1 H2].
    apply bind_avoids; [exact H1|]. intros c _.
    apply bind_avoids; [exact H2|]. intros c' _. discriminate. }
  destruct (ch =? chr "F") eqn:EF.
  { apply Z.eqb_eq in EF. destruct (HBF (or_intror EF)) as [H1 H2].
    apply bind_avoids; [exact H1|]. intros c _.
    apply bind_avoids; [exact H2|]. intros c' _. discriminate. }
  destruct (ch =? chr "C") eqn:EC.
  { apply Z.eqb_eq in EC.
    apply bind_avoids; [exact (HC EC)|]. intros c _. discriminate. }
  apply bind_avoids.
  - apply Hdef. unfold conversion.
    rewrite Ec, Ee, Es, Ed, Eu, Eo, Ep, Ex, Epc, EB, EF, EC. reflexivity.
  - intros p _. discriminate.
Qed.

Lemma read_char_fault (fmt : list Z) (pos : nat) (f : fault) :
  read_char fmt pos = Fault f -> f = ReadPastEnd.
Proof.
  unfold read_char. destruct (nth_error fmt pos); [discriminate|].
  intros H. injection H as <-. reflexivity.
Qed.

Lemma read_uchar_fault (fmt : list Z) (pos : nat) (f : fault) :
  read_uchar fmt pos = Fault f -> f = ReadPastEnd.
Proof.
  unfold read_uchar. destruct (nth_error fmt pos); [discriminate|].
  intros H. injection H as <-. reflexivity.
Qed.

Lemma rewind_fault (fmt : list Z) :
  forall (pos : nat) (f : fault),
    rewind fmt pos = Fault f -> f = ReadPastEnd.
Proof.
  induction pos as [|pos IH]; intros f H; cbn [rewind] in H.
  - injection H as <-. reflexivity.
  - destruct (read_char fmt pos) as [c|f'] eqn:Hr; cbn [bind] in H.
    + destruct (c =? chr "%"); [discriminate | exact (IH f H)].
    + injection H as <-. exact (read_char_fault _ _ _ Hr).
Qed.

Lemma convert_runs (E : error_h) (depth : nat) (ch : Z) (fmt : list Z)
  (pos : nat) (d : directive) (ap : va_list) (attri : Z) :
  runs (convert E (vprintfmt_rec (S depth) E) ch fmt pos d ap attri).
Proof.
  assert (Hread : forall (p : nat) (f0 : fault),
            f0 <> ReadPastEnd -> read_char fmt p <> Fault f0).
  { intros p f0 Hf H. apply read_char_fault in H. congruence. }
  assert (Hrew : forall (p : nat) (f0 : fault),
            f0 <> ReadPastEnd -> rewind fmt p <> Fault f0).
  { intros p f0 Hf H. apply rewind_fault in H. congruence. }
  split; apply convert_avoids; try discriminate.
  - intros _. split; apply Hread; discriminate.
  - intros _. apply Hread. discriminate.
  - intros _. apply Hrew. discriminate.
  - intros _. split; apply Hread; discriminate.
  - intros _. apply Hread. discriminate.
  - intros _. apply Hrew. discriminate.
Qed.

Lemma digit_run_avoids_fuel :
  forall (fuel : nat) (fmt : list Z) (pos : nat) (prec ch : Z),
    (List.length fmt - pos <= fuel)%nat ->
    runs (digit_run fuel fmt pos prec ch).
Proof.
  induction fuel as [|fuel IH]; intros fmt pos prec ch Hf;
    cbn [digit_run]; unfold read_char;
    destruct (nth_error fmt pos) as [b|] eqn:Hb; cbn [bind];
    try (apply runs_fault; discriminate);
    destruct ((to_schar b <? chr "0") || (chr "9" <? to_schar b));
    try apply runs_done.
  - assert (Hlt : (pos < List.length fmt)%nat)
      by (apply nth_error_Some; congruence).
    lia.
  - apply IH.
    assert (Hlt : (pos < List.length fmt)%nat)
      by (apply nth_error_Some; congruence).
    lia.
Qed.

Lemma reswitch_runs :
  forall (fuel : nat) (fmt : list Z) (pos : nat) (d : directive)
    (ap : va_list),
    (List.length fmt - pos < fuel)%nat ->
    runs (reswitch fuel fmt pos d ap).
Proof.
  induction fuel as [|fuel IH]; intros fmt pos d ap Hf; [lia|].
  rewrite reswitch_S. unfold read_uchar.
  destruct (nth_error fmt pos) as [b|] eqn:Hb; cbn [bind];
    [|apply runs_fault; discriminate].
  assert (Hlt : (pos < List.length fmt)%nat)
    by (apply nth_error_Some; congruence).
  assert (Hnext : forall (d' : directive) (ap' : va_list),
            runs (reswitch fuel fmt (S pos) d' ap'))
    by (intros; apply IH; lia).
  destruct (to_uchar b =? chr "-"); [apply Hnext|].
  destruct (to_uchar b =? chr "0"); [apply Hnext|].
  destruct ((chr "1" <=? to_uchar b) && (to_uchar b <=? chr "9")).
  { apply runs_bind; [apply digit_run_avoids_fuel; lia|].
    intros [prec pos'] Hrun. apply digit_run_scan in Hrun.
    apply IH. lia. }
  destruct (to_uchar b =? chr "*").
  { apply runs_bind.
    - split; apply va_arg_int_avoids; discriminate.
    - intros [prec ap'] _. apply Hnext. }
  destruct (to_uchar b =? chr "."); [apply Hnext|].
  destruct (to_uchar b =? chr "#"); [apply Hnext|].
  destruct (to_uchar b =? chr "l"); [apply Hnext|].
  apply runs_done.
Qed.

Lemma literal_runs (attri : Z) :
  forall (fuel : nat) (fmt : list Z) (pos : nat),
    (List.length fmt - pos < fuel)%nat ->
    runs (literal fuel fmt pos attri).
Proof.
  induction fuel as [|fuel IH]; intros fmt pos Hf; [lia|].
  rewrite literal_S. unfold read_uchar.
  destruct (nth_error fmt pos) as [b|] eqn:Hb; cbn [bind];
    [|apply runs_fault; discriminate].
  assert (Hlt : (pos < List.length fmt)%nat)
    by (apply nth_error_Some; congruence).
  destruct (to_uchar b =? chr "%"); [apply runs_done|].
  destruct (to_uchar b =? 0); [apply runs_done|].
  apply runs_bind; [apply IH; lia|].
  intros [out next] _. apply runs_done.
Qed.

Lemma literal_next (attri : Z) :
  forall (fuel : nat) (fmt : list Z) (pos : nat) (out : list Z) (p1 : nat),
    literal fuel fmt pos attri = Done (out, Some p1) ->
    (pos < p1)%nat /\ read_uchar fmt (p1 - 1) = Done (chr "%").
Proof.
  induction fuel as [|fuel IH]; intros fmt pos out p1 H; [discriminate|].
  rewrite literal_S in H.
  destruct (read_uchar fmt pos) as [c|] eqn:Hr; cbn [bind] in H;
    [|discriminate].
  destruct (c =? chr "%") eqn:Hp.
  - injection H as _ <-. apply Z.eqb_eq in Hp. subst c.
    split; [lia|]. replace (S pos - 1)%nat with pos by lia. exact Hr.
  - destruct (c =? 0); [discriminate|].
    destruct (literal fuel fmt (S pos) attri) as [[out' next]|] eqn:Hl;
      cbn [bind] in H; [|discriminate].
    injection H as _ ->. apply IH in Hl. destruct Hl as [Hlt Hrd].
    split; [lia | exact Hrd].
Qed.

(** Where [fmt] is after a case that ends in [break]. *)
Lemma convert_pos (E : error_h)
  (pc : list Z -> va_list -> result (list Z)) (ch : Z) (fmt : list Z)
  (pos : nat) (d : directive) (ap : va_list) (attri : Z)
  (out : list Z) (pos3 : nat) (ap3 : va_list) (attri3 : Z) :
  convert E pc ch fmt pos d ap attri = Done (out, pos3, ap3, attri3) ->
  (conversion ch = true /\
   (pos3 = pos \/
    (ch = chr "B" \/ ch = chr "F") /\ pos3 = S pos /\
    exists c : Z, read_char fmt (S pos) = Done c)) \/
  (conversion ch = false /\ rewind fmt (Nat.pred pos) = Done pos3).
Proof.
  unfold convert, conversion. intros H.
  destruct (ch =? chr "c") eqn:Ec.
  { left. split; [reflexivity|]. left.
    destruct (va_arg_int ap) as [[c ap']|]; [|discriminate].
    injection H as _ <- _ _. reflexivity. }
  destruct (ch =? chr "e") eqn:Ee.
  { left. split; [reflexivity|]. left.
    destruct (va_arg_int ap) as [[c ap']|]; [|discriminate].
    cbn [bind] in H. destruct (case_e E pc c); [|discriminate].
    injection H as _ <- _ _. reflexivity. }
  destruct (ch =? chr "s") eqn:Es.
  { left. split; [reflexivity|]. left.
    destruct (va_arg_str ap) as [[p ap']|]; [|discriminate].
    cbn [bind] in H. destruct (case_s p d attri); [|discriminate].
    injection H as _ <- _ _. reflexivity. }
  destruct (ch =? chr "d") eqn:Ed.
  { left. split; [reflexivity|]. left.
    destruct (getint ap (lflag d)) as [[n ap']|]; [|discriminate].
    cbn [bind] in H. destruct (case_d n d attri); [|discriminate].
    injection H as _ <- _ _. reflexivity. }
  destruct (ch =? chr "u") eqn:Eu.
  { left. split; [reflexivity|]. left.
    destruct (getuint ap (lflag d)) as [[n ap']|]; [|discriminate].
    cbn [bind] in H. destruct (number n 10 d attri); [|discriminate].
    injection H as _ <- _ _. reflexivity. }
  destruct (ch =? chr "o") eqn:Eo.
  { left. split; [reflexivity|]. left.
    destruct (getuint ap (lflag d)) as [[n ap']|]; [|discriminate].
    cbn [bind] in H. destruct (number n 8 d attri); [|discriminate].
    injection H as _ <- _ _. reflexivity. }
  destruct (ch =? chr "p") eqn:Ep.
  { left. split; [reflexivity|]. left.
    destruct (va_arg_ptr ap) as [[a ap']|]; [|discriminate].
    cbn [bind] in H.
    destruct (number (to_ullong (to_unsigned uintptr_bits a)) 16 d attri);
      [|discriminate].
    injection H as _ <- _ _. reflexivity. }
  destruct (ch =? chr "x") eqn:Ex.
  { left. split; [reflexivity|]. left.
    destruct (getuint ap (lflag d)) as [[n ap']|]; [|discriminate].
    cbn [bind] in H. destruct (number n 16 d attri); [|discriminate].
    injection H as _ <- _ _. reflexivity. }
  destruct (ch =? chr "%") eqn:Epc.
  { left. split; [reflexivity|]. left.
    injection H as _ <- _ _. reflexivity. }
  destruct (ch =? chr "B") eqn:EB.
  { left. split; [reflexivity|]. right. apply Z.eqb_eq in EB.
    destruct (read_char fmt pos) as [c|]; [|discriminate].
    cbn [bind] in H.
    destruct (read_char fmt (S pos)) as [c'|]; [|discriminate].
    injection H as _ <- _ _.
    split; [left; exact EB|]. split; [reflexivity|]. exists c'. reflexivity. }
  destruct (ch =? chr "F") eqn:EF.
  { left. split; [reflexivity|]. right. apply Z.eqb_eq in EF.
    destruct (read_char fmt pos) as [c|]; [|discriminate].
    cbn [bind] in H.
    destruct (read_char fmt (S pos)) as [c'|]; [|discriminate].
    injection H as _ <- _ _.
    split; [right; exact EF|]. split; [reflexivity|]. exists c'. reflexivity. }
  destruct (ch =? chr "C") eqn:EC.
  { left. split; [reflexivity|]. left.
    destruct (read_char fmt pos) as [c|]; [|discriminate].
    injection H as _ <- _ _. reflexivity. }
  right. split; [reflexivity|].
  destruct (rewind fmt (Nat.pred pos)) as [p|]; [|discriminate].
  injection H as _ <- _ _. reflexivity.
Qed.

Lemma read_percent_signed (fmt : list Z) (p : nat) :
  read_uchar fmt p = Done (chr "%") -> read_char fmt p = Done (chr "%").
Proof.
  unfold read_uchar, read_char.
  destruct (nth_error fmt p) as [b|]; [|discriminate].
  intros H. injection H as H. rewrite to_schar_uchar, H. reflexivity.
Qed.

(** After a directive [fmt] is beyond the ['%'] of the directive. *)
Lemma directive_moves_forward (E : error_h)
  (pc : list Z -> va_list -> result (list Z)) (fuel : nat) (fmt : list Z)
  (p1 : nat) (d0 : directive) (ap : va_list) (attri ch : Z) (pos2 : nat)
  (d : directive) (ap2 : va_list) (out : list Z) (pos3 : nat)
  (ap3 : va_list) (attri3 : Z) :
  (1 <= p1)%nat ->
  read_uchar fmt (p1 - 1) = Done (chr "%") ->
  reswitch fuel fmt p1 d0 ap = Done (ch, pos2, d, ap2) ->
  convert E pc ch fmt pos2 d ap2 attri = Done (out, pos3, ap3, attri3) ->
  (p1 <= pos3)%nat.
Proof.
  intros Hp1 Hpc Hres Hconv.
  apply reswitch_scan in Hres. destruct Hres as (Hlt & Hrd & _ & Hm).
  apply convert_pos in Hconv.
  destruct Hconv as [[_ [-> | (_ & -> & _)]] | [_ Hrew]]; try lia.
  rewrite (rewind_to_percent fmt p1 (Nat.pred pos2)) in Hrew.
  - injection Hrew as <-. lia.
  - lia.
  - apply read_percent_signed. exact Hpc.
  - exact Hm.
Qed.

Lemma vprintfmt_loop_runs (E : error_h) (depth : nat) :
  forall (fuel : nat) (fmt : list Z) (pos : nat) (ap : va_list) (attri : Z),
    (List.length fmt - pos < fuel)%nat ->
    runs (vprintfmt_loop E (vprintfmt_rec (S depth) E) fuel fmt pos ap attri).
Proof.
  induction fuel as [|fuel IH]; intros fmt pos ap attri Hf; [lia|].
  cbn [vprintfmt_loop].
  apply runs_bind; [apply literal_runs; lia|].
  intros [out1 [p1|]] Hlit; [|apply runs_done].
  apply literal_next in Hlit. destruct Hlit as [Hlt Hpc].
  assert (Hin : (p1 - 1 < List.length fmt)%nat).
  { apply nth_error_Some. unfold read_uchar in Hpc.
    destruct (nth_error fmt (p1 - 1)); [discriminate | discriminate]. }
  apply runs_bind; [apply reswitch_runs; lia|].
  intros [[[ch pos2] d] ap2] Hres.
  apply runs_bind; [apply convert_runs|].
  intros [[[out2 pos3] ap3] attri3] Hconv.
  assert (Hfw : (p1 <= pos3)%nat).
  { eapply directive_moves_forward;
      [| exact Hpc | exact Hres | exact Hconv]. lia. }
  apply runs_bind; [apply IH; lia|].
  intros out3 _. apply runs_done.
Qed.

(** The fuel that the model gives to the engine is sufficient, for every
    format and every argument list. *)
Theorem vprintfmt_runs (E : error_h) (fmt : list Z) (ap : va_list) :
  runs (vprintfmt E fmt ap).
Proof.
  change (vprintfmt E fmt ap)
    with (vprintfmt_loop E (vprintfmt_rec 1 E) (S (List.length fmt)) fmt 0
            ap 0).
  apply vprintfmt_loop_runs. lia.
Qed.

(** ** The reads of the format string *)

Section InString.

Variables (fmt s : list Z).
Hypothesis Hwf : c_string_of fmt s.

Lemma c_string_index (k : nat) (b : Z) :
  nth_error fmt k = Some b ->
  ((k < List.length s)%nat /\ to_uchar b <> 0) \/
  (k = List.length s /\ b = 0).
Proof.
  destruct Hwf as [-> Hnz]. intros Hk.
  destruct (Nat.lt_ge_cases k (List.length s)) as [Hlt | Hge].
  - left. split; [exact Hlt|]. rewrite nth_error_app1 in Hk by exact Hlt.
    rewrite Forall_forall in Hnz. apply Hnz.
    eapply nth_error_In. exact Hk.
  - right. rewrite nth_error_app2 in Hk by exact Hge.
    destruct (k - List.length s)%nat as [|n] eqn:Hd.
    + injection Hk as <-. split; [lia | reflexivity].
    + destruct n; discriminate.
Qed.

Lemma c_string_read (k : nat) :
  (k <= List.length s)%nat -> exists b : Z, nth_error fmt k = Some b.
Proof.
  intros Hk. destruct (nth_error fmt k) as [b|] eqn:Hb.
  - exists b. reflexivity.
  - apply nth_error_None in Hb. destruct Hwf as [-> _].
    rewrite length_app in Hb. cbn [List.length] in Hb. lia.
Qed.

Lemma nonzero_index (k : nat) (b : Z) :
  nth_error fmt k = Some b -> to_uchar b <> 0 -> (k < List.length s)%nat.
Proof.
  intros Hk Hnz. destruct (c_string_index k b Hk) as [[Hlt _] | [_ ->]].
  - exact Hlt.
  - exfalso. apply Hnz. reflexivity.
Qed.

Lemma to_schar_nonzero (b : Z) : to_schar b <> 0 -> to_uchar b <> 0.
Proof.
  rewrite to_schar_uchar. pose proof (to_uchar_range b).
  destruct (to_uchar b <? 128) eqn:Hlt; [tauto|].
  apply Z.ltb_ge in Hlt. lia.
Qed.

Lemma modifiers_within (i j : nat) :
  modifiers_between fmt i j ->
  (i <= List.length s)%nat ->
  (j <= List.length s)%nat.
Proof.
  intros Hm Hi. destruct (Nat.le_gt_cases j (List.length s)) as [|Hgt];
    [assumption|].
  exfalso. destruct (Hm (List.length s) ltac:(lia)) as (b & Hb & Hmod).
  destruct (c_string_index _ _ Hb) as [[Hlt _] | [_ ->]]; [lia|].
  discriminate.
Qed.

Lemma literal_in_string (attri : Z) :
  forall (fuel pos : nat),
    (pos <= List.length s)%nat ->
    literal fuel fmt pos attri <> Fault ReadPastEnd.
Proof.
  induction fuel as [|fuel IH]; intros pos Hpos; [discriminate|].
  rewrite literal_S. unfold read_uchar.
  destruct (c_string_read pos Hpos) as [b Hb]. rewrite Hb. cbn [bind].
  destruct (to_uchar b =? chr "%"); [discriminate|].
  destruct (to_uchar b =? 0) eqn:Hz; [discriminate|].
  apply Z.eqb_neq in Hz.
  apply bind_avoids.
  - apply IH. pose proof (nonzero_index pos b Hb Hz). lia.
  - intros [out next] _. discriminate.
Qed.

Lemma digit_run_in_string :
  forall (fuel pos : nat) (prec ch : Z),
    (pos <= List.length s)%nat ->
    digit_run fuel fmt pos prec ch <> Fault ReadPastEnd.
Proof.
  induction fuel as [|fuel IH]; intros pos prec ch Hpos;
    cbn [digit_run]; unfold read_char;
    destruct (c_string_read pos Hpos) as [b Hb]; rewrite Hb; cbn [bind];
    destruct ((to_schar b <? chr "0") || (chr "9" <? to_schar b)) eqn:Hd;
    try discriminate.
  apply IH. apply orb_false_iff in Hd. destruct Hd as [Hd _].
  apply Z.ltb_ge in Hd. change (chr "0") with 48 in Hd.
  assert (Hnz : to_uchar b <> 0) by (apply to_schar_nonzero; lia).
  pose proof (nonzero_index pos b Hb Hnz). lia.
Qed.

Lemma reswitch_in_string :
  forall (fuel pos : nat) (d : directive) (ap : va_list),
    (pos <= List.length s)%nat ->
    reswitch fuel fmt pos d ap <> Fault ReadPastEnd.
Proof.
  induction fuel as [|fuel IH]; intros pos d ap Hpos; [discriminate|].
  rewrite reswitch_S. unfold read_uchar.
  destruct (c_string_read pos Hpos) as [b Hb]. rewrite Hb. cbn [bind].
  assert (Hnext : to_uchar b <> 0 ->
            forall (d' : directive) (ap' : va_list),
              reswitch fuel fmt (S pos) d' ap' <> Fault ReadPastEnd).
  { intros Hnz d' ap'. apply IH.
    pose proof (nonzero_index pos b Hb Hnz). lia. }
  destruct (to_uchar b =? chr "-") eqn:E1.
  { apply Hnext. apply Z.eqb_eq in E1. rewrite E1. discriminate. }
  destruct (to_uchar b =? chr "0") eqn:E2.
  { apply Hnext. apply Z.eqb_eq in E2. rewrite E2. discriminate. }
  destruct ((chr "1" <=? to_uchar b) && (to_uchar b <=? chr "9")) eqn:E3.
  { apply andb_true_iff in E3. destruct E3 as [E3 _].
    apply Z.leb_le in E3. change (chr "1") with 49 in E3.
    assert (Hnz : to_uchar b <> 0) by lia.
    pose proof (nonzero_index pos b Hb Hnz) as Hlt.
    apply bind_avoids; [apply digit_run_in_string; lia|].
    intros [prec pos'] Hrun. apply digit_run_scan in Hrun.
    destruct Hrun as [_ Hm]. apply IH.
    apply (modifiers_within (S pos) pos' Hm). lia. }
  destruct (to_uchar b =? chr "*") eqn:E4.
  { apply bind_avoids; [apply va_arg_int_avoids; discriminate|].
    intros [prec ap'] _.
    apply Hnext. apply Z.eqb_eq in E4. rewrite E4. discriminate. }
  destruct (to_uchar b =? chr ".") eqn:E5.
  { apply Hnext. apply Z.eqb_eq in E5. rewrite E5. discriminate. }
  destruct (to_uchar b =? chr "#") eqn:E6.
  { apply Hnext. apply Z.eqb_eq in E6. rewrite E6. discriminate. }
  destruct (to_uchar b =? chr "l") eqn:E7.
  { apply Hnext. apply Z.eqb_eq in E7. rewrite E7. discriminate. }
  discriminate.
Qed.

Lemma read_char_in_string (k : nat) :
  (k <= List.length s)%nat -> read_char fmt k <> Fault ReadPastEnd.
Proof.
  intros Hk. unfold read_char. destruct (c_string_read k Hk) as [b ->].
  discriminate.
Qed.

Lemma last_byte (b : Z) :
  (1 <= List.length s)%nat ->
  nth_error fmt (List.length s - 1) = Some b ->
  exists s' : list Z, s = s' ++ [b].
Proof.
  intros Hlen Hb. destruct Hwf as [Hfmt _]. subst fmt.
  rewrite nth_error_app1 in Hb by lia.
  destruct (nth_error_split s _ Hb) as (l1 & l2 & Hs & Hl1).
  assert (Hl2 : l2 = []).
  { apply (f_equal (@List.length Z)) in Hs.
    rewrite length_app in Hs. cbn [List.length] in Hs.
    destruct l2; [reflexivity | cbn [List.length] in Hs; lia]. }
  subst l2. exists l1. exact Hs.
Qed.

Lemma convert_in_string (E : error_h) (depth fuel : nat) (p1 : nat)
  (d0 : directive) (ap : va_list) (ch : Z) (pos2 : nat) (d : directive)
  (ap2 : va_list) (attri : Z) :
  ~ ends_in_attribute_letter s ->
  (1 <= p1)%nat ->
  read_uchar fmt (p1 - 1) = Done (chr "%") ->
  reswitch fuel fmt p1 d0 ap = Done (ch, pos2, d, ap2) ->
  convert E (vprintfmt_rec (S depth) E) ch fmt pos2 d ap2 attri
  <> Fault ReadPastEnd.
Proof.
  intros Hend Hp1 Hpc Hres.
  apply reswitch_scan in Hres. destruct Hres as (Hlt & Hrd & _ & Hm).
  pose proof (read_uchar_inv _ _ _ Hrd) as (b & Hb & Hc).
  assert (Hnz : ch <> 0 -> (pos2 <= List.length s)%nat).
  { intros Hch. rewrite <- Hc in Hch.
    pose proof (nonzero_index _ _ Hb Hch). lia. }
  apply convert_avoids; try discriminate.
  - intros HBF.
    assert (Hch : ch <> 0) by (destruct HBF as [-> | ->]; discriminate).
    specialize (Hnz Hch).
    split; apply read_char_in_string; [exact Hnz|].
    destruct (Nat.eq_dec pos2 (List.length s)) as [Heq | Hne]; [|lia].
    exfalso. apply Hend.
    replace (Nat.pred pos2) with (List.length s - 1)%nat in Hb by lia.
    destruct (last_byte b ltac:(lia) Hb) as [s' Hs].
    exists s', b. split; [exact Hs|]. rewrite Hc. exact HBF.
  - intros ->. apply read_char_in_string. apply Hnz. discriminate.
  - intros _.
    rewrite (rewind_to_percent fmt p1 (Nat.pred pos2)); [discriminate | lia | |].
    + apply read_percent_signed. exact Hpc.
    + exact Hm.
Qed.

Lemma vprintfmt_loop_in_string (E : error_h) (depth : nat) :
  ~ ends_in_attribute_letter s ->
  forall (fuel pos : nat) (ap : va_list) (attri : Z),
    (pos <= List.length s)%nat ->
    vprintfmt_loop E (vprintfmt_rec (S depth) E) fuel fmt pos ap attri
    <> Fault ReadPastEnd.
Proof.
  intros Hend.
  induction fuel as [|fuel IH]; intros pos ap attri Hpos; [discriminate|].
  cbn [vprintfmt_loop].
  apply bind_avoids; [apply literal_in_string; exact Hpos|].
  intros [out1 [p1|]] Hlit; [|discriminate].
  apply literal_next in Hlit. destruct Hlit as [Hlt Hpc].
  pose proof (read_uchar_inv _ _ _ Hpc) as (b & Hb & Hc).
  assert (Hp1 : (p1 <= List.length s)%nat).
  { assert (Hnz : to_uchar b <> 0) by (rewrite Hc; discriminate).
    pose proof (nonzero_index _ _ Hb Hnz). lia. }
  apply bind_avoids; [apply reswitch_in_string; exact Hp1|].
  intros [[[ch pos2] d] ap2] Hres.
  apply bind_avoids.
  { eapply convert_in_string; [exact Hend | | exact Hpc | exact Hres]. lia. }
  intros [[[out2 pos3] ap3] attri3] Hconv.
  apply bind_avoids; [|intros out3 _; discriminate].
  apply IH.
  pose proof (reswitch_scan _ _ _ _ _ _ _ _ _ Hres) as (Hlt2 & Hrd & _ & Hm).
  pose proof (read_uchar_inv _ _ _ Hrd) as (b2 & Hb2 & Hc2).
  destruct (convert_pos _ _ _ _ _ _ _ _ _ _ _ _ Hconv)
    as [[Hcv [-> | (_ & -> & c & Hrc)]] | [_ Hrew]].
  - assert (Hnz : to_uchar b2 <> 0).
    { rewrite Hc2. intros ->. discriminate. }
    pose proof (nonzero_index _ _ Hb2 Hnz). lia.
  - apply read_char_inv in Hrc. destruct Hrc as (b3 & Hb3 & _).
    destruct (c_string_index _ _ Hb3) as [[? _] | [? _]]; lia.
  - rewrite (rewind_to_percent fmt p1 (Nat.pred pos2)) in Hrew.
    + injection Hrew as <-. exact Hp1.
    + lia.
    + apply read_percent_signed. exact Hpc.
    + exact Hm.
Qed.

End InString.

(** For the array of a string that does not end in ['B'] or ['F'], the call
    ends and reads no byte after the terminating zero: it returns, or the
    arguments do not fit the format ([BadArg]), or the error code of a [%e]
    is INT_MIN ([BadIndex]). *)
Theorem vprintfmt_within_string (E : error_h) (fmt s : list Z)
  (ap : va_list) :
  c_string_of fmt s ->
  ~ ends_in_attribute_letter s ->
  (exists out : list Z, vprintfmt E fmt ap = Done out) \/
  vprintfmt E fmt ap = Fault BadArg \/
  vprintfmt E fmt ap = Fault BadIndex.
Proof.
  intros Hwf Hend.
  pose proof (vprintfmt_runs E fmt ap) as [Hfuel Hdiv].
  assert (Hin : vprintfmt E fmt ap <> Fault ReadPastEnd).
  { change (vprintfmt E fmt ap)
      with (vprintfmt_loop E (vprintfmt_rec 1 E) (S (List.length fmt)) fmt 0
              ap 0).
    apply (vprintfmt_loop_in_string fmt s Hwf E 0 Hend). lia. }
  destruct (vprintfmt E fmt ap) as [out | []].
  - left. exists out. reflexivity.
  - congruence.
  - right. left. reflexivity.
  - right. right. reflexivity.
  - congruence.
  - congruence.
Qed.

Lemma vprintfmt_within_string_witness :
  (exists out : list Z,
     vprintfmt jos_error_h (cstring "%5d%BR") [Aint 7] = Done out) \/
  vprintfmt jos_error_h (cstring "%5d%BR") [Aint 7] = Fault BadArg \/
  vprintfmt jos_error_h (cstring "%5d%BR") [Aint 7] = Fault BadIndex.
Proof.
  apply (vprintfmt_within_string jos_error_h (cstring "%5d%BR")
           (bytes "%5d%BR") [Aint 7]).
  - split; [reflexivity|]. repeat constructor; vm_compute; congruence.
  - intros (s' & b & Hs & Hb).
    assert (Hb' : b = chr "R").
    { apply (f_equal (@rev Z)) in Hs. rewrite rev_app_distr in Hs.
      vm_compute in Hs. injection Hs as Hs _. vm_compute. congruence. }
    subst b. vm_compute in Hb. destruct Hb; congruence.
Defined.

(** * Further properties of the engine *)

(** ** Text without directives *)

Lemma literal_copy (fmt : list Z) (attri : Z) (fuel : nat) :
  forall (n pos : nat),
    (forall k : nat, (pos <= k < pos + n)%nat ->
       exists b : Z, nth_error fmt k = Some b /\ plain_byte b) ->
    literal (n + fuel) fmt pos attri =
    '(out, next) <- literal fuel fmt (pos + n) attri ;;
    Done (map (fun b => Z.lor (to_uchar b) attri) (firstn n (skipn pos fmt))
          ++ out, next).
Proof.
  induction n as [|n IH]; intros pos Hm.
  - rewrite Nat.add_0_r. cbn [Nat.add firstn map app].
    destruct (literal fuel fmt pos attri) as [[out next]|]; reflexivity.
  - cbn [Nat.add]. rewrite literal_S.
    destruct (Hm pos ltac:(lia)) as (b & Hb & Hnz & Hnp).
    unfold read_uchar. rewrite Hb. cbn [bind].
    replace (to_uchar b =? chr "%") with false
      by (symmetry; apply Z.eqb_neq; exact Hnp).
    replace (to_uchar b =? 0) with false
      by (symmetry; apply Z.eqb_neq; exact Hnz).
    rewrite IH by (intros k Hk; apply Hm; lia).
    replace (S pos + n)%nat with (pos + S n)%nat by lia.
    rewrite (skipn_nth_error fmt pos b Hb). cbn [firstn map app].
    destruct (literal fuel fmt (pos + S n) attri) as [[out next]|];
      reflexivity.
Qed.

Lemma plain_prefix (s rest : list Z) :
  Forall plain_byte s ->
  forall k : nat, (0 <= k < 0 + List.length s)%nat ->
    exists b : Z, nth_error (s ++ rest) k = Some b /\ plain_byte b.
Proof.
  intros Hs k Hk. rewrite nth_error_app1 by lia.
  destruct (nth_error s k) as [b|] eqn:Hb.
  - exists b. split; [reflexivity|].
    rewrite Forall_forall in Hs. apply Hs. eapply nth_error_In. exact Hb.
  - apply nth_error_None in Hb. lia.
Qed.

Lemma firstn_length_app (s rest : list Z) :
  firstn (List.length s) (s ++ rest) = s.
Proof.
  rewrite firstn_app, Nat.sub_diag, firstn_all. cbn [firstn].
  apply app_nil_r.
Qed.

Lemma map_lor_0 (s : list Z) :
  map (fun b => Z.lor (to_uchar b) 0) s = map to_uchar s.
Proof. apply map_ext. intros b. apply Z.lor_0_r. Qed.

(** A format without ['%'] is copied byte by byte, as unsigned characters
    without attribute, whatever the arguments are; a ['%'] right before the
    terminating zero is copied too. *)
Theorem plain_text_is_copied (E : error_h) (s : list Z) (ap : va_list) :
  Forall plain_byte s ->
  vprintfmt E (s ++ [0]) ap = Done (map to_uchar s) /\
  vprintfmt E (s ++ [chr "%"; 0]) ap = Done (map to_uchar s ++ [chr "%"]).
Proof.
  intros Hs. split.
  - change (vprintfmt E (s ++ [0]) ap)
      with (vprintfmt_loop E (vprintfmt_rec 1 E)
              (S (List.length (s ++ [0]))) (s ++ [0]) 0 ap 0).
    apply vprintfmt_loop_end.
    replace (S (List.length (s ++ [0]))) with (List.length s + 2)%nat
      by (rewrite length_app; cbn [List.length]; lia).
    rewrite literal_copy by (apply plain_prefix; exact Hs).
    cbn [Nat.add]. rewrite literal_S. unfold read_uchar.
    rewrite nth_error_middle. cbn [bind].
    change (to_uchar 0 =? chr "%") with false.
    change (to_uchar 0 =? 0) with true. cbv iota.
    cbn [bind skipn]. rewrite firstn_length_app, app_nil_r, map_lor_0.
    reflexivity.
  - set (fmt := s ++ [chr "%"; 0]).
    assert (Hlen : List.length fmt = (List.length s + 2)%nat)
      by (unfold fmt; rewrite length_app; reflexivity).
    assert (Hlit : literal (S (List.length fmt)) fmt 0 0 =
                   Done (map to_uchar s, Some (S (List.length s)))).
    { rewrite Hlen.
      replace (S (List.length s + 2)) with (List.length s + 3)%nat by lia.
      unfold fmt. rewrite literal_copy by (apply plain_prefix; exact Hs).
      cbn [Nat.add]. rewrite literal_S. unfold read_uchar.
      rewrite nth_error_middle. cbn [bind].
      change (to_uchar (chr "%") =? chr "%") with true. cbv iota.
      cbn [bind skipn]. rewrite firstn_length_app, app_nil_r, map_lor_0.
      reflexivity. }
    assert (Hn1 : nth_error fmt (S (List.length s)) = Some 0).
    { unfold fmt.
      replace (S (List.length s)) with (List.length s + 1)%nat by lia.
      rewrite nth_error_app_offset. reflexivity. }
    assert (Hn0 : nth_error fmt (List.length s) = Some (chr "%")).
    { unfold fmt. apply nth_error_middle. }
    assert (Hres : forall ap0 : va_list,
      reswitch (S (List.length fmt)) fmt (S (List.length s)) init_directive
        ap0 = Done (0, S (S (List.length s)), init_directive, ap0)).
    { intros ap0. rewrite reswitch_S. unfold read_uchar. rewrite Hn1.
      reflexivity. }
    assert (Hconv :
      convert E (vprintfmt_rec 1 E) 0 fmt (S (S (List.length s)))
        init_directive ap 0 =
      Done ([chr "%"], S (List.length s), ap, 0)).
    { rewrite convert_default by reflexivity. cbn [Nat.pred rewind].
      unfold read_char. rewrite Hn0. reflexivity. }
    change (vprintfmt E fmt ap)
      with (vprintfmt_loop E (vprintfmt_rec 1 E) (S (List.length fmt)) fmt 0
              ap 0).
    rewrite (vprintfmt_loop_step _ _ _ _ _ _ _ _ _ _ _ _ _ _ _ _ _
               Hlit (Hres ap) Hconv).
    rewrite Hlen. replace (List.length s + 2)%nat
      with (S (List.length s + 1)) by lia.
    erewrite vprintfmt_loop_end.
    + cbn [bind app]. reflexivity.
    + rewrite literal_S. unfold read_uchar. rewrite Hn1. reflexivity.
Qed.

Lemma plain_text_is_copied_witness :
  vprintfmt jos_error_h (bytes "kernel: ok" ++ [0]) [Aint 1] =
  Done (bytes "kernel: ok").
Proof.
  exact (proj1 (plain_text_is_copied jos_error_h (bytes "kernel: ok")
    [Aint 1]
    ltac:(repeat constructor; vm_compute; congruence))).
Defined.

(** ** The numeric conversions *)

Lemma to_llong_ullong (z : Z) : to_llong (to_ullong z) = to_llong z.
Proof.
  unfold to_llong, to_ullong, to_signed, to_unsigned.
  change (2 ^ (64 - 1)) with (2 ^ 63).
  rewrite Z.add_mod_idemp_l by lia. reflexivity.
Qed.

Lemma to_ullong_llong (z : Z) : to_ullong (to_llong z) = to_ullong z.
Proof.
  unfold to_llong, to_ullong, to_signed, to_unsigned.
  change (2 ^ (64 - 1)) with (2 ^ 63).
  rewrite Zminus_mod_idemp_l. f_equal. lia.
Qed.

Lemma number_closed_form (num base : Z) (d : directive) (attri : Z) :
  2 <= base ->
  0 <= num <= ULLONG_MAX ->
  INT_MIN + 65 <= width d <= INT_MAX ->
  number num base d attri =
  Done (number_output num base (width d) (Z.lor (padc d) attri)).
Proof.
  intros Hb Hn Hw. unfold number, number_output.
  apply printnum_closed_form; assumption.
Qed.

Lemma number_output_length (num base w padc : Z) :
  Z.of_nat (List.length (number_output num base w padc)) =
  Z.max w (digitCount num base).
Proof.
  unfold number_output. rewrite length_app, length_map, repeat_length.
  pose proof (digitCount_pos base num). unfold digitCount in *. lia.
Qed.

Lemma case_d_closed_form (n : Z) (d : directive) (attri : Z) :
  - 2 ^ 63 <= n < 2 ^ 63 ->
  INT_MIN + 65 <= width d <= INT_MAX ->
  case_d n d attri =
  Done (sign_of n attri
        ++ number_output (Z.abs n) 10 (width d) (Z.lor (padc d) attri)).
Proof.
  intros Hn Hw. unfold case_d, sign_of.
  rewrite to_llong_ullong, to_llong_id by exact Hn.
  destruct (n <? 0) eqn:Hneg.
  - apply Z.ltb_lt in Hneg.
    rewrite to_ullong_llong.
    rewrite (to_ullong_id (- n)) by (unfold ULLONG_MAX; lia).
    rewrite number_closed_form by (unfold ULLONG_MAX; lia || assumption).
    cbn [bind app]. replace (Z.abs n) with (- n) by lia. reflexivity.
  - apply Z.ltb_ge in Hneg.
    rewrite to_ullong_id by (unfold ULLONG_MAX; lia).
    rewrite number_closed_form by (unfold ULLONG_MAX; lia || assumption).
    cbn [app]. replace (Z.abs n) with n by lia. reflexivity.
Qed.

(** [%d]: the sign comes before the pad characters and the width does not
    count it, so that a negative number takes [1 + max (width, digits)]
    characters; the magnitude is right for every [long long], the most
    negative one included. *)
Theorem case_d_sign_then_padding (E : error_h)
  (pc : list Z -> va_list -> result (list Z)) (fmt : list Z) (pos : nat)
  (d : directive) (ap : va_list) (attri i : Z) :
  lflag d = 0 ->
  INT_MIN <= i <= INT_MAX ->
  INT_MIN + 65 <= width d <= INT_MAX ->
  convert E pc (chr "d") fmt pos d (Aint i :: ap) attri =
  Done (sign_of i attri
        ++ repeat (Z.lor (padc d) attri)
             (Z.to_nat (width d - digitCount (Z.abs i) 10))
        ++ map (put_digit (Z.lor (padc d) attri)) (digits 10 (Z.abs i)),
        pos, ap, attri) /\
  Z.of_nat (List.length
              (sign_of i attri
               ++ number_output (Z.abs i) 10 (width d)
                    (Z.lor (padc d) attri))) =
  (if i <? 0 then 1 else 0) + Z.max (width d) (digitCount (Z.abs i) 10).
Proof.
  intros Hl Hi Hw. split.
  - unfold convert. eval_chr_eqb. unfold getint. rewrite Hl.
    change (2 <=? 0) with false. change (negb (0 =? 0)) with false.
    cbv iota. cbn [bind].
    rewrite to_int_id by exact Hi.
    rewrite to_llong_id by (unfold INT_MIN, INT_MAX in Hi; lia).
    rewrite case_d_closed_form
      by (unfold INT_MIN, INT_MAX in Hi; lia || assumption).
    reflexivity.
  - rewrite length_app, Nat2Z.inj_add, number_output_length.
    unfold sign_of. destruct (i <? 0); reflexivity.
Qed.

Lemma case_d_sign_then_padding_witness :
  convert jos_error_h (vprintfmt_rec 1 jos_error_h) (chr "d")
    (cstring "%05d") 4 (set_width (set_padc init_directive (chr "0")) 5)
    [Aint (- 42)] 0 =
  Done (bytes "-00042", 4%nat, [], 0).
Proof.
  exact (proj1 (case_d_sign_then_padding jos_error_h
    (vprintfmt_rec 1 jos_error_h) (cstring "%05d") 4
    (set_width (set_padc init_directive (chr "0")) 5) [] 0 (- 42)
    ltac:(reflexivity)
    ltac:(unfold INT_MIN, INT_MAX; lia)
    ltac:(unfold INT_MIN, INT_MAX; simpl; lia))).
Defined.

Lemma map_put_digit_plain (c : Z) (ds : list Z) :
  Z.land c 0xff00 = 0 -> map (put_digit c) ds = map digit_char ds.
Proof.
  intros Hc. apply map_ext. intros d. apply put_digit_plain. exact Hc.
Qed.

(** ["%*d"]: the first argument is the width, the second one the number; a
    width that is negative or smaller than the number of digits pads
    nothing. *)
Theorem star_width_decimal (E : error_h) (w i : Z) :
  INT_MIN + 65 <= w <= INT_MAX ->
  INT_MIN <= i <= INT_MAX ->
  vprintfmt E (cstring "%*d") [Aint w; Aint i] =
  Done ((if i <? 0 then [chr "-"] else [])
        ++ repeat (chr " ") (Z.to_nat (w - digitCount (Z.abs i) 10))
        ++ map digit_char (digits 10 (Z.abs i))).
Proof.
  intros Hw Hi.
  assert (Hconv :
    convert E (vprintfmt_rec 1 E) (chr "d") (cstring "%*d") 3
      (process_precision (set_precision init_directive (to_int w)))
      [Aint i] 0 =
    Done ((if i <? 0 then [chr "-"] else [])
          ++ repeat (chr " ") (Z.to_nat (w - digitCount (Z.abs i) 10))
          ++ map digit_char (digits 10 (Z.abs i)), 3%nat, [], 0)).
  { unfold convert. eval_chr_eqb. unfold getint.
    change (lflag (process_precision
                     (set_precision init_directive (to_int w)))) with 0.
    change (2 <=? 0) with false. change (negb (0 =? 0)) with false.
    cbv iota. cbn [bind].
    rewrite (to_int_id i) by exact Hi.
    rewrite to_llong_id by (unfold INT_MIN, INT_MAX in Hi; lia).
    change (process_precision (set_precision init_directive (to_int w)))
      with {| padc := chr " "; width := to_int w; precision := -1;
              lflag := 0; altflag := 0 |}.
    rewrite to_int_id by (unfold INT_MIN, INT_MAX in *; lia).
    rewrite case_d_closed_form
      by (unfold INT_MIN, INT_MAX in Hi; cbn [width]; lia || assumption).
    cbn [bind width padc]. unfold number_output, sign_of.
    change (Z.lor (chr " ") 0) with (chr " ").
    change (Z.lor (chr "-") 0) with (chr "-").
    rewrite map_put_digit_plain by reflexivity. reflexivity. }
  change (vprintfmt E (cstring "%*d") [Aint w; Aint i])
    with (vprintfmt_loop E (vprintfmt_rec 1 E) 5 (cstring "%*d") 0
            [Aint w; Aint i] 0).
  erewrite vprintfmt_loop_step; [| reflexivity | reflexivity | exact Hconv].
  erewrite vprintfmt_loop_end; [| reflexivity].
  cbn [bind app]. rewrite app_nil_r. reflexivity.
Qed.

Lemma star_width_decimal_witness :
  vprintfmt jos_error_h (cstring "%*d") [Aint 6; Aint (- 2147483648)] =
  Done (bytes "-2147483648").
Proof.
  exact (star_width_decimal jos_error_h 6 (- 2147483648)
    ltac:(unfold INT_MIN, INT_MAX; lia)
    ltac:(unfold INT_MIN, INT_MAX; lia)).
Defined.

Lemma to_uint_range (z : Z) : 0 <= to_uint z < 2 ^ 32.
Proof. unfold to_uint, to_unsigned. apply Z.mod_pos_bound. lia. Qed.

Lemma plain_number (E : error_h) (fmt : list Z) (c : ascii)
  (base : Z) (a : arg) (num : Z) (p1 p2 : nat) :
  2 <= base ->
  0 <= num <= ULLONG_MAX ->
  literal (S (List.length fmt)) fmt 0 0 = Done ([], Some p1) ->
  reswitch (S (List.length fmt)) fmt p1 init_directive [a] =
    Done (chr c, p2, init_directive, [a]) ->
  convert E (vprintfmt_rec 1 E) (chr c) fmt p2 init_directive [a] 0 =
    (out <- number num base init_directive 0 ;; Done (out, p2, [], 0)) ->
  literal (S (List.length fmt)) fmt p2 0 = Done ([], None) ->
  vprintfmt E fmt [a] = Done (map digit_char (digits base num)).
Proof.
  intros Hb Hn Hlit Hres Hconv Hend.
  rewrite number_closed_form in Hconv
    by (assumption || (unfold INT_MIN, INT_MAX; cbn; lia)).
  cbn [bind] in Hconv.
  change (vprintfmt E fmt [a])
    with (vprintfmt_loop E (vprintfmt_rec 1 E) (S (List.length fmt)) fmt 0
            [a] 0).
  rewrite (vprintfmt_loop_step _ _ _ _ _ _ _ _ _ _ _ _ _ _ _ _ _
             Hlit Hres Hconv).
  destruct fmt as [|b fmt']; [discriminate|].
  cbn [List.length] in *.
  rewrite (vprintfmt_loop_end _ _ _ _ _ _ _ _ Hend).
  cbn [bind app]. rewrite app_nil_r. unfold number_output.
  cbn [width padc init_directive].
  pose proof (digitCount_pos base num).
  replace (Z.to_nat (-1 - digitCount num base)) with 0%nat by lia.
  cbn [repeat app]. f_equal. apply map_put_digit_plain. reflexivity.
Qed.

(** [%u], [%o] and [%x] take the argument as an unsigned number of its
    width: an [int] is written modulo [2^32], an argument taken with [ll]
    modulo [2^64], without sign and without padding. *)
Theorem unsigned_conversions (E : error_h) (i : Z) :
  vprintfmt E (cstring "%u") [Aint i] =
    Done (map digit_char (digits 10 (to_uint i))) /\
  vprintfmt E (cstring "%o") [Aint i] =
    Done (map digit_char (digits 8 (to_uint i))) /\
  vprintfmt E (cstring "%x") [Aint i] =
    Done (map digit_char (digits 16 (to_uint i))) /\
  vprintfmt E (cstring "%llx") [Alonglong i] =
    Done (map digit_char (digits 16 (to_ullong i))) /\
  to_uint (- 1) = 2 ^ 32 - 1.
Proof.
  pose proof (to_uint_range i) as Hu.
  pose proof (to_ullong_range i) as Hull.
  assert (Hu' : 0 <= to_uint i <= ULLONG_MAX) by (unfold ULLONG_MAX; lia).
  split; [|split; [|split; [|split; [|reflexivity]]]].
  - apply (plain_number E (cstring "%u") "u" 10 (Aint i) (to_uint i) 1 2);
      try reflexivity; try lia; try exact Hu'.
    unfold convert. eval_chr_eqb. unfold getuint. cbn [bind].
    rewrite to_ullong_id by exact Hu'. reflexivity.
  - apply (plain_number E (cstring "%o") "o" 8 (Aint i) (to_uint i) 1 2);
      try reflexivity; try lia; try exact Hu'.
    unfold convert. eval_chr_eqb. unfold getuint. cbn [bind].
    rewrite to_ullong_id by exact Hu'. reflexivity.
  - apply (plain_number E (cstring "%x") "x" 16 (Aint i) (to_uint i) 1 2);
      try reflexivity; try lia; try exact Hu'.
    unfold convert. eval_chr_eqb. unfold getuint. cbn [bind].
    rewrite to_ullong_id by exact Hu'. reflexivity.
  - change (vprintfmt E (cstring "%llx") [Alonglong i])
      with (vprintfmt_loop E (vprintfmt_rec 1 E) 6 (cstring "%llx") 0
              [Alonglong i] 0).
    assert (Hconv :
      convert E (vprintfmt_rec 1 E) (chr "x") (cstring "%llx") 4
        (set_lflag (set_lflag init_directive 1) 2) [Alonglong i] 0 =
      Done (map digit_char (digits 16 (to_ullong i)), 4%nat, [], 0)).
    { unfold convert. eval_chr_eqb. unfold getuint.
      cbn [lflag set_lflag]. change (2 <=? 2) with true. cbv iota.
      cbn [bind].
      rewrite number_closed_form
        by (exact Hull || lia || (unfold INT_MIN, INT_MAX; cbn; lia)).
      cbn [bind]. unfold number_output.
      cbn [width padc set_lflag init_directive].
      pose proof (digitCount_pos 16 (to_ullong i)).
      replace (Z.to_nat (-1 - digitCount (to_ullong i) 16)) with 0%nat
        by lia.
      cbn [repeat app]. rewrite map_put_digit_plain by reflexivity.
      reflexivity. }
    erewrite vprintfmt_loop_step; [| reflexivity | reflexivity | exact Hconv].
    erewrite vprintfmt_loop_end; [| reflexivity].
    cbn [bind app]. rewrite app_nil_r. reflexivity.
Qed.

Example minus_one_as_hex : forall E : error_h,
  vprintfmt E (cstring "%x") [Aint (- 1)] = Done (bytes "ffffffff").
Proof. reflexivity. Qed.



Lemma convert_p_closed_form (E : error_h)
  (pc : list Z -> va_list -> result (list Z)) (fmt : list Z) (pos : nat)
  (d : directive) (ap : va_list) (attri a : Z) :
  INT_MIN + 65 <= width d <= INT_MAX ->
  convert E pc (chr "p") fmt pos d (Aptr a :: ap) attri =
  Done (Z.lor (chr "0") attri :: Z.lor (chr "x") attri
          :: number_output (a mod 2 ^ 32) 16 (width d)
               (Z.lor (padc d) attri), pos, ap, attri).
Proof.
  intros Hw.
  assert (Hr : 0 <= a mod 2 ^ 32 < 2 ^ 32) by (apply Z.mod_pos_bound; lia).
  assert (Hu : to_ullong (to_unsigned uintptr_bits a) = a mod 2 ^ 32).
  { unfold to_unsigned, uintptr_bits. apply to_ullong_id.
    unfold ULLONG_MAX. lia. }
  unfold convert. eval_chr_eqb. cbn [va_arg_ptr bind]. rewrite Hu.
  rewrite number_closed_form by (unfold ULLONG_MAX; lia || assumption).
  reflexivity.
Qed.

(** [%p]: ["0x"] comes first and is not part of the field: the pad
    characters stand between the prefix and the digits, and the output has
    [2 + max (width, digits)] characters. *)
Theorem pointer_prefix_then_padding (E : error_h)
  (pc : list Z -> va_list -> result (list Z)) (fmt : list Z) (pos : nat)
  (d : directive) (ap : va_list) (attri a : Z) :
  INT_MIN + 65 <= width d <= INT_MAX ->
  convert E pc (chr "p") fmt pos d (Aptr a :: ap) attri =
  Done (Z.lor (chr "0") attri :: Z.lor (chr "x") attri
          :: repeat (Z.lor (padc d) attri)
               (Z.to_nat (width d - digitCount (a mod 2 ^ 32) 16))
          ++ map (put_digit (Z.lor (padc d) attri))
               (digits 16 (a mod 2 ^ 32)),
        pos, ap, attri) /\
  Z.of_nat (List.length
              (Z.lor (chr "0") attri :: Z.lor (chr "x") attri
                 :: number_output (a mod 2 ^ 32) 16 (width d)
                      (Z.lor (padc d) attri))) =
  2 + Z.max (width d) (digitCount (a mod 2 ^ 32) 16) /\
  vprintfmt E (cstring "%p") [Aptr a] =
  Done (bytes "0x" ++ map digit_char (digits 16 (a mod 2 ^ 32))).
Proof.
  intros Hw.
  split; [apply convert_p_closed_form; exact Hw|]. split.
  - cbn [List.length]. rewrite !Nat2Z.inj_succ, number_output_length. lia.
  - change (vprintfmt E (cstring "%p") [Aptr a])
      with (vprintfmt_loop E (vprintfmt_rec 1 E) 4 (cstring "%p") 0
              [Aptr a] 0).
    erewrite vprintfmt_loop_step;
      [| reflexivity | reflexivity
       | apply convert_p_closed_form; unfold INT_MIN, INT_MAX; cbn; lia].
    erewrite vprintfmt_loop_end; [| reflexivity].
    cbn [bind app]. rewrite app_nil_r. unfold number_output.
    cbn [width padc init_directive].
    pose proof (digitCount_pos 16 (a mod 2 ^ 32)).
    replace (Z.to_nat (-1 - digitCount (a mod 2 ^ 32) 16)) with 0%nat by lia.
    cbn [repeat app]. rewrite map_put_digit_plain by reflexivity.
    reflexivity.
Qed.

Lemma pointer_prefix_then_padding_witness :
  convert jos_error_h (vprintfmt_rec 1 jos_error_h) (chr "p")
    (cstring "%8p") 3 (set_width init_directive 8) [Aptr 0xf0100000] 0 =
  Done (bytes "0xf0100000", 3%nat, [], 0).
Proof.
  exact (proj1 (pointer_prefix_then_padding jos_error_h
    (vprintfmt_rec 1 jos_error_h) (cstring "%8p") 3
    (set_width init_directive 8) [] 0 0xf0100000
    ltac:(unfold INT_MIN, INT_MAX; simpl; lia))).
Defined.

Example pointer_padded : forall E : error_h,
  vprintfmt E (cstring "%6p") [Aptr 0x1000] = Done (bytes "0x  1000").
Proof. reflexivity. Qed.

(** ** The depth of the recursion of printnum *)

Lemma digits_lsb_lower_bound (b : Z) (Hb : 2 <= b) :
  forall (g : nat) (v : Z),
    0 < v < 2 ^ Z.of_nat g ->
    b ^ (Z.of_nat (List.length (digits_lsb g b v)) - 1) <= v.
Proof.
  induction g as [|g IH]; intros v Hv; [simpl in Hv; lia|].
  cbn [digits_lsb]. destruct (v / b =? 0) eqn:Hq.
  - cbn [List.length]. change (Z.of_nat 1 - 1) with 0. simpl. lia.
  - apply Z.eqb_neq in Hq.
    assert (Hq0 : 0 <= v / b) by (apply Z.div_pos; lia).
    rewrite pow2_S in Hv.
    assert (Hq2 : v / b <= v / 2) by (apply Z.div_le_compat_l; lia).
    assert (Hq3 : v / 2 < 2 ^ Z.of_nat g)
      by (apply Z.div_lt_upper_bound; lia).
    specialize (IH (v / b) ltac:(lia)).
    cbn [List.length].
    pose proof (digits_lsb_length_pos b (v / b) (Nat.pred g)) as Hlen.
    assert (Hg : g = S (Nat.pred g)).
    { destruct g; [simpl in Hq3; lia | reflexivity]. }
    rewrite <- Hg in Hlen.
    replace (Z.of_nat (S (List.length (digits_lsb g b (v / b)))) - 1)
      with (Z.succ (Z.of_nat (List.length (digits_lsb g b (v / b))) - 1))
      by lia.
    rewrite Z.pow_succ_r by lia.
    pose proof (Z.mul_div_le v b ltac:(lia)). nia.
Qed.

Lemma printnum_too_shallow (b padc : Z) (Hb : 2 <= b) :
  forall (fuel g : nat) (v w : Z),
    0 <= v < 2 ^ Z.of_nat g ->
    (fuel < List.length (digits_lsb g b v))%nat ->
    printnum fuel v b w padc = Fault OutOfFuel.
Proof.
  induction fuel as [|fuel IH]; intros g v w Hv Hf; [reflexivity|].
  destruct g as [|g]; [cbn in Hf; lia|].
  cbn [digits_lsb] in Hf. rewrite printnum_S.
  replace (b =? 0) with false by (symmetry; apply Z.eqb_neq; lia).
  destruct (v / b =? 0) eqn:Hq; [cbn [List.length] in Hf; lia|].
  apply Z.eqb_neq in Hq. cbn [List.length] in Hf.
  assert (Hbv : b <= v).
  { destruct (Z_le_gt_dec b v); [assumption|].
    rewrite Z.div_small in Hq by lia. congruence. }
  replace (b <=? v) with true by (symmetry; apply Z.leb_le; exact Hbv).
  rewrite pow2_S in Hv.
  rewrite (IH g (v / b)); [reflexivity | | lia].
  split; [apply Z.div_pos; lia|].
  apply Z.le_lt_trans with (v / 2).
  - apply Z.div_le_compat_l; lia.
  - apply Z.div_lt_upper_bound; lia.
Qed.

Lemma printnum_deep_enough (b padc : Z) (Hb : 2 <= b) :
  forall (fuel g : nat) (v w : Z),
    0 <= v < 2 ^ Z.of_nat g ->
    (1 <= g)%nat ->
    (List.length (digits_lsb g b v) <= fuel)%nat ->
    exists out : list Z, printnum fuel v b w padc = Done out.
Proof.
  induction fuel as [|fuel IH]; intros g v w Hv Hg Hf.
  - destruct g; [lia | cbn in Hf; lia].
  - destruct g as [|g]; [lia|].
    cbn [digits_lsb] in Hf. rewrite printnum_S.
    replace (b =? 0) with false by (symmetry; apply Z.eqb_neq; lia).
    destruct (b <=? v) eqn:Hbv.
    + apply Z.leb_le in Hbv.
      assert (Hq : 0 < v / b) by (apply Z.div_str_pos; lia).
      replace (v / b =? 0) with false in Hf
        by (symmetry; apply Z.eqb_neq; lia).
      cbn [List.length] in Hf. rewrite pow2_S in Hv.
      assert (Hq3 : v / b < 2 ^ Z.of_nat g).
      { apply Z.le_lt_trans with (v / 2).
        - apply Z.div_le_compat_l; lia.
        - apply Z.div_lt_upper_bound; lia. }
      destruct (IH g (v / b) (to_int (w - 1))) as [out Hout];
        [lia | destruct g; [simpl in Hq3; lia | lia] | lia |].
      rewrite Hout. eexists. reflexivity.
    + destruct (printnum_pad_done padc (Z.to_nat (to_int (w - 1))) w)
        as [out Hout]; [lia|].
      rewrite Hout. eexists. reflexivity.
Qed.

(** The recursion of [printnum] is as deep as the number has digits: with
    that many nested calls it returns and with fewer it does not; for an
    [unsigned long long] that is at most 22 calls in base 8, 20 in base 10
    and 16 in base 16. *)
Theorem printnum_depth (b v w padc : Z) :
  b = 8 \/ b = 10 \/ b = 16 ->
  0 <= v <= ULLONG_MAX ->
  (forall fuel : nat,
     digitCount v b <= Z.of_nat fuel ->
     exists out : list Z, printnum fuel v b w padc = Done out) /\
  (forall fuel : nat,
     Z.of_nat fuel < digitCount v b ->
     printnum fuel v b w padc = Fault OutOfFuel) /\
  digitCount v b <= (if b =? 8 then 22 else if b =? 10 then 20 else 16).
Proof.
  intros Hb Hv. unfold ULLONG_MAX in Hv.
  assert (Hv64 : 0 <= v < 2 ^ Z.of_nat 64)
    by (change (Z.of_nat 64) with 64; lia).
  assert (Hb2 : 2 <= b) by lia.
  unfold digitCount, digits. rewrite length_rev.
  split; [|split].
  - intros fuel Hf. apply (printnum_deep_enough b padc Hb2 fuel 64); lia.
  - intros fuel Hf. apply (printnum_too_shallow b padc Hb2 fuel 64); lia.
  - destruct (Z.eq_dec v 0) as [-> | Hnz].
    + destruct Hb as [-> | [-> | ->]]; vm_compute; congruence.
    + pose proof (digits_lsb_lower_bound b Hb2 64 v ltac:(lia)) as Hlow.
      set (n := Z.of_nat (List.length (digits_lsb 64 b v))) in *.
      assert (Hn : 1 <= n)
        by (subst n; pose proof (digits_lsb_length_pos b v 63); lia).
      destruct Hb as [-> | [-> | ->]]; cbn [Z.eqb Pos.eqb].
      * destruct (Z_le_gt_dec n 22) as [|Hgt]; [assumption|]. exfalso.
        assert (8 ^ 22 <= 8 ^ (n - 1)) by (apply Z.pow_le_mono_r; lia).
        change (8 ^ 22) with 73786976294838206464 in *.
        change (2 ^ 64) with 18446744073709551616 in *. lia.
      * destruct (Z_le_gt_dec n 20) as [|Hgt]; [assumption|]. exfalso.
        assert (10 ^ 20 <= 10 ^ (n - 1)) by (apply Z.pow_le_mono_r; lia).
        change (10 ^ 20) with 100000000000000000000 in *.
        change (2 ^ 64) with 18446744073709551616 in *. lia.
      * destruct (Z_le_gt_dec n 16) as [|Hgt]; [assumption|]. exfalso.
        assert (16 ^ 16 <= 16 ^ (n - 1)) by (apply Z.pow_le_mono_r; lia).
        change (16 ^ 16) with 18446744073709551616 in *.
        change (2 ^ 64) with 18446744073709551616 in *. lia.
Qed.

Lemma printnum_depth_witness :
  (forall fuel : nat,
     digitCount ULLONG_MAX 8 <= Z.of_nat fuel ->
     exists out : list Z, printnum fuel ULLONG_MAX 8 0 (chr " ") = Done out) /\
  (forall fuel : nat,
     Z.of_nat fuel < digitCount ULLONG_MAX 8 ->
     printnum fuel ULLONG_MAX 8 0 (chr " ") = Fault OutOfFuel) /\
  digitCount ULLONG_MAX 8 <= 22.
Proof.
  exact (printnum_depth 8 ULLONG_MAX 0 (chr " ")
    ltac:(left; reflexivity) ltac:(unfold ULLONG_MAX; lia)).
Defined.

Example deepest_recursion : digitCount ULLONG_MAX 8 = 22.
Proof. reflexivity. Qed.

(** ** The attribute *)

Lemma attribute_lor (a k : Z) :
  attribute a -> attribute k -> attribute (Z.lor a k).
Proof.
  unfold attribute. intros Ha Hk.
  rewrite Z.land_lor_distr_l, Ha, Hk. reflexivity.
Qed.

Lemma attribute_land (a m : Z) : attribute a -> attribute (Z.land a m).
Proof.
  unfold attribute. intros Ha.
  rewrite <- Z.land_assoc, (Z.land_comm m), Z.land_assoc, Ha. reflexivity.
Qed.

Lemma land_lor_outside (a k n : Z) :
  Z.land k n = 0 -> Z.land (Z.lor a k) n = Z.land a n.
Proof.
  intros Hk. rewrite Z.land_lor_distr_l, Hk. apply Z.lor_0_r.
Qed.

Lemma land_land_outside (a m n : Z) :
  Z.land m n = n -> Z.land (Z.land a m) n = Z.land a n.
Proof. intros Hm. rewrite <- Z.land_assoc, Hm. reflexivity. Qed.

Lemma case_B_attri_cases (c a : Z) :
  case_B_attri c a = a \/
  (exists k : Z, In k [0x1000; 0x2000; 0x4000; 0x8000] /\
     (case_B_attri c a = Z.lor a k \/
      case_B_attri c a = Z.land a (Z.lnot k))).
Proof.
  unfold case_B_attri.
  repeat match goal with
    | |- context [if ?t then _ else _] => destruct t
    end;
    try (left; reflexivity);
    right;
    first [ exists 0x1000; split; [simpl; tauto|]; (left + right); reflexivity
          | exists 0x2000; split; [simpl; tauto|]; (left + right); reflexivity
          | exists 0x4000; split; [simpl; tauto|]; (left + right); reflexivity
          | exists 0x8000; split; [simpl; tauto|]; (left + right); reflexivity ].
Qed.

Lemma case_F_attri_cases (c a : Z) :
  case_F_attri c a = a \/
  (exists k : Z, In k [0x0100; 0x0200; 0x0400; 0x0800] /\
     (case_F_attri c a = Z.lor a k \/
      case_F_attri c a = Z.land a (Z.lnot k))).
Proof.
  unfold case_F_attri.
  repeat match goal with
    | |- context [if ?t then _ else _] => destruct t
    end;
    try (left; reflexivity);
    right;
    first [ exists 0x0100; split; [simpl; tauto|]; (left + right); reflexivity
          | exists 0x0200; split; [simpl; tauto|]; (left + right); reflexivity
          | exists 0x0400; split; [simpl; tauto|]; (left + right); reflexivity
          | exists 0x0800; split; [simpl; tauto|]; (left + right); reflexivity ].
Qed.

Lemma in4 (k a b c d : Z) :
  In k [a; b; c; d] -> k = a \/ k = b \/ k = c \/ k = d.
Proof. simpl. intuition congruence. Qed.

Lemma testbit_set_bit (a k n : Z) :
  0 <= k -> 0 <= n ->
  Z.testbit (Z.lor a (2 ^ k)) n = if n =? k then true else Z.testbit a n.
Proof.
  intros Hk Hn. rewrite Z.lor_spec, Z.pow2_bits_eqb by exact Hk.
  rewrite (Z.eqb_sym k n).
  destruct (n =? k); [apply orb_true_r | apply orb_false_r].
Qed.

Lemma testbit_clear_bit (a k n : Z) :
  0 <= k -> 0 <= n ->
  Z.testbit (Z.land a (Z.lnot (2 ^ k))) n =
  if n =? k then false else Z.testbit a n.
Proof.
  intros Hk Hn. rewrite Z.land_spec, Z.lnot_spec by exact Hn.
  rewrite Z.pow2_bits_eqb by exact Hk. rewrite (Z.eqb_sym k n).
  destruct (n =? k); [apply andb_false_r | apply andb_true_r].
Qed.

Lemma convert_B (E : error_h)
  (pc : list Z -> va_list -> result (list Z)) (fmt : list Z) (pos : nat)
  (d : directive) (ap : va_list) (attri c c' : Z) :
  nth_error fmt pos = Some c ->
  nth_error fmt (S pos) = Some c' ->
  convert E pc (chr "B") fmt pos d ap attri =
  Done ([], S pos, ap, case_B_attri (to_schar c) attri).
Proof.
  intros Hc Hc'. unfold convert. eval_chr_eqb.
  unfold read_char. rewrite Hc, Hc'. reflexivity.
Qed.

Lemma convert_F (E : error_h)
  (pc : list Z -> va_list -> result (list Z)) (fmt : list Z) (pos : nat)
  (d : directive) (ap : va_list) (attri c c' : Z) :
  nth_error fmt pos = Some c ->
  nth_error fmt (S pos) = Some c' ->
  convert E pc (chr "F") fmt pos d ap attri =
  Done ([], S pos, ap, case_F_attri (to_schar c) attri).
Proof.
  intros Hc Hc'. unfold convert. eval_chr_eqb.
  unfold read_char. rewrite Hc, Hc'. reflexivity.
Qed.

(** The attribute letters: [%B] changes bits of 0xf000 only and [%F] bits
    of 0x0f00 only, whatever the letter after it is, so that the attribute
    stays within 0xff00; a second letter of the same changes nothing more,
    and the small one undoes the capital one on an attribute that did not
    have the bit.  Each of the sixteen letters does what the table
    [colour_letter] says, bit by bit: after [%B] the letters B, G, R, I set
    the bits 12, 13, 14, 15 and b, g, r, i clear them, after [%F] the same
    letters set and clear the bits 8, 9, 10, 11, every other bit is kept,
    and any other character keeps the attribute.  In the engine the letter
    is the [char] after the ['B'] or ['F'], it is consumed whatever it is,
    and the attribute that two directives leave is on the text after
    them. *)
Theorem attribute_letters (c a : Z) :
  Z.land (case_B_attri c a) 0x0fff = Z.land a 0x0fff /\
  Z.land (case_F_attri c a) 0xf0ff = Z.land a 0xf0ff /\
  (attribute a ->
   attribute (case_B_attri c a) /\ attribute (case_F_attri c a)) /\
  Z.land (case_B_attri (chr "R") a) 0x4000 = 0x4000 /\
  Z.land (case_B_attri (chr "r") a) 0x4000 = 0 /\
  case_B_attri c (case_B_attri c a) = case_B_attri c a /\
  case_F_attri c (case_F_attri c a) = case_F_attri c a /\
  (Z.land a 0x4000 = 0 ->
   case_B_attri (chr "r") (case_B_attri (chr "R") a) = a) /\
  (forall (k : Z) (v : bool) (n : Z),
     colour_letter c = Some (k, v) ->
     0 <= n ->
     Z.testbit (case_B_attri c a) n =
       (if n =? 12 + k then v else Z.testbit a n) /\
     Z.testbit (case_F_attri c a) n =
       (if n =? 8 + k then v else Z.testbit a n)) /\
  (colour_letter c = None ->
   case_B_attri c a = a /\ case_F_attri c a = a) /\
  (forall (E : error_h) (pc : list Z -> va_list -> result (list Z))
     (fmt : list Z) (pos : nat) (d : directive) (ap : va_list) (c' : Z),
     nth_error fmt pos = Some c ->
     nth_error fmt (S pos) = Some c' ->
     convert E pc (chr "B") fmt pos d ap a =
       Done ([], S pos, ap, case_B_attri (to_schar c) a) /\
     convert E pc (chr "F") fmt pos d ap a =
       Done ([], S pos, ap, case_F_attri (to_schar c) a)) /\
  (forall (E : error_h) (c2 : Z),
     vprintfmt E
       (chr "%" :: chr "B" :: c :: chr "%" :: chr "F" :: c2 :: cstring "x")
       [] =
     Done [Z.lor (chr "x")
             (case_F_attri (to_schar c2) (case_B_attri (to_schar c) 0))]).
Proof.
  split; [|split; [|split; [|split; [|split; [|split; [|split; [|split;
    [|split; [|split; [|split]]]]]]]]]].
  - destruct (case_B_attri_cases c a) as [-> | (k & Hk & [-> | ->])];
      [reflexivity | |];
      apply in4 in Hk; destruct Hk as [-> | [-> | [-> | ->]]];
      first [ apply land_lor_outside; reflexivity
            | apply land_land_outside; reflexivity ].
  - destruct (case_F_attri_cases c a) as [-> | (k & Hk & [-> | ->])];
      [reflexivity | |];
      apply in4 in Hk; destruct Hk as [-> | [-> | [-> | ->]]];
      first [ apply land_lor_outside; reflexivity
            | apply land_land_outside; reflexivity ].
  - intros Ha. split.
    + destruct (case_B_attri_cases c a) as [-> | (k & Hk & [-> | ->])];
        [exact Ha | |].
      * apply attribute_lor; [exact Ha|].
        apply in4 in Hk; destruct Hk as [-> | [-> | [-> | ->]]]; reflexivity.
      * apply attribute_land. exact Ha.
    + destruct (case_F_attri_cases c a) as [-> | (k & Hk & [-> | ->])];
        [exact Ha | |].
      * apply attribute_lor; [exact Ha|].
        apply in4 in Hk; destruct Hk as [-> | [-> | [-> | ->]]]; reflexivity.
      * apply attribute_land. exact Ha.
  - change (case_B_attri (chr "R") a) with (Z.lor a 0x4000).
    rewrite Z.land_lor_distr_l. change (Z.land 0x4000 0x4000) with 0x4000.
    apply Z.bits_inj'. intros n Hn.
    rewrite Z.lor_spec, Z.land_spec.
    destruct (Z.testbit 0x4000 n); [apply orb_true_r|].
    rewrite andb_false_r. reflexivity.
  - change (case_B_attri (chr "r") a) with (Z.land a (Z.lnot 0x4000)).
    rewrite <- Z.land_assoc. change (Z.land (Z.lnot 0x4000) 0x4000) with 0.
    apply Z.land_0_r.
  - unfold case_B_attri.
    repeat match goal with
      | |- context [if ?t then _ else _] => destruct t
      end; try reflexivity;
      first [ rewrite <- Z.lor_assoc, Z.lor_diag; reflexivity
            | rewrite <- Z.land_assoc, Z.land_diag; reflexivity ].
  - unfold case_F_attri.
    repeat match goal with
      | |- context [if ?t then _ else _] => destruct t
      end; try reflexivity;
      first [ rewrite <- Z.lor_assoc, Z.lor_diag; reflexivity
            | rewrite <- Z.land_assoc, Z.land_diag; reflexivity ].
  - intros Ha.
    change (case_B_attri (chr "r") (case_B_attri (chr "R") a))
      with (Z.land (Z.lor a 0x4000) (Z.lnot 0x4000)).
    rewrite Z.land_lor_distr_l.
    change (Z.land 0x4000 (Z.lnot 0x4000)) with 0. rewrite Z.lor_0_r.
    apply Z.bits_inj'. intros n Hn.
    rewrite Z.land_spec.
    apply (f_equal (fun z => Z.testbit z n)) in Ha.
    rewrite Z.land_spec, Z.bits_0 in Ha.
    rewrite Z.lnot_spec by exact Hn.
    destruct (Z.testbit a n), (Z.testbit 0x4000 n);
      try reflexivity; discriminate.
  - intros k v n Hc Hn. unfold colour_letter in Hc.
    unfold case_B_attri, case_F_attri.
    repeat match type of Hc with
      | context [if ?t then _ else _] => destruct t
      end;
      try discriminate Hc;
      injection Hc as <- <-;
      split;
      match goal with
      | |- Z.testbit (Z.lor _ _) _ = (if _ =? ?e then _ else _) =>
          exact (testbit_set_bit a e n ltac:(lia) Hn)
      | |- Z.testbit (Z.land _ _) _ = (if _ =? ?e then _ else _) =>
          exact (testbit_clear_bit a e n ltac:(lia) Hn)
      end.
  - intros Hc. unfold colour_letter in Hc.
    unfold case_B_attri, case_F_attri.
    repeat match type of Hc with
      | context [if ?t then _ else _] => destruct t
      end;
      try discriminate Hc.
    split; reflexivity.
  - intros E pc fmt pos d ap c' Hc Hc'. split.
    + eapply convert_B; [exact Hc | exact Hc'].
    + eapply convert_F; [exact Hc | exact Hc'].
  - intros E c2.
    change (vprintfmt E
              (chr "%" :: chr "B" :: c :: chr "%" :: chr "F" :: c2
                 :: cstring "x") [])
      with (vprintfmt_loop E (vprintfmt_rec 1 E) 9
              (chr "%" :: chr "B" :: c :: chr "%" :: chr "F" :: c2
                 :: cstring "x") 0 [] 0).
    erewrite vprintfmt_loop_step;
      [| reflexivity | reflexivity
       | eapply convert_B; reflexivity].
    erewrite vprintfmt_loop_step;
      [| reflexivity | reflexivity
       | eapply convert_F; reflexivity].
    erewrite vprintfmt_loop_end; [| reflexivity].
    reflexivity.
Qed.

Lemma attribute_letters_witness :
  (attribute (case_B_attri (chr "I") 0x0700) /\
   attribute (case_F_attri (chr "I") 0x0700)) /\
  (Z.testbit (case_B_attri (chr "I") 0x0700) 15 = true /\
   Z.testbit (case_F_attri (chr "I") 0x0700) 11 = true).
Proof.
  split.
  - exact (proj1 (proj2 (proj2 (attribute_letters (chr "I") 0x0700)))
      ltac:(reflexivity)).
  - pose proof (proj1 (proj2 (proj2 (proj2 (proj2 (proj2 (proj2 (proj2
                  (proj2 (attribute_letters (chr "I") 0x0700))))))))))
      as Hbit.
    split.
    + exact (proj1 (Hbit 3 true 15 ltac:(reflexivity) ltac:(lia))).
    + exact (proj2 (Hbit 3 true 11 ltac:(reflexivity) ltac:(lia))).
Defined.

Lemma carries_lor (x a : Z) : carries a (Z.lor x a).
Proof.
  unfold carries. apply Z.bits_inj'. intros n Hn.
  rewrite Z.land_spec, Z.lor_spec.
  destruct (Z.testbit x n), (Z.testbit a n); reflexivity.
Qed.

Lemma carries_put_digit (p a d : Z) :
  attribute a -> carries a (put_digit (Z.lor p a) d).
Proof.
  unfold attribute, carries, put_digit. intros Ha.
  apply Z.bits_inj'. intros n Hn.
  apply (f_equal (fun z => Z.testbit z n)) in Ha.
  rewrite Z.land_spec in Ha.
  rewrite Z.land_spec, Z.lor_spec, Z.land_spec, Z.lor_spec.
  destruct (Z.testbit a n), (Z.testbit 0xff00 n),
    (Z.testbit (digit_char d) n), (Z.testbit p n);
    try reflexivity; discriminate.
Qed.

Lemma printnum_pad_forall (P : Z -> Prop) (padc : Z) :
  P padc ->
  forall (fuel : nat) (w : Z) (out : list Z),
    printnum_pad fuel w padc = Done out -> Forall P out.
Proof.
  intros HP. induction fuel as [|fuel IH]; intros w out H;
    cbn [printnum_pad] in H; destruct (0 <? to_int (w - 1));
    try discriminate;
    try (injection H as <-; constructor).
  destruct (printnum_pad fuel (to_int (w - 1)) padc) as [out'|] eqn:Hrec;
    [|discriminate].
  injection H as <-. constructor; [exact HP|].
  eapply IH. exact Hrec.
Qed.

Lemma printnum_forall (P : Z -> Prop) (base padc : Z) :
  P padc ->
  (forall d : Z, P (put_digit padc d)) ->
  forall (fuel : nat) (num w : Z) (out : list Z),
    printnum fuel num base w padc = Done out -> Forall P out.
Proof.
  intros HP Hd. induction fuel as [|fuel IH]; intros num w out H;
    [discriminate|].
  rewrite printnum_S in H. destruct (base =? 0); [discriminate|].
  destruct (base <=? num).
  - destruct (printnum fuel (num / base) base (to_int (w - 1)) padc)
      as [out'|] eqn:Hrec; [|discriminate].
    injection H as <-. apply Forall_app. split.
    + eapply IH. exact Hrec.
    + constructor; [apply Hd | constructor].
  - destruct (printnum_pad (Z.to_nat (to_int (w - 1))) w padc)
      as [out'|] eqn:Hpad; [|discriminate].
    injection H as <-. apply Forall_app. split.
    + eapply printnum_pad_forall; [exact HP | exact Hpad].
    + constructor; [apply Hd | constructor].
Qed.

Lemma number_carries (num base : Z) (d : directive) (attri : Z)
  (out : list Z) :
  attribute attri ->
  number num base d attri = Done out -> Forall (carries attri) out.
Proof.
  intros Ha H. unfold number in H.
  eapply printnum_forall; [| | exact H].
  - apply carries_lor.
  - intros x. apply carries_put_digit. exact Ha.
Qed.

Lemma fill_forall (P : Z -> Prop) (c : Z) :
  P c ->
  forall (fuel : nat) (w : Z) (out : list Z) (w' : Z),
    fill fuel w c = Done (out, w') -> Forall P out.
Proof.
  intros HP. induction fuel as [|fuel IH]; intros w out w' H;
    cbn [fill] in H; destruct (0 <? w); try discriminate;
    try (injection H as <- _; constructor).
  destruct (fill fuel (to_int (w - 1)) c) as [[out1 w1]|] eqn:Hrec;
    [|discriminate].
  injection H as <- _. constructor; [exact HP|].
  eapply IH. exact Hrec.
Qed.

Lemma s_char_carries (ch altflag attri : Z) :
  carries attri (s_char ch altflag attri).
Proof.
  unfold s_char.
  destruct (negb (altflag =? 0) && ((ch <? chr " ") || (chr "~" <? ch)));
    apply carries_lor.
Qed.

Lemma s_chars_carries (altflag attri : Z) :
  forall (p : list Z) (w prec : Z),
    Forall (carries attri) (fst (s_chars p w prec altflag attri)).
Proof.
  induction p as [|c p IH]; intros w prec; cbn [s_chars]; [constructor|].
  destruct (to_schar c =? 0); [constructor|].
  destruct (prec <? 0).
  - specialize (IH (to_int (w - 1)) prec).
    destruct (s_chars p (to_int (w - 1)) prec altflag attri) as [out w'].
    cbn [fst] in *. constructor; [apply s_char_carries | exact IH].
  - destruct (0 <=? to_int (prec - 1)); [|constructor].
    specialize (IH (to_int (w - 1)) (to_int (prec - 1))).
    destruct (s_chars p (to_int (w - 1)) (to_int (prec - 1)) altflag attri)
      as [out w'].
    cbn [fst] in *. constructor; [apply s_char_carries | exact IH].
Qed.

Lemma case_s_carries (p : option (list Z)) (d : directive) (attri : Z)
  (out : list Z) :
  case_s p d attri = Done out -> Forall (carries attri) out.
Proof.
  unfold case_s.
  set (s := match p with None => bytes "(null)" | Some s => s end).
  intros H.
  assert (Htail : forall (out1 : list Z) (w1 : Z),
    Forall (carries attri) out1 ->
    (let '(out2, width) := s_chars s w1 (precision d) (altflag d) attri in
     '(out3, _) <- fill (Z.to_nat width) width (Z.lor (chr " ") attri) ;;
     Done (out1 ++ out2 ++ out3)) = Done out ->
    Forall (carries attri) out).
  { intros out1 w1 H1 Heq.
    pose proof (s_chars_carries (altflag d) attri s w1 (precision d)) as H2.
    destruct (s_chars s w1 (precision d) (altflag d) attri) as [out2 w2].
    cbn [fst] in H2.
    destruct (fill (Z.to_nat w2) w2 (Z.lor (chr " ") attri))
      as [[out3 w3]|] eqn:Hf; [|discriminate].
    injection Heq as <-.
    apply Forall_app. split; [exact H1|].
    apply Forall_app. split; [exact H2|].
    eapply fill_forall; [apply carries_lor | exact Hf]. }
  destruct ((0 <? width d) && negb (padc d =? chr "-")).
  - cbv zeta in H.
    destruct (fill
      (Z.to_nat (to_int (width d -
         strnlen s (to_unsigned size_t_bits (precision d)))))
      (to_int (width d - strnlen s (to_unsigned size_t_bits (precision d))))
      (Z.lor (padc d) attri)) as [[out1 w1]|] eqn:Hf; [|discriminate].
    cbn [bind] in H. eapply (Htail out1 w1); [|exact H].
    eapply fill_forall; [apply carries_lor | exact Hf].
  - cbn [bind] in H. eapply (Htail [] (width d)); [constructor | exact H].
Qed.

Lemma Done_inj {A : Type} (a b : A) : Done a = Done b -> a = b.
Proof. intros H. injection H as H. exact H. Qed.

Lemma Done_out_inj {A B C D : Type} (a a' : A) (b b' : B) (c c' : C)
  (d d' : D) :
  Done (a, b, c, d) = Done (a', b', c', d') -> a = a'.
Proof. intros H. injection H as H _ _ _. exact H. Qed.

Lemma case_d_carries (n : Z) (d : directive) (attri : Z) (out : list Z) :
  attribute attri ->
  case_d n d attri = Done out -> Forall (carries attri) out.
Proof.
  intros Ha. unfold case_d. destruct (to_llong (to_ullong n) <? 0).
  - destruct (number (to_ullong (to_llong (- to_llong (to_ullong n)))) 10 d
                attri) as [out'|] eqn:Hn; [|discriminate].
    intros H. apply Done_inj in H. subst out.
    constructor; [apply carries_lor|].
    eapply number_carries; [exact Ha | exact Hn].
  - apply number_carries. exact Ha.
Qed.

Lemma literal_carries (attri : Z) :
  forall (fuel : nat) (fmt : list Z) (pos : nat) (out : list Z)
    (next : option nat),
    literal fuel fmt pos attri = Done (out, next) ->
    Forall (carries attri) out.
Proof.
  induction fuel as [|fuel IH]; intros fmt pos out next H; [discriminate|].
  rewrite literal_S in H.
  destruct (read_uchar fmt pos) as [c|]; [|discriminate].
  cbn [bind] in H. destruct (c =? chr "%").
  { injection H as <- _. constructor. }
  destruct (c =? 0).
  { injection H as <- _. constructor. }
  destruct (literal fuel fmt (S pos) attri) as [[out' next']|] eqn:Hrec;
    [|discriminate].
  injection H as <- _. constructor; [apply carries_lor|].
  eapply IH. exact Hrec.
Qed.

(** Every character that the text loop writes, and every character that a
    case of the switch other than [case 'e'] writes (digits, pad characters,
    sign, prefix, the characters of a string, the ['%'] of an unknown
    directive), has all bits of the current attribute. *)
Theorem attribute_on_every_character (E : error_h)
  (pc : list Z -> va_list -> result (list Z)) (ch : Z) (fmt : list Z)
  (pos : nat) (d : directive) (ap : va_list) (attri : Z) :
  attribute attri ->
  ch <> chr "e" ->
  (forall (out : list Z) (pos' : nat) (ap' : va_list) (attri' : Z),
     convert E pc ch fmt pos d ap attri = Done (out, pos', ap', attri') ->
     Forall (carries attri) out) /\
  (forall (fuel : nat) (out : list Z) (next : option nat),
     literal fuel fmt pos attri = Done (out, next) ->
     Forall (carries attri) out).
Proof.
  intros Ha Hne. split; [|intros fuel out next; apply literal_carries].
  intros out pos' ap' attri'. unfold convert.
  destruct (ch =? chr "c").
  { destruct (va_arg_int ap) as [[c ap1]|]; [|discriminate].
    intros H. apply Done_out_inj in H. subst out.
    constructor; [apply carries_lor | constructor]. }
  destruct (ch =? chr "e") eqn:Ee.
  { apply Z.eqb_eq in Ee. contradiction. }
  destruct (ch =? chr "s").
  { destruct (va_arg_str ap) as [[p ap1]|]; [|discriminate].
    cbn [bind].
    destruct (case_s p d attri) as [o|] eqn:Hs; [|discriminate].
    intros H. apply Done_out_inj in H. subst out.
    eapply case_s_carries. exact Hs. }
  destruct (ch =? chr "d").
  { destruct (getint ap (lflag d)) as [[n ap1]|]; [|discriminate].
    cbn [bind].
    destruct (case_d n d attri) as [o|] eqn:Hd; [|discriminate].
    intros H. apply Done_out_inj in H. subst out.
    eapply case_d_carries; [exact Ha | exact Hd]. }
  destruct (ch =? chr "u").
  { destruct (getuint ap (lflag d)) as [[n ap1]|]; [|discriminate].
    cbn [bind].
    destruct (number n 10 d attri) as [o|] eqn:Hn; [|discriminate].
    intros H. apply Done_out_inj in H. subst out.
    eapply number_carries; [exact Ha | exact Hn]. }
  destruct (ch =? chr "o").
  { destruct (getuint ap (lflag d)) as [[n ap1]|]; [|discriminate].
    cbn [bind].
    destruct (number n 8 d attri) as [o|] eqn:Hn; [|discriminate].
    intros H. apply Done_out_inj in H. subst out.
    eapply number_carries; [exact Ha | exact Hn]. }
  destruct (ch =? chr "p").
  { destruct (va_arg_ptr ap) as [[a ap1]|]; [|discriminate].
    cbn [bind].
    destruct (number (to_ullong (to_unsigned uintptr_bits a)) 16 d attri)
      as [o|] eqn:Hn; [|discriminate].
    intros H. apply Done_out_inj in H. subst out.
    constructor; [apply carries_lor|].
    constructor; [apply carries_lor|].
    eapply number_carries; [exact Ha | exact Hn]. }
  destruct (ch =? chr "x").
  { destruct (getuint ap (lflag d)) as [[n ap1]|]; [|discriminate].
    cbn [bind].
    destruct (number n 16 d attri) as [o|] eqn:Hn; [|discriminate].
    intros H. apply Done_out_inj in H. subst out.
    eapply number_carries; [exact Ha | exact Hn]. }
  destruct (ch =? chr "%").
  { intros H. apply Done_out_inj in H. subst out.
    constructor; [apply carries_lor | constructor]. }
  destruct (ch =? chr "B").
  { destruct (read_char fmt pos); [|discriminate]. cbn [bind].
    destruct (read_char fmt (S pos)); [|discriminate].
    intros H. apply Done_out_inj in H. subst out. constructor. }
  destruct (ch =? chr "F").
  { destruct (read_char fmt pos); [|discriminate]. cbn [bind].
    destruct (read_char fmt (S pos)); [|discriminate].
    intros H. apply Done_out_inj in H. subst out. constructor. }
  destruct (ch =? chr "C").
  { destruct (read_char fmt pos); [|discriminate].
    intros H. apply Done_out_inj in H. subst out. constructor. }
  destruct (rewind fmt (Nat.pred pos)); [|discriminate].
  intros H. apply Done_out_inj in H. subst out.
  constructor; [apply carries_lor | constructor].
Qed.

Lemma attribute_on_every_character_witness :
  Forall (carries 0x4000)
    (map (fun c => Z.lor c 0x4000) (bytes "-    42")).
Proof.
  exact (proj1 (attribute_on_every_character jos_error_h
    (vprintfmt_rec 1 jos_error_h) (chr "d") (cstring "%BR%6d") 6
    (set_width init_directive 6) [Aint (- 42)] 0x4000
    ltac:(reflexivity) ltac:(vm_compute; congruence))
    (map (fun c => Z.lor c 0x4000) (bytes "-    42")) 6%nat [] 0x4000
    ltac:(reflexivity)).
Defined.

(** ** The flag '-' *)

Lemma s_shown_plain (c : Z) : s_shown c 0 0 = to_schar c.
Proof. unfold s_shown. cbn [Z.eqb negb andb]. apply Z.lor_0_r. Qed.

(** The flag ['-'] only makes ['-'] the pad character: a number is still
    padded on its left, with ['-']s, while for a string the left padding is
    skipped and the rest of the width is filled with spaces on the right. *)
Theorem minus_flag (E : error_h) (w i : Z) (s : list Z) :
  INT_MIN + 65 <= w <= INT_MAX ->
  INT_MIN <= i <= INT_MAX ->
  Z.of_nat (List.length (c_chars s)) <= INT_MAX ->
  INT_MIN + 2 * Z.of_nat (List.length (c_chars s)) <= w ->
  vprintfmt E (cstring "%-*d") [Aint w; Aint i] =
    Done ((if i <? 0 then [chr "-"] else [])
          ++ repeat (chr "-") (Z.to_nat (w - digitCount (Z.abs i) 10))
          ++ map digit_char (digits 10 (Z.abs i))) /\
  vprintfmt E (cstring "%-*s") [Aint w; Astr (Some s)] =
    Done (map to_schar (c_chars s)
          ++ repeat (chr " ")
               (Z.to_nat (w - Z.of_nat (List.length (c_chars s))))).
Proof.
  intros Hw Hi Hl Hw2.
  assert (Hd : process_precision
                 (set_precision (set_padc init_directive (chr "-"))
                    (to_int w)) =
               {| padc := chr "-"; width := w; precision := -1;
                  lflag := 0; altflag := 0 |}).
  { rewrite to_int_id by (unfold INT_MIN, INT_MAX in *; lia). reflexivity. }
  split.
  - assert (Hconv :
      convert E (vprintfmt_rec 1 E) (chr "d") (cstring "%-*d") 4
        (process_precision
           (set_precision (set_padc init_directive (chr "-")) (to_int w)))
        [Aint i] 0 =
      Done ((if i <? 0 then [chr "-"] else [])
            ++ repeat (chr "-") (Z.to_nat (w - digitCount (Z.abs i) 10))
            ++ map digit_char (digits 10 (Z.abs i)), 4%nat, [], 0)).
    { rewrite Hd. unfold convert. eval_chr_eqb. unfold getint.
      cbn [lflag]. change (2 <=? 0) with false.
      change (negb (0 =? 0)) with false. cbv iota. cbn [bind].
      rewrite (to_int_id i) by exact Hi.
      rewrite to_llong_id by (unfold INT_MIN, INT_MAX in Hi; lia).
      rewrite case_d_closed_form
        by (unfold INT_MIN, INT_MAX in Hi; cbn [width]; lia || assumption).
      cbn [bind width padc]. unfold number_output, sign_of.
      change (Z.lor (chr "-") 0) with (chr "-").
      rewrite map_put_digit_plain by reflexivity. reflexivity. }
    change (vprintfmt E (cstring "%-*d") [Aint w; Aint i])
      with (vprintfmt_loop E (vprintfmt_rec 1 E) 6 (cstring "%-*d") 0
              [Aint w; Aint i] 0).
    erewrite vprintfmt_loop_step; [| reflexivity | reflexivity | exact Hconv].
    erewrite vprintfmt_loop_end; [| reflexivity].
    cbn [bind app]. rewrite app_nil_r. reflexivity.
  - assert (Hconv :
      convert E (vprintfmt_rec 1 E) (chr "s") (cstring "%-*s") 4
        (process_precision
           (set_precision (set_padc init_directive (chr "-")) (to_int w)))
        [Astr (Some s)] 0 =
      Done (map to_schar (c_chars s)
            ++ repeat (chr " ")
                 (Z.to_nat (w - Z.of_nat (List.length (c_chars s)))),
            4%nat, [], 0)).
    { rewrite Hd. unfold convert. eval_chr_eqb. cbn [va_arg_str bind].
      rewrite case_s_some
        by (cbn [width precision]; unfold INT_MIN, INT_MAX in *; lia).
      cbn [bind]. unfold s_output, s_left, s_right, s_kept.
      cbn [width padc precision altflag s_string].
      change (-1 <? 0) with true. cbv iota.
      change (chr "-" =? chr "-") with true. cbn [negb].
      rewrite andb_false_r. cbn [repeat app].
      change (Z.lor (chr " ") 0) with (chr " ").
      erewrite map_ext; [reflexivity|]. apply s_shown_plain. }
    change (vprintfmt E (cstring "%-*s") [Aint w; Astr (Some s)])
      with (vprintfmt_loop E (vprintfmt_rec 1 E) 6 (cstring "%-*s") 0
              [Aint w; Astr (Some s)] 0).
    erewrite vprintfmt_loop_step; [| reflexivity | reflexivity | exact Hconv].
    erewrite vprintfmt_loop_end; [| reflexivity].
    cbn [bind app]. rewrite app_nil_r. reflexivity.
Qed.

Lemma minus_flag_witness :
  vprintfmt jos_error_h (cstring "%-*d") [Aint 5; Aint 42] =
    Done (bytes "---42") /\
  vprintfmt jos_error_h (cstring "%-*s") [Aint 5; Astr (Some (bytes "ab"))] =
    Done (bytes "ab   ").
Proof.
  exact (minus_flag jos_error_h 5 42 (bytes "ab")
    ltac:(unfold INT_MIN, INT_MAX; lia)
    ltac:(unfold INT_MIN, INT_MAX; lia)
    ltac:(unfold INT_MAX; simpl; lia)
    ltac:(unfold INT_MIN; simpl; lia)).
Defined.

(** ** Truncation by the bounded buffer *)

Lemma store_length (mem : list Z) :
  forall (i : nat) (v : Z) (mem' : list Z),
    store mem i v = Some mem' -> List.length mem' = List.length mem.
Proof.
  induction mem as [|b mem IH]; intros i v mem' H; [discriminate|].
  destruct i as [|i]; cbn [store] in H.
  - injection H as <-. reflexivity.
  - destruct (store mem i v) as [m|] eqn:Hs; [|discriminate].
    injection H as <-. cbn [List.length]. f_equal. eapply IH. exact Hs.
Qed.

(** [vsnprintf] reports truncation through its value: the whole output is
    in the array, followed by the zero byte, exactly when the value returned
    is less than the capacity; otherwise the array holds the first [n - 1]
    characters and the zero byte at index [n - 1].  Either way the bytes
    from index [n] on are the caller's. *)
Theorem vsnprintf_truncation (E : error_h) (mem : list Z) (n : Z)
  (fmt : list Z) (ap : va_list) (out : list Z) :
  1 <= n <= Z.of_nat (List.length mem) ->
  vprintfmt E fmt ap = Done out ->
  Z.of_nat (List.length out) <= INT_MAX ->
  exists mem' : list Z,
    vsnprintf E (Some mem) n fmt ap =
      Returns (Z.of_nat (List.length out)) (Some mem') /\
    List.length mem' = List.length mem /\
    skipn (Z.to_nat n) mem' = skipn (Z.to_nat n) mem /\
    (Z.of_nat (List.length out) < n ->
     firstn (S (List.length out)) mem' = map to_uchar out ++ [0]) /\
    (n <= Z.of_nat (List.length out) ->
     firstn (Z.to_nat n) mem' =
     map to_uchar (firstn (Z.to_nat (n - 1)) out) ++ [0]).
Proof.
  intros Hn Hout Hlen.
  pose proof (vsnprintf_returns E mem n fmt ap out Hn Hout Hlen) as Hret.
  cbv zeta in Hret.
  set (k := Z.to_nat (Z.min (Z.of_nat (List.length out)) (n - 1))) in *.
  set (stored := map to_uchar (firstn k out)) in *.
  assert (Hk : (k <= List.length out)%nat) by (subst k; lia).
  assert (Hst : List.length stored = k).
  { subst stored. rewrite length_map, length_firstn. lia. }
  eexists. split; [exact Hret|].
  assert (Hkn : (S k <= Z.to_nat n)%nat) by (subst k; lia).
  split; [|split; [|split]].
  - rewrite length_app. cbn [List.length]. rewrite Hst, length_skipn.
    subst k. lia.
  - replace (stored ++ 0 :: skipn (S k) mem)
      with ((stored ++ [0]) ++ skipn (S k) mem)
      by (rewrite <- app_assoc; reflexivity).
    rewrite skipn_app.
    replace (List.length (stored ++ [0])) with (S k)
      by (rewrite length_app; cbn [List.length]; lia).
    rewrite skipn_all2
      by (rewrite length_app; cbn [List.length]; lia).
    cbn [app]. rewrite skipn_skipn. f_equal. lia.
  - intros Hlt.
    assert (Hkeq : k = List.length out) by (subst k; lia).
    replace (stored ++ 0 :: skipn (S k) mem)
      with ((stored ++ [0]) ++ skipn (S k) mem)
      by (rewrite <- app_assoc; reflexivity).
    replace (S (List.length out)) with (List.length (stored ++ [0]))
      by (rewrite length_app; cbn [List.length]; lia).
    rewrite firstn_length_app.
    subst stored. rewrite Hkeq, firstn_all. reflexivity.
  - intros Hge.
    replace (stored ++ 0 :: skipn (S k) mem)
      with ((stored ++ [0]) ++ skipn (S k) mem)
      by (rewrite <- app_assoc; reflexivity).
    replace (Z.to_nat n) with (List.length (stored ++ [0]))
      by (rewrite length_app; cbn [List.length]; subst k; lia).
    rewrite firstn_length_app.
    subst stored. replace (Z.to_nat (n - 1)) with k by (subst k; lia).
    reflexivity.
Qed.

Lemma vsnprintf_truncation_witness :
  exists mem' : list Z,
    vsnprintf jos_error_h (Some [7; 7; 7; 7; 7]) 4 (cstring "%x")
      [Aint 0xbeef] =
      Returns (Z.of_nat (List.length (bytes "beef"))) (Some mem') /\
    List.length mem' = List.length [7; 7; 7; 7; 7] /\
    skipn (Z.to_nat 4) mem' = skipn (Z.to_nat 4) [7; 7; 7; 7; 7] /\
    (Z.of_nat (List.length (bytes "beef")) < 4 ->
     firstn (S (List.length (bytes "beef"))) mem' =
     map to_uchar (bytes "beef") ++ [0]) /\
    (4 <= Z.of_nat (List.length (bytes "beef")) ->
     firstn (Z.to_nat 4) mem' =
     map to_uchar (firstn (Z.to_nat (4 - 1)) (bytes "beef")) ++ [0]).
Proof.
  exact (vsnprintf_truncation jos_error_h [7; 7; 7; 7; 7] 4 (cstring "%x")
    [Aint 0xbeef] (bytes "beef")
    ltac:(simpl; lia) ltac:(reflexivity)
    ltac:(unfold INT_MAX; simpl; lia)).
Defined.

(** ** Bytes from 0x80 *)

Lemma to_uchar_land (z : Z) : to_uchar z = Z.land z 0xff.
Proof.
  unfold to_uchar, to_unsigned. change 0xff with (Z.ones 8).
  rewrite Z.land_ones by lia. reflexivity.
Qed.

Lemma small_negative_high_bits (x : Z) :
  -128 <= x < 0 -> Z.land x 0xff00 = 0xff00.
Proof.
  intros Hx. apply Z.bits_inj'. intros n Hn. rewrite Z.land_spec.
  destruct (Z_lt_le_dec n 8) as [Hlt | Hge].
  - assert (Hc : n = 0 \/ n = 1 \/ n = 2 \/ n = 3 \/ n = 4 \/ n = 5 \/
                 n = 6 \/ n = 7) by lia.
    repeat (destruct Hc as [-> | Hc]; [apply andb_false_r|]).
    subst n. apply andb_false_r.
  - rewrite (Z.bits_above_log2_neg x n); [reflexivity | lia |].
    assert (Hp : 0 <= Z.pred (- x) < 2 ^ 7) by (change (2 ^ 7) with 128; lia).
    destruct (Z.eq_dec (Z.pred (- x)) 0) as [-> | Hnz]; [simpl; lia|].
    assert (Z.log2 (Z.pred (- x)) < 7) by (apply Z.log2_lt_pow2; lia).
    lia.
Qed.

(** A byte from 0x80 is not the same character in the format and in a
    string argument: the text loop reads it as an [unsigned char] and writes
    its value, while [%s] reads it as a [char] and, without the flag ['#'],
    writes a negative [int], whose second byte has all eight bits set,
    whatever the attribute is; only the low byte is the byte of the string. *)
Theorem string_bytes_are_signed (E : error_h) (c attri : Z) :
  128 <= to_uchar c ->
  attribute attri ->
  s_shown c 0 attri = Z.lor (to_uchar c - 256) attri /\
  Z.land (s_shown c 0 attri) 0xff00 = 0xff00 /\
  to_uchar (s_shown c 0 attri) = to_uchar c /\
  vprintfmt E (cstring "%s") [Astr (Some [c])] = Done [to_uchar c - 256] /\
  vprintfmt E [c; 0] [] = Done [to_uchar c].
Proof.
  intros Hc Ha. pose proof (to_uchar_range c) as Hr.
  assert (Hs : to_schar c = to_uchar c - 256).
  { rewrite to_schar_uchar.
    replace (to_uchar c <? 128) with false
      by (symmetry; apply Z.ltb_ge; lia).
    reflexivity. }
  assert (Hshown : forall a : Z,
            s_shown c 0 a = Z.lor (to_uchar c - 256) a).
  { intros a. unfold s_shown. cbn [Z.eqb negb andb]. rewrite Hs.
    reflexivity. }
  split; [apply Hshown|]. split; [|split; [|split]].
  - rewrite Hshown, Z.land_lor_distr_l.
    rewrite small_negative_high_bits by lia.
    unfold attribute in Ha. rewrite Ha.
    rewrite <- Ha, Z.lor_comm. apply Z.bits_inj'. intros n Hn.
    rewrite Z.lor_spec, Z.land_spec.
    destruct (Z.testbit attri n), (Z.testbit 0xff00 n); reflexivity.
  - rewrite Hshown, !to_uchar_land, Z.land_lor_distr_l.
    assert (Hlow : Z.land attri 0xff = 0).
    { unfold attribute in Ha. rewrite <- Ha, <- Z.land_assoc.
      change (Z.land 0xff00 0xff) with 0. apply Z.land_0_r. }
    rewrite Hlow, Z.lor_0_r, <- !to_uchar_land.
    unfold to_uchar at 1. unfold to_unsigned.
    change (2 ^ 8) with 256.
    replace (to_uchar c - 256) with (to_uchar c + (-1) * 256) by lia.
    rewrite Z.mod_add by lia. apply Z.mod_small. lia.
  - assert (Hcc : c_chars [c] = [c]).
    { cbn [c_chars]. rewrite Hs.
      replace (to_uchar c - 256 =? 0) with false
        by (symmetry; apply Z.eqb_neq; lia).
      reflexivity. }
    assert (Hconv :
      convert E (vprintfmt_rec 1 E) (chr "s") (cstring "%s") 2
        init_directive [Astr (Some [c])] 0 =
      Done ([to_uchar c - 256], 2%nat, [], 0)).
    { unfold convert. eval_chr_eqb. cbn [va_arg_str bind].
      rewrite case_s_some
        by (rewrite ?Hcc; cbn; unfold INT_MIN, INT_MAX; lia).
      cbn [bind]. unfold s_output, s_left, s_right, s_kept.
      cbn [width padc precision altflag s_string init_directive].
      rewrite Hcc. change (-1 <? 0) with true.
      change (0 <? -1) with false. cbv iota. cbn [andb].
      cbn [List.length map repeat app].
      change (Z.to_nat (-1 - Z.of_nat 1)) with 0%nat. cbn [repeat].
      rewrite Hshown, Z.lor_0_r. reflexivity. }
    change (vprintfmt E (cstring "%s") [Astr (Some [c])])
      with (vprintfmt_loop E (vprintfmt_rec 1 E) 4 (cstring "%s") 0
              [Astr (Some [c])] 0).
    erewrite vprintfmt_loop_step; [| reflexivity | reflexivity | exact Hconv].
    erewrite vprintfmt_loop_end; [| reflexivity].
    reflexivity.
  - change (vprintfmt E [c; 0] [])
      with (vprintfmt_loop E (vprintfmt_rec 1 E) 3 [c; 0] 0 [] 0).
    apply vprintfmt_loop_end.
    rewrite literal_S. cbn [read_uchar nth_error bind].
    replace (to_uchar c =? chr "%") with false
      by (symmetry; apply Z.eqb_neq; change (chr "%") with 37; lia).
    replace (to_uchar c =? 0) with false
      by (symmetry; apply Z.eqb_neq; lia).
    change (List.length [c; 0]) with 2%nat.
    rewrite literal_S. cbn [read_uchar nth_error bind].
    change (to_uchar 0 =? chr "%") with false.
    change (to_uchar 0 =? 0) with true. cbv iota. cbn [bind].
    rewrite Z.lor_0_r. reflexivity.
Qed.

Lemma string_bytes_are_signed_witness :
  vprintfmt jos_error_h (cstring "%s") [Astr (Some [0xe9])] =
    Done [0xe9 - 256] /\
  vprintfmt jos_error_h [0xe9; 0] [] = Done [0xe9].
Proof.
  pose proof (string_bytes_are_signed jos_error_h 0xe9 0
    ltac:(vm_compute; congruence) ltac:(reflexivity)) as H.
  exact (proj2 (proj2 (proj2 H))).
Defined.
